(** * Teams win index: normalisation, scoring, ingestion and rollups

    A shallow embedding of the batch pipeline under [scripts/]:
    the historical loaders ([load_historical_nhl.py], [load_historical_nba.py]),
    the ledger builder ([compute_team_game_results.py]), the rollups
    ([rollups.py]), the daily 7-day city aggregation
    ([build_city_daily_agg.py]), the daily snapshot append
    ([fetch_yesterday.py]), the long files of the leagues
    ([transform_league_long.py], [transform_nhl_long.py]) and the
    team-to-city map ([concat_leagues_with_city.py]).

    Conventions of the embedding.
    - A pandas DataFrame is the list of its rows, each row a record.
    - A CSV field that is empty reads back as NaN; text fields use the empty
      string for it, numeric fields the constructor [Empty]. Where a script
      reads a file that another one wrote, the texts that [read_csv] takes
      for NaN ([Csv.STR_NA_VALUES]) read back as NaN too.
    - Python [str] values are [string]s whose characters are read as code
      points below 256. *)

From Stdlib Require Import ZArith String Ascii List Bool Lia Permutation.
From stdpp Require Import gmap strings list.

Local Open Scope string_scope.
Local Open Scope list_scope.
Local Open Scope Z_scope.

(* ===================================================================== *)
(** * Part I: definitions                                                  *)
(* ===================================================================== *)

(** ** Python string primitives used by the scripts *)
Module PyStr.

Definition chars (s : string) : list ascii := list_ascii_of_string s.
Definition str (l : list ascii) : string := string_of_list_ascii l.

(** [str.isspace] on code points below 256. *)
Definition is_space (c : ascii) : bool :=
  let n := nat_of_ascii c in
  ((9 <=? n)%nat && (n <=? 13)%nat) || ((28 <=? n)%nat && (n <=? 32)%nat)
  || (n =? 133)%nat || (n =? 160)%nat.

Fixpoint lstrip_l (l : list ascii) : list ascii :=
  match l with
  | [] => []
  | c :: t => if is_space c then lstrip_l t else l
  end.

Definition strip_l (l : list ascii) : list ascii :=
  rev (lstrip_l (rev (lstrip_l l))).

(** [s.strip()] *)
Definition strip (s : string) : string := str (strip_l (chars s)).

(** [str.lower] on code points below 256. *)
Definition lower_char (c : ascii) : ascii :=
  let n := nat_of_ascii c in
  if ((65 <=? n)%nat && (n <=? 90)%nat)
     || ((192 <=? n)%nat && (n <=? 222)%nat && negb (n =? 215)%nat)
  then ascii_of_nat (n + 32) else c.

Definition lower (s : string) : string := str (List.map lower_char (chars s)).

(** [s.replace(c, by)] for a one-character pattern [c]. *)
Definition replace_char (c : ascii) (by_ : string) (s : string) : string :=
  str (List.concat
         (List.map (fun x => if Ascii.eqb x c then chars by_ else [x]) (chars s))).

Fixpoint prefix_b (p l : list ascii) : bool :=
  match p, l with
  | [], _ => true
  | _ :: _, [] => false
  | a :: p', b :: l' => Ascii.eqb a b && prefix_b p' l'
  end.

(** [name.endswith(suf)] *)
Definition endswith (name suf : string) : bool :=
  prefix_b (rev (chars suf)) (rev (chars name)).

(** [name[:-k]] for a length [k] taken from a non-empty string. *)
Definition drop_last (k : nat) (name : string) : string :=
  str (take (List.length (chars name) - k)%nat (chars name)).

Fixpoint infix_b (p l : list ascii) : bool :=
  prefix_b p l || match l with [] => false | _ :: t => infix_b p t end.

(** [p in s] *)
Definition contains (p s : string) : bool := infix_b (chars p) (chars s).

Definition space : ascii := " "%char.

(** [name.rsplit(" ", 1)] when [" " in name]: the text before and after the
    last space; [None] when there is no space. *)
Fixpoint rsplit1_l (l : list ascii) : option (list ascii * list ascii) :=
  match l with
  | [] => None
  | c :: t =>
      match rsplit1_l t with
      | Some (a, b) => Some (c :: a, b)
      | None => if Ascii.eqb c space then Some ([], t) else None
      end
  end.

(** [s.split(" ")[0]] *)
Fixpoint until_space_l (l : list ascii) : list ascii :=
  match l with
  | [] => []
  | c :: t => if Ascii.eqb c space then [] else c :: until_space_l t
  end.

Definition first_field (s : string) : string := str (until_space_l (chars s)).

(** [s[:n]] *)
Definition take_str (n : nat) (s : string) : string := str (take n (chars s)).

Definition is_digit (c : ascii) : bool :=
  let n := nat_of_ascii c in (48 <=? n)%nat && (n <=? 57)%nat.

Definition digit_val (c : ascii) : Z := Z.of_nat (nat_of_ascii c) - 48.

(** Digits of a Python integer literal: single underscores are allowed
    between digits only. [prev] tells whether the previous character was a
    digit. *)
Fixpoint digits_l (l : list ascii) (prev : bool) (acc : Z) : option Z :=
  match l with
  | [] => if prev then Some acc else None
  | c :: t =>
      if is_digit c then digits_l t true (10 * acc + digit_val c)
      else if Ascii.eqb c "_"%char then
             if prev then
               match t with
               | d :: _ => if is_digit d then digits_l t false acc else None
               | [] => None
               end
             else None
           else None
  end.

(** [int(s)] for a string [s]; [None] when Python raises [ValueError]. *)
Definition int_of_str (s : string) : option Z :=
  match strip_l (chars s) with
  | c :: t =>
      if Ascii.eqb c "-"%char then Z.opp <$> digits_l t false 0
      else if Ascii.eqb c "+"%char then digits_l t false 0
      else digits_l (c :: t) false 0
  | [] => None
  end.

End PyStr.

(** ** Sorting a frame by a key order *)
Module Frame.

Section Sort.
Context {A : Type}.
Variable leb : A -> A -> bool.

Fixpoint insert_by (x : A) (l : list A) : list A :=
  match l with
  | [] => [x]
  | y :: t => if leb x y then x :: l else y :: insert_by x t
  end.

(** A stable sort by [leb]: [sort_values], [sort_index] and the ordering of
    group keys. *)
Definition sort_by (l : list A) : list A := List.fold_right insert_by [] l.
End Sort.

Definition sumZ (l : list Z) : Z := List.fold_right Z.add 0 l.

End Frame.

(** ** Calendar dates, as [pandas] timestamps at day resolution *)
Module Dates.

Record civil := mkDate { year : Z; month : Z; day : Z }.

(** Days since 1970-01-01 of a proleptic Gregorian date. *)
Definition days_from_civil (d : civil) : Z :=
  let y := if month d <=? 2 then year d - 1 else year d in
  let era := y / 400 in
  let yoe := y - era * 400 in
  let mp := if month d <=? 2 then month d + 9 else month d - 3 in
  let doy := (153 * mp + 2) / 5 + day d - 1 in
  let doe := yoe * 365 + yoe / 4 - yoe / 100 + doy in
  era * 146097 + doe - 719468.

Definition civil_from_days (n : Z) : civil :=
  let z := n + 719468 in
  let era := z / 146097 in
  let doe := z - era * 146097 in
  let yoe := (doe - doe / 1460 + doe / 36524 - doe / 146096) / 365 in
  let doy := doe - (365 * yoe + yoe / 4 - yoe / 100) in
  let mp := (5 * doy + 2) / 153 in
  let d := doy - (153 * mp + 2) / 5 + 1 in
  let m := if mp <? 10 then mp + 3 else mp - 9 in
  let y := yoe + era * 400 in
  mkDate (if m <=? 2 then y + 1 else y) m d.

(** Day of the week of a day number, Monday = 0 ... Sunday = 6
    (1970-01-01 was a Thursday). *)
Definition weekday_of_days (n : Z) : Z := (n + 3) mod 7.

Definition weekday (d : civil) : Z := weekday_of_days (days_from_civil d).

(** First day of the weekly period [W-MON] holding day [n]. pandas anchors
    a weekly period on its LAST day: a [W-MON] week ends on a Monday and so
    starts on the Tuesday before. *)
Definition w_mon_start_days (n : Z) : Z := n - (weekday_of_days n + 6) mod 7.

(** [ts.to_period("W-MON").start_time.date()] *)
Definition to_period_w_mon_start (d : civil) : civil :=
  civil_from_days (w_mon_start_days (days_from_civil d)).

(** [ts.to_period("M").start_time.date()] *)
Definition to_period_m_start (d : civil) : civil := mkDate (year d) (month d) 1.

(** What the specification asks of [week_start]: the Monday that starts the
    ISO week of the date. *)
Definition iso_monday_days (n : Z) : Z := n - weekday_of_days n.

Definition iso_week_monday (d : civil) : civil :=
  civil_from_days (iso_monday_days (days_from_civil d)).

Definition is_leap (y : Z) : bool :=
  ((y mod 4 =? 0) && negb (y mod 100 =? 0)) || (y mod 400 =? 0).

Definition days_in_month (y m : Z) : Z :=
  if m =? 2 then (if is_leap y then 29 else 28)
  else if (m =? 4) || (m =? 6) || (m =? 9) || (m =? 11) then 30 else 31.

Definition valid (d : civil) : bool :=
  (1 <=? month d) && (month d <=? 12) && (1 <=? day d)
  && (day d <=? days_in_month (year d) (month d)).

(** The value of a run of decimal digits; [None] on any other character. *)
Fixpoint number_l (l : list ascii) (acc : Z) : option Z :=
  match l with
  | [] => Some acc
  | c :: t => if PyStr.is_digit c then number_l t (10 * acc + PyStr.digit_val c)
              else None
  end.

(** A parser for the dates the loaders write, [YYYY-MM-DD]; [None] is
    [NaT]. It instantiates [pd.to_datetime(..., errors="coerce")] where a
    concrete parser is needed. *)
Definition iso_date (s : string) : option civil :=
  match PyStr.chars s with
  | [y1; y2; y3; y4; s1; m1; m2; s2; d1; d2] =>
      if Ascii.eqb s1 "-"%char && Ascii.eqb s2 "-"%char then
        match number_l [y1; y2; y3; y4] 0, number_l [m1; m2] 0, number_l [d1; d2] 0 with
        | Some y, Some m, Some d =>
            let c := mkDate y m d in if valid c then Some c else None
        | _, _, _ => None
        end
      else None
  | _ => None
  end.

End Dates.

(** ** The ledger builder: [compute_team_game_results.py] *)
Module Ledger.
Import PyStr.

(** A score cell of [games.csv] as pandas hands it to the loop: NaN (an
    empty field), a number (whose [int()] is [z]) or a string. *)
Inductive cell :=
| Empty
| Num (z : Z)
| Text (s : string).

(** A row of the canonical [Game] table. Text fields hold the empty string
    where the CSV field is empty. *)
Record Game := mkGame {
  game_id : string;
  date : string;
  league : string;
  season_type : string;
  home_team_id : string;
  away_team_id : string;
  home_score : cell;
  away_score : cell;
  winning_team_id : string
}.

(** A row of the ledger before the derived period columns are added. *)
Record TeamGameResult := mkResult {
  r_game_id : string;
  r_date : string;
  r_league : string;
  r_season_type : string;
  team_id : string;
  opponent_team_id : string;
  is_home : bool;
  team_score : option Z;
  opponent_score : option Z;
  result : string;
  index_score : Z;
  weighted_score : Z
}.

Definition default_weights : gmap string Z :=
  <["regular_season_win" := 1]>
    (<["regular_season_loss" := -1]>
       (<["playoff_win" := 3]> (<["playoff_loss" := -3]> ∅))).

(** [load_scoring_weights]: [cfg] is the parsed [config/scoring.json], or
    [None] when the file does not exist. *)
Definition load_scoring_weights (cfg : option (gmap string Z)) : gmap string Z :=
  match cfg with
  | None => default_weights
  | Some w => w
  end.

(** [str(g[col])] of a text field: an empty field is NaN and prints "nan". *)
Definition str_field (s : string) : string :=
  if String.eqb s "" then "nan" else s.

(** [int(c) if pd.notna(c) and str(c).strip() != "" else None]; the outer
    [None] stands for the exception. *)
Definition parse_score (c : cell) : option (option Z) :=
  match c with
  | Empty => Some None
  | Num z => Some (Some z)
  | Text s => if String.eqb (strip s) "" then Some None
              else match int_of_str s with
                   | Some z => Some (Some z)
                   | None => None
                   end
  end.

(** The [try]/[except] around both conversions. *)
Definition parse_scores (h a : cell) : option Z * option Z :=
  match parse_score h with
  | Some hs =>
      match parse_score a with
      | Some as_ => (hs, as_)
      | None => (None, None)
      end
  | None => (None, None)
  end.

Definition parse_winner (w : string) : option string :=
  if String.eqb w "" then None
  else if String.eqb (strip w) "" then None else Some w.

Definition result_of (winner team : string) : string :=
  if String.eqb winner team then "W" else "L".

Definition base_of (res : string) : Z :=
  if String.eqb res "W" then 1 else -1.

(** Base results of the home and away sides. *)
Definition base_results (home_id away_id : string)
           (hs as_ : option Z) (winner : option string)
  : (string * Z) * (string * Z) :=
  match hs, as_, winner with
  | Some _, Some _, Some w =>
      let home_result := result_of w home_id in
      let away_result := result_of w away_id in
      ((home_result, base_of home_result), (away_result, base_of away_result))
  | _, _, _ => (("", 0), ("", 0))
  end.

Definition win_key (season_type : string) : string :=
  if String.eqb season_type "playoff" then "playoff_win" else "regular_season_win".

Definition loss_key (season_type : string) : string :=
  if String.eqb season_type "playoff" then "playoff_loss" else "regular_season_loss".

(** [weights.get(key, default)] chosen by the base result. *)
Definition weight_of (weights : gmap string Z) (season_type : string) (base : Z) : Z :=
  if Z.eqb base 1 then default 1 (weights !! win_key season_type)
  else if Z.eqb base (-1) then default (-1) (weights !! loss_key season_type)
  else 0.

Definition weighted (weights : gmap string Z) (season_type : string) (base : Z) : Z :=
  base * Z.abs (weight_of weights season_type base).

(** The body of the loop over [games.iterrows()]: the two rows appended for
    one game, home perspective first. *)
Definition game_rows (weights : gmap string Z) (g : Game) : list TeamGameResult :=
  let date_str := take_str 10 (str_field (date g)) in
  let league_ := lower (str_field (league g)) in
  let season := lower (str_field (season_type g)) in
  let home_id := str_field (home_team_id g) in
  let away_id := str_field (away_team_id g) in
  let '(hs, as_) := parse_scores (home_score g) (away_score g) in
  let winner := parse_winner (winning_team_id g) in
  let '((home_result, base_home), (away_result, base_away)) :=
    base_results home_id away_id hs as_ winner in
  [ mkResult (game_id g) date_str league_ season home_id away_id true
             hs as_ home_result base_home (weighted weights season base_home);
    mkResult (game_id g) date_str league_ season away_id home_id false
             as_ hs away_result base_away (weighted weights season base_away) ].

(** All rows, in the order they are appended. *)
Definition ledger_rows (weights : gmap string Z) (games : list Game)
  : list TeamGameResult :=
  List.concat (List.map (game_rows weights) games).

(** *** Derived period columns and the finished ledger *)

(** A ledger row with its derived columns; [None] is [NaT]. *)
Record LedgerRow := mkLedgerRow {
  row : TeamGameResult;
  week_start : option Dates.civil;
  month_start : option Dates.civil
}.

(** [sort_values] puts NaN (the empty field) last. *)
Definition na_last_compare (a b : string) : comparison :=
  if String.eqb a "" then (if String.eqb b "" then Eq else Gt)
  else if String.eqb b "" then Lt else String.compare a b.

(** Lexicographic order on [(date, league, game_id, team_id)]. The first
    two and the last are texts made with [str]; [game_id] is the cell of
    [games.csv] as it is, compared as text, a missing one last. *)
Definition key_leb (a b : LedgerRow) : bool :=
  let cmp4 :=
    match String.compare (r_date (row a)) (r_date (row b)) with
    | Eq => match String.compare (r_league (row a)) (r_league (row b)) with
            | Eq => match na_last_compare (r_game_id (row a)) (r_game_id (row b)) with
                    | Eq => String.compare (team_id (row a)) (team_id (row b))
                    | c => c
                    end
            | c => c
            end
    | c => c
    end in
  match cmp4 with
  | Gt => false
  | _ => true
  end.

(** [master.sort_values(["date", "league", "game_id", "team_id"])] *)
Definition sort_values (l : list LedgerRow) : list LedgerRow :=
  Frame.sort_by key_leb l.

Section Master.
(** [pd.to_datetime(s, errors="coerce")] at day resolution. *)
Variable to_datetime : string -> option Dates.civil.

Definition derive (r : TeamGameResult) : LedgerRow :=
  let date_ts := to_datetime (r_date r) in
  mkLedgerRow r (Dates.to_period_w_mon_start <$> date_ts)
              (Dates.to_period_m_start <$> date_ts).

(** [compute_master]: [games_file] is the content of
    [processed/games.csv], [None] when the file does not exist; [cfg] is
    the parsed scoring configuration. Rows are typed, so the check for
    missing columns has nothing to reject. *)
Definition compute_master (cfg : option (gmap string Z))
           (games_file : option (list Game)) : list LedgerRow :=
  let games := default [] games_file in
  match games with
  | [] => []
  | _ :: _ =>
      let weights := load_scoring_weights cfg in
      sort_values (List.map derive (ledger_rows weights games))
  end.
End Master.

(** *** Notions used to state the properties *)

(** The game is decisive for the scorer: both scores parsed and a winner
    given. *)
Definition decisive (g : Game) : bool :=
  match parse_scores (home_score g) (away_score g),
        parse_winner (winning_team_id g) with
  | (Some _, Some _), Some _ => true
  | _, _ => false
  end.

(** The configuration key the specification names for a season type and an
    outcome. *)
Definition spec_key (playoff win : bool) : string :=
  match playoff, win with
  | false, true => "regular_season_win"
  | false, false => "regular_season_loss"
  | true, true => "playoff_win"
  | true, false => "playoff_loss"
  end.

Definition is_playoff (season : string) : bool := String.eqb season "playoff".

(** Weights are symmetric for a season type when the win and the loss
    weight have the same magnitude. *)
Definition symmetric (weights : gmap string Z) (season : string) : Prop :=
  Z.abs (default 1 (weights !! win_key season))
  = Z.abs (default (-1) (weights !! loss_key season)).

(** A game whose recorded winner is neither of its two teams. *)
Definition stray_winner_game : Game :=
  mkGame "nhl_2023-03-01_vegas_toronto" "2023-03-01" "nhl" "regular"
         "nhl_toronto" "nhl_vegas" (Num 2) (Num 4) "nhl_boston".

(** The scenario game of the specification, as the NHL loader stores it. *)
Definition vegas_toronto_game : Game :=
  mkGame "nhl_2023-03-01_vegas-golden-knights_toronto-maple-leafs" "2023-03-01"
         "nhl" "regular" "nhl_toronto-maple-leafs" "nhl_vegas-golden-knights"
         (Num 2) (Num 4) "nhl_vegas-golden-knights".

End Ledger.

(** ** Canonical tables and the ingestion merge shared by the loaders *)
Module Tables.
Import PyStr Ledger.

Record City := mkCity {
  c_city_id : string;
  c_city_name : string;
  c_state : string;
  c_country : string;
  c_slug : string
}.

Record Team := mkTeam {
  t_team_id : string;
  t_team_name : string;
  t_league : string;
  t_city_id : string;
  t_city_name : string;
  t_start_date : string;
  t_end_date : string;
  t_alt_names : string
}.

(** The persisted canonical tables under [data/processed]; [None] is a file
    that does not exist. *)
Record Processed := mkProcessed {
  cities_csv : option (list City);
  teams_csv : option (list Team);
  games_csv : option (list Game)
}.

(** [safe_read_csv]: a missing file reads as the empty frame. *)
Definition safe_read_csv {A : Type} (file : option (list A)) : list A :=
  default [] file.

(** [set(frame[col].astype(str).tolist())] *)
Definition id_set (ids : list string) : gset string :=
  list_to_set (List.map str_field ids).

(** [frame.drop_duplicates(subset=["game_id"], keep="first")]; [seen] holds
    the ids met so far. *)
Fixpoint drop_duplicates_from (seen : gset string) (l : list Game) : list Game :=
  match l with
  | [] => []
  | g :: t =>
      if decide (game_id g ∈ seen) then drop_duplicates_from seen t
      else g :: drop_duplicates_from ({[game_id g]} ∪ seen) t
  end.

Definition drop_duplicates (l : list Game) : list Game :=
  drop_duplicates_from ∅ l.

(** The merge of the new game rows into [processed_games] that closes
    every historical loader. *)
Definition merge_games (processed_games new_game_rows : list Game) : list Game :=
  match new_game_rows with
  | [] => processed_games
  | _ :: _ =>
      match processed_games with
      | _ :: _ => drop_duplicates (processed_games ++ new_game_rows)
      | [] => new_game_rows
      end
  end.

End Tables.

(** ** The NHL loader: [load_historical_nhl.py] *)
Module Nhl.
Import PyStr Ledger Tables.

Definition MULTIWORD_NICKNAMES : list string :=
  ["Maple Leafs"; "Blue Jackets"; "Golden Knights"; "Red Wings"].

(** [text.strip().lower().replace(" ", "-").replace(".", "").replace("/", "-")] *)
Definition slugify (text : string) : string :=
  replace_char "/"%char "-"
    (replace_char "."%char "" (replace_char " "%char "-" (lower (strip text)))).

(** [split_city_team], with the nickname set as a parameter as in
    [concat_leagues_with_city.py]; the set is walked in list order. *)
Definition split_city_team_with (nicknames : list string) (full_name : string)
  : string * string :=
  let name := strip full_name in
  if String.eqb name "" then ("", "")
  else
    match List.find (endswith name) nicknames with
    | Some nick =>
        let city := strip (drop_last (String.length nick) name) in
        let city := if endswith city " " then drop_last 1 city else city in
        (city, nick)
    | None =>
        match rsplit1_l (chars name) with
        | Some (a, b) => (str a, str b)
        | None => (name, "")
        end
    end.

Definition split_city_team : string -> string * string :=
  split_city_team_with MULTIWORD_NICKNAMES.

(** A row of [nhl_season_games_2018_2025.csv]. *)
Record RawGame := mkRaw {
  Date : string;
  Away : string;
  AwayGoals : cell;
  Home : string;
  HomeGoals : cell;
  Type_ : string
}.

(** State of the loop over the raw rows. *)
Record LoopState := mkLoop {
  existing_city_ids : gset string;
  existing_team_ids : gset string;
  new_city_rows : list City;
  new_team_rows : list Team;
  new_game_rows : list Game
}.

Section Loader.
(** [int(float(s))] of a string cell; [None] when Python raises. *)
Variable int_float : string -> option Z.

Definition parse_goal (c : cell) : option (option Z) :=
  match c with
  | Empty => Some None
  | Num z => Some (Some z)
  | Text s => match int_float s with
              | Some z => Some (Some z)
              | None => None
              end
  end.

(** The [try]/[except] around both conversions, away side first. *)
Definition parse_goals (away_goals home_goals : cell) : option Z * option Z :=
  match parse_goal away_goals with
  | Some a =>
      match parse_goal home_goals with
      | Some h => (a, h)
      | None => (None, None)
      end
  | None => (None, None)
  end.

Definition ensure_city (city city_id : string) (st : gset string * list City)
  : gset string * list City :=
  if negb (String.eqb city "") && negb (bool_decide (city_id ∈ st.1)) then
    ({[city_id]} ∪ st.1, st.2 ++ [mkCity city_id city "" "USA" city_id])
  else st.

Definition ensure_team (team_id full city_id city nick : string)
           (st : gset string * list Team) : gset string * list Team :=
  if negb (bool_decide (team_id ∈ st.1)) then
    ({[team_id]} ∪ st.1,
     st.2 ++ [mkTeam team_id full "nhl" city_id city "" "" nick])
  else st.

Definition score_cell (goals : option Z) : cell :=
  match goals with
  | Some z => Num z
  | None => Empty
  end.

Definition away_full (r : RawGame) : string := strip (str_field (Away r)).
Definition home_full (r : RawGame) : string := strip (str_field (Home r)).
Definition away_team_id_of (r : RawGame) : string := "nhl_" +:+ slugify (away_full r).
Definition home_team_id_of (r : RawGame) : string := "nhl_" +:+ slugify (home_full r).

(** "Ensure cities": the away side first, then the home side. *)
Definition ensure_cities (r : RawGame) (st : gset string * list City)
  : gset string * list City :=
  let away_city := (split_city_team (away_full r)).1 in
  let home_city := (split_city_team (home_full r)).1 in
  ensure_city home_city (slugify home_city)
    (ensure_city away_city (slugify away_city) st).

(** "Ensure teams": the away side first, then the home side. *)
Definition ensure_teams (r : RawGame) (st : gset string * list Team)
  : gset string * list Team :=
  let '(away_city, away_nick) := split_city_team (away_full r) in
  let '(home_city, home_nick) := split_city_team (home_full r) in
  ensure_team (home_team_id_of r) (home_full r) (slugify home_city) home_city home_nick
    (ensure_team (away_team_id_of r) (away_full r) (slugify away_city) away_city
                 away_nick st).

(** The row appended to [new_game_rows]. *)
Definition game_row (r : RawGame) : Game :=
  let date := first_field (strip (str_field (Date r))) in
  let game_type := strip (str_field (Type_ r)) in
  let season_type :=
    if contains "playoff" (lower game_type) then "playoff" else "regular" in
  let '(a_goals, h_goals) := parse_goals (AwayGoals r) (HomeGoals r) in
  let winning_team_id :=
    match a_goals, h_goals with
    | Some a, Some h =>
        if h <? a then away_team_id_of r
        else if a <? h then home_team_id_of r
        else ""
    | _, _ => ""
    end in
  let game_id :=
    "nhl_" +:+ date +:+ "_" +:+ slugify (away_full r) +:+ "_"
    +:+ slugify (home_full r) in
  mkGame game_id date "nhl" season_type (home_team_id_of r) (away_team_id_of r)
         (score_cell h_goals) (score_cell a_goals) winning_team_id.

(** One turn of the loop over [games_in.iterrows()]. *)
Definition step (st : LoopState) (r : RawGame) : LoopState :=
  let cities := ensure_cities r (existing_city_ids st, new_city_rows st) in
  let teams := ensure_teams r (existing_team_ids st, new_team_rows st) in
  mkLoop cities.1 teams.1 cities.2 teams.2 (new_game_rows st ++ [game_row r]).

(** [load_nhl]: [raw] is the raw games file ([None] when missing), [p]
    the persisted tables as [safe_read_csv] reads them at the start of the
    run; the result is the frames that the run hands to [to_csv]. *)
Definition load_nhl (raw : option (list RawGame)) (p : Processed) : Processed :=
  match safe_read_csv raw with
  | [] => p
  | games_in =>
      let processed_teams := safe_read_csv (teams_csv p) in
      let processed_cities := safe_read_csv (cities_csv p) in
      let processed_games := safe_read_csv (games_csv p) in
      let st0 :=
        mkLoop (id_set (List.map c_city_id processed_cities))
               (id_set (List.map t_team_id processed_teams)) [] [] [] in
      let st := List.fold_left step games_in st0 in
      mkProcessed (Some (processed_cities ++ new_city_rows st))
                  (Some (processed_teams ++ new_team_rows st))
                  (Some (merge_games processed_games (new_game_rows st)))
  end.
End Loader.

(** The raw row of the specification's scenario. *)
Definition vegas_toronto_raw : RawGame :=
  mkRaw "2023-03-01" "Vegas Golden Knights" (Num 4)
        "Toronto Maple Leafs" (Num 2) "Regular Season".

Definition no_files : Processed := mkProcessed None None None.

(** The ids that the loop would look up for row [r] are all in [ids]. *)
Definition cities_covered (r : RawGame) (ids : gset string) : Prop :=
  let away_city := (split_city_team (away_full r)).1 in
  let home_city := (split_city_team (home_full r)).1 in
  (away_city = "" \/ slugify away_city ∈ ids)
  /\ (home_city = "" \/ slugify home_city ∈ ids).

Definition teams_covered (r : RawGame) (ids : gset string) : Prop :=
  away_team_id_of r ∈ ids /\ home_team_id_of r ∈ ids.

(** The raw file of the failing re-ingestion: the same game listed twice. *)
Definition duplicated_raw : option (list RawGame) :=
  Some [vegas_toronto_raw; vegas_toronto_raw].

(** The nickname set of the NFL in [concat_leagues_with_city.py]. *)
Definition MULTIWORD_NICKNAMES_NFL : list string :=
  ["Football Team"; "Commanders"; "49ers"].

(** No nickname of the list is a proper suffix of another one: at most one
    of them can end a given name, so the order in which the set is walked
    does not matter and a match is the longest match. *)
Definition suffix_free (nicknames : list string) : bool :=
  forallb (fun a =>
             forallb (fun b => String.eqb a b
                               || negb (prefix_b (rev (chars a)) (rev (chars b))))
                     nicknames)
          nicknames.

End Nhl.

(** ** The NBA loader: [load_historical_nba.py], from the merged frame on *)
Module Nba.
Import PyStr Ledger Tables.

(** A row of the frame [games] that the loader assembles from the per-team
    rows: one row per [GAME_ID] with both sides, the date and the winner's
    abbreviation ([None] is NaN: no "W" row for the game). The two sides are
    the strings that the vote over the parsed [MATCHUP] cells returns; they
    are empty when the cells have no separator. *)
Record MergedGame := mkMerged {
  GAME_ID : string;
  home_abbrev : string;
  away_abbrev : string;
  winner_abbrev : option string;
  GAME_DATE : string
}.

(** [abbrev_to_team_id.get(abbrev, f"nba_{abbrev}")] *)
Definition team_id_of (abbrev_to_team_id : gmap string string) (abbrev : string)
  : string :=
  default ("nba_" +:+ abbrev) (abbrev_to_team_id !! abbrev).

(** The row appended to [new_games] for one row of [games]. *)
Definition new_game (abbrev_to_team_id : gmap string string) (g : MergedGame)
  : Game :=
  let game_id := strip (str_field (GAME_ID g)) in
  let date := first_field (str_field (GAME_DATE g)) in
  let home := strip (home_abbrev g) in
  let away := strip (away_abbrev g) in
  let winner := match winner_abbrev g with
                | Some w => strip w
                | None => ""
                end in
  let home_team_id := team_id_of abbrev_to_team_id home in
  let away_team_id := team_id_of abbrev_to_team_id away in
  let winning_team_id :=
    if String.eqb winner "" then "" else team_id_of abbrev_to_team_id winner in
  mkGame ("nba_" +:+ game_id) date "nba" "regular" home_team_id away_team_id
         Empty Empty winning_team_id.

Definition new_games (abbrev_to_team_id : gmap string string)
           (games : list MergedGame) : list Game :=
  List.map (new_game abbrev_to_team_id) games.

Definition denver_lakers : MergedGame :=
  mkMerged "22300001" "DEN" "LAL" (Some "DEN") "2023-10-24".

End Nba.

(** ** Text fields through [pd.read_csv] *)
Module Csv.
Import PyStr.

(** The texts that [pd.read_csv] reads as NaN when no [na_values] are
    given. *)
Definition STR_NA_VALUES : list string :=
  [""; "#N/A"; "#N/A N/A"; "#NA"; "-1.#IND"; "-1.#QNAN"; "-NaN"; "-nan";
   "1.#IND"; "1.#QNAN"; "<NA>"; "N/A"; "NA"; "NULL"; "NaN"; "None"; "n/a";
   "nan"; "null"].

Definition is_na (s : string) : bool := existsb (String.eqb s) STR_NA_VALUES.

(** A text field as it is read back from a file: NaN is the empty string. *)
Definition read_text (s : string) : string := if is_na s then "" else s.

(** [read_csv] chooses the type of a column from all of its fields: a
    column in which every field that is not NaN is a number, or every field
    a boolean, is read as numbers or booleans; any other column is a column
    of texts, each field read as it is written ([read_text]). A field that
    begins with a letter is a text, unless it is read as NaN or spells an
    infinity or a boolean. *)
Definition is_letter (c : ascii) : bool :=
  let n := nat_of_ascii c in
  ((65 <=? n)%nat && (n <=? 90)%nat) || ((97 <=? n)%nat && (n <=? 122)%nat).

Definition text_field (s : string) : bool :=
  match s with
  | EmptyString => false
  | String c _ =>
      is_letter c && negb (is_na s)
      && negb (existsb (String.eqb (lower s)) ["inf"; "infinity"; "true"; "false"])
  end.

(** A column that holds such a field is read as texts. *)
Definition text_column (fields : list string) : bool := existsb text_field fields.

End Csv.

(** ** Weekly and monthly rollups: [rollups.py] *)
Module Rollups.
Import PyStr Ledger Tables Csv.

#[global] Instance civil_eq_dec : EqDecision Dates.civil.
Proof. solve_decision. Defined.

(** A period column as it is printed: a date, or "NaT" ([None]). *)
Definition period : Type := option Dates.civil.

Definition civil_leb (a b : Dates.civil) : bool :=
  match Dates.year a ?= Dates.year b with
  | Lt => true
  | Gt => false
  | Eq => match Dates.month a ?= Dates.month b with
          | Lt => true
          | Gt => false
          | Eq => Dates.day a <=? Dates.day b
          end
  end.

(** Order of the printed labels: dates in calendar order, "NaT" last. *)
Definition period_leb (a b : period) : bool :=
  match a, b with
  | Some x, Some y => civil_leb x y
  | Some _, None => true
  | None, Some _ => false
  | None, None => true
  end.

Definition key2_leb (a b : string * period) : bool :=
  match String.compare a.1 b.1 with
  | Lt => true
  | Gt => false
  | Eq => period_leb a.2 b.2
  end.

Definition key3_leb (a b : string * string * period) : bool :=
  match String.compare a.1.1 b.1.1 with
  | Lt => true
  | Gt => false
  | Eq => key2_leb (a.1.2, a.2) (b.1.2, b.2)
  end.

(** A row of a rollup table. *)
Record Rollup (K : Type) := mkRollup {
  key : K;
  index_score_sum : Z;
  weighted_score_sum : Z;
  games : Z
}.
Arguments mkRollup {K}.
Arguments key {K}.
Arguments index_score_sum {K}.
Arguments weighted_score_sum {K}.
Arguments games {K}.

Abbreviation sumZ := Frame.sumZ.

(** [df.groupby(keys, as_index=False).agg(index_score_sum=("index_score",
    "sum"), weighted_score_sum=("weighted_score", "sum"),
    games=("index_score", "count"))]: one row per distinct key, keys in
    sorted order. A row that has NaN in a key column has no key ([None])
    and is in no group. *)
Section GroupBy.
Context {K : Type} `{EqDecision K}.
Variable leb : K -> K -> bool.
Variable key_of : LedgerRow -> option K.

Definition group_keys (df : list LedgerRow) : list K :=
  Frame.sort_by leb (remove_dups (omap key_of df)).

Definition group (k : K) (df : list LedgerRow) : list LedgerRow :=
  List.filter (fun lr => bool_decide (key_of lr = Some k)) df.

Definition agg (k : K) (rows : list LedgerRow) : Rollup K :=
  mkRollup k (sumZ (List.map (fun lr => index_score (row lr)) rows))
           (sumZ (List.map (fun lr => weighted_score (row lr)) rows))
           (Z.of_nat (List.length rows)).

Definition groupby_agg (df : list LedgerRow) : list (Rollup K) :=
  List.map (fun k => agg k (group k df)) (group_keys df).
End GroupBy.

(** The ledger is read from [team_game_results.csv]: the [league] and
    [team_id] of a row are what [read_csv] makes of the written texts, NaN
    being the empty string. The identifier columns ([league], [team_id],
    [city_id]) are read as columns of texts ([Csv.text_column]). *)
Definition league_read (lr : LedgerRow) : string := read_text (r_league (row lr)).
Definition team_id_read (lr : LedgerRow) : string := read_text (team_id (row lr)).

(** The key columns [league], [team_id] and a period column of a row. *)
Definition team_key (p : LedgerRow -> period) (lr : LedgerRow)
  : option (string * string * period) :=
  if String.eqb (league_read lr) "" then None
  else if String.eqb (team_id_read lr) "" then None
  else Some (league_read lr, team_id_read lr, p lr).

(** [teams.set_index("team_id")["city_id"].to_dict()] on [teams.csv] as it
    is read: a later row replaces an earlier one with the same [team_id]. *)
Definition team_to_city (teams : list Team) : gmap string string :=
  List.fold_left
    (fun m t => <[read_text (t_team_id t) := read_text (t_city_id t)]> m) teams ∅.

(** [df["team_id"].map(team_to_city)]; [None] is NaN: the team is unknown
    or its [city_id] field is read as NaN. *)
Definition city_id_of (teams : list Team) (lr : LedgerRow) : option string :=
  match team_to_city teams !! team_id_read lr with
  | Some c => if String.eqb c "" then None else Some c
  | None => None
  end.

(** [df.dropna(subset=["city_id"])] *)
Definition dropna_city (teams : list Team) (df : list LedgerRow) : list LedgerRow :=
  List.filter (fun lr => bool_decide (is_Some (city_id_of teams lr))) df.

(** The key columns [city_id] and a period column of a row. *)
Definition city_key (teams : list Team) (p : LedgerRow -> period) (lr : LedgerRow)
  : option (string * period) :=
  (fun c => (c, p lr)) <$> city_id_of teams lr.

(** The four files written under [data/outputs]. *)
Record Outputs := mkOutputs {
  team_rollup_weekly : list (Rollup (string * string * period));
  team_rollup_monthly : list (Rollup (string * string * period));
  city_rollup_weekly : list (Rollup (string * period));
  city_rollup_monthly : list (Rollup (string * period))
}.

(** [compute_rollups]: [master_file] and [teams_file] hold the rows of
    [team_game_results.csv] and [teams.csv] as they were written; [None] is
    the result when the function prints "No rollups computed" and returns
    without writing. *)
Definition compute_rollups (master_file : option (list LedgerRow))
           (teams_file : option (list Team)) : option Outputs :=
  let master := safe_read_csv master_file in
  let teams := safe_read_csv teams_file in
  match master, teams with
  | [], _ => None
  | _, [] => None
  | _ :: _, _ :: _ =>
      let df := dropna_city teams master in
      Some (mkOutputs (groupby_agg key3_leb (team_key week_start) master)
                      (groupby_agg key3_leb (team_key month_start) master)
                      (groupby_agg key2_leb (city_key teams week_start) df)
                      (groupby_agg key2_leb (city_key teams month_start) df))
  end.

(** *** Notions used to state the properties *)

(** The [city_id] that [teams.csv], as it is read, gives for a team id: the
    one of the last row with that [team_id]. *)
Fixpoint last_city (teams : list Team) (tid : string) : option string :=
  match teams with
  | [] => None
  | t :: rest =>
      match last_city rest tid with
      | Some c => Some c
      | None => if String.eqb (read_text (t_team_id t)) tid
                then Some (read_text (t_city_id t)) else None
      end
  end.

(** The key of a ledger row in a team rollup: its league and team id as
    they are read, with the period; none when one of the two is read as
    NaN. *)
Definition team_key_opt (p : LedgerRow -> period) (lr : LedgerRow)
  : option (string * string * period) :=
  let league := read_text (r_league (row lr)) in
  let team := read_text (team_id (row lr)) in
  if String.eqb league "" || String.eqb team "" then None
  else Some (league, team, p lr).

(** The key of a ledger row in a city rollup: the city of its team with the
    period; none when [teams.csv] has no city for the team. *)
Definition city_key_opt (teams : list Team) (p : LedgerRow -> period)
           (lr : LedgerRow) : option (string * period) :=
  match last_city teams (read_text (team_id (row lr))) with
  | Some c => if String.eqb c "" then None else Some (c, p lr)
  | None => None
  end.

(** The ledger rows that carry the key [k]. *)
Definition rows_with {K : Type} `{EqDecision K}
           (key_of : LedgerRow -> option K) (k : K) (master : list LedgerRow)
  : list LedgerRow :=
  List.filter (fun lr => bool_decide (key_of lr = Some k)) master.

(** [out] is the exact rollup of [master] under [key_of]: one row per key,
    each with the sums and the count of the ledger rows of its key, every
    keyed ledger row in a group, and totals that match. *)
Definition exact_rollup {K : Type} `{EqDecision K}
           (key_of : LedgerRow -> option K) (master : list LedgerRow)
           (out : list (Rollup K)) : Prop :=
  NoDup (List.map key out)
  /\ (forall ru, In ru out ->
        let rows := rows_with key_of (key ru) master in
        rows <> []
        /\ index_score_sum ru = sumZ (List.map (fun lr => index_score (row lr)) rows)
        /\ weighted_score_sum ru
           = sumZ (List.map (fun lr => weighted_score (row lr)) rows)
        /\ games ru = Z.of_nat (List.length rows))
  /\ (forall lr k, In lr master -> key_of lr = Some k -> In k (List.map key out))
  /\ (let keyed := List.filter (fun lr => bool_decide (is_Some (key_of lr))) master in
      sumZ (List.map index_score_sum out)
      = sumZ (List.map (fun lr => index_score (row lr)) keyed)
      /\ sumZ (List.map weighted_score_sum out)
         = sumZ (List.map (fun lr => weighted_score (row lr)) keyed)
      /\ sumZ (List.map games out) = Z.of_nat (List.length keyed)).

(** The two ledger rows of the scenario game, and a [teams.csv] in which
    only the Vegas team has a city. *)
Definition sample_ledger : list LedgerRow :=
  [mkLedgerRow
     (mkResult "nhl_2023-03-01_vegas-golden-knights_toronto-maple-leafs"
               "2023-03-01" "nhl" "regular" "nhl_toronto-maple-leafs"
               "nhl_vegas-golden-knights" true (Some 2) (Some 4) "L" (-1) (-1))
     (Some (Dates.mkDate 2023 2 28)) (Some (Dates.mkDate 2023 3 1));
   mkLedgerRow
     (mkResult "nhl_2023-03-01_vegas-golden-knights_toronto-maple-leafs"
               "2023-03-01" "nhl" "regular" "nhl_vegas-golden-knights"
               "nhl_toronto-maple-leafs" false (Some 4) (Some 2) "W" 1 1)
     (Some (Dates.mkDate 2023 2 28)) (Some (Dates.mkDate 2023 3 1))].

Definition sample_teams : list Team :=
  [mkTeam "nhl_vegas-golden-knights" "Vegas Golden Knights" "nhl" "vegas" "Vegas"
          "" "" "Golden Knights";
   mkTeam "nhl_toronto-maple-leafs" "Toronto Maple Leafs" "nhl" "" ""
          "" "" "Maple Leafs"].

(** A game whose [league] field is empty in [games.csv]. *)
Definition no_league_game : Game :=
  mkGame "2023-03-02_boston_calgary" "2023-03-02" "" "regular"
         "nhl_calgary-flames" "nhl_boston-bruins" (Num 3) (Num 1)
         "nhl_calgary-flames".

Definition sample_outputs : Outputs :=
  Eval vm_compute in
    default (mkOutputs [] [] [] [])
            (compute_rollups (Some sample_ledger) (Some sample_teams)).

End Rollups.

(** ** The daily 7-day city aggregation: [build_city_daily_agg.py] *)
Module CityDaily.
Import PyStr Frame.

(** A row of [all_long.csv]: the columns the script reads. An empty [City]
    field is NaN; [index_score] is a number or NaN ([None]). *)
Record LongRow := mkLong {
  date : string;
  City : string;
  index_score : option Z
}.

(** A row once its date is parsed, the date as a day number (days since
    1970-01-01). *)
Record Parsed := mkParsed {
  p_day : Z;
  p_city : string;
  p_score : option Z
}.

(** A row of [daily], and of a city's frame after the reindex. *)
Record Daily := mkDaily {
  d_city : string;
  d_day : Z;
  index_sum : Z;
  games : Z
}.

(** A row of [city_daily_7d.csv]; [o_day] is printed as
    [Dates.civil_from_days o_day]. *)
Record Out := mkOut {
  o_day : Z;
  o_city : string;
  o_index_sum : Z;
  o_games : Z;
  index_sum_7d : Z;
  games_7d : Z
}.

(** [pd.Timestamp("2022-01-01")] *)
Definition cutoff : Z := Dates.days_from_civil (Dates.mkDate 2022 1 1).

Definition score0 (x : option Z) : Z := default 0 x.
Definition counted (x : option Z) : Z := if x then 1 else 0.

Definition key_leb (a b : string * Z) : bool :=
  match String.compare a.1 b.1 with
  | Lt => true
  | Gt => false
  | Eq => a.2 <=? b.2
  end.

Definition city_leb (a b : string) : bool :=
  match String.compare a b with
  | Gt => false
  | _ => true
  end.

Definition in_group (k : string * Z) (r : Parsed) : bool :=
  String.eqb (p_city r) k.1 && (p_day r =? k.2).

(** [df.groupby(["City", "date"], as_index=False).agg(index_sum=("index_score",
    "sum"), games=("index_score", "count"))]: NaN scores are skipped by both
    aggregations. *)
Definition daily_agg (df : list Parsed) : list Daily :=
  List.map (fun k =>
              let rows := List.filter (in_group k) df in
              mkDaily k.1 k.2 (sumZ (List.map (fun r => score0 (p_score r)) rows))
                      (sumZ (List.map (fun r => counted (p_score r)) rows)))
           (sort_by key_leb (remove_dups (List.map (fun r => (p_city r, p_day r)) df))).

(** [pd.date_range(lo, hi, freq="D")] *)
Definition date_range (lo hi : Z) : list Z :=
  List.map (fun i => lo + Z.of_nat i) (seq 0 (Z.to_nat (hi - lo + 1))).

(** [g.reindex(full_range, fill_value=0)] at one day of the range. *)
Definition reindex_row (city : string) (g : list Daily) (n : Z) : Daily :=
  match List.find (fun r => d_day r =? n) g with
  | Some r => mkDaily city n (index_sum r) (games r)
  | None => mkDaily city n 0 0
  end.

(** [rolling(window=7, min_periods=1).sum()] of both columns, walking down
    the frame; [seen] holds the rows above, nearest first. *)
Fixpoint rolling_rows (seen rest : list Daily) : list Out :=
  match rest with
  | [] => []
  | d :: t =>
      let window := take 7 (d :: seen) in
      mkOut (d_day d) (d_city d) (index_sum d) (games d)
            (sumZ (List.map index_sum window)) (sumZ (List.map games window))
      :: rolling_rows (d :: seen) t
  end.

(** The body of the loop over [daily.groupby("City")]. *)
Definition city_frame (city : string) (daily : list Daily) : list Out :=
  let g := sort_by (fun a b => d_day a <=? d_day b)
                   (List.filter (fun r => String.eqb (d_city r) city) daily) in
  match List.map d_day g with
  | [] => []
  | d0 :: ds =>
      let lo := List.fold_left Z.min ds d0 in
      let hi := List.fold_left Z.max ds d0 in
      rolling_rows [] (List.map (reindex_row city g) (date_range lo hi))
  end.

Definition out_leb (a b : Out) : bool := key_leb (o_city a, o_day a) (o_city b, o_day b).

(** How [main] ends: it raises, or it writes a frame and returns. *)
Inductive exn :=
| FileNotFoundError
| AttributeError.

Inductive outcome :=
| Raised (e : exn)
| Returned (out : list Out).

Section Main.
(** [pd.to_datetime(s, errors="coerce")] at day resolution. *)
Variable to_datetime : string -> option Dates.civil.

(** [to_datetime], [dropna(subset=["date", "City"])] and the cutoff. *)
Definition parse_row (r : LongRow) : option Parsed :=
  match to_datetime (date r) with
  | Some c => if String.eqb (City r) "" then None
              else Some (mkParsed (Dates.days_from_civil c) (City r) (index_score r))
  | None => None
  end.

Definition kept (rows : list LongRow) : list Parsed :=
  List.filter (fun r => cutoff <=? p_day r) (omap parse_row rows).

(** The frame written to [city_daily_7d.csv]. *)
Definition city_daily_7d (rows : list LongRow) : list Out :=
  let daily := daily_agg (kept rows) in
  let cities := sort_by city_leb (remove_dups (List.map d_city daily)) in
  sort_by out_leb (List.concat (List.map (fun c => city_frame c daily) cities)).

(** [main]: a missing [all_long.csv] raises [FileNotFoundError]. When no
    row survives the filters, [out_frames] is empty, [result] is the frame
    built from the column names alone and [result["date"].dt] raises
    [AttributeError] before anything is written. *)
Definition main (all_long : option (list LongRow)) : outcome :=
  match all_long with
  | None => Raised FileNotFoundError
  | Some rows =>
      match kept rows with
      | [] => Raised AttributeError
      | _ :: _ => Returned (city_daily_7d rows)
      end
  end.
End Main.

(** *** Notions used to state the properties *)

(** Sum and count of the scores of city [c] on day [n] among the kept rows:
    0 on a day without games. *)
Definition day_sum (df : list Parsed) (c : string) (n : Z) : Z :=
  sumZ (List.map (fun r => score0 (p_score r)) (List.filter (in_group (c, n)) df)).

Definition day_games (df : list Parsed) (c : string) (n : Z) : Z :=
  sumZ (List.map (fun r => counted (p_score r)) (List.filter (in_group (c, n)) df)).

(** [lo] and [hi] bound the days on which city [c] has kept rows, and are
    attained. *)
Definition spans (df : list Parsed) (c : string) (lo hi : Z) : Prop :=
  (exists r, In r df /\ p_city r = c /\ p_day r = lo)
  /\ (exists r, In r df /\ p_city r = c /\ p_day r = hi)
  /\ (forall r, In r df -> p_city r = c -> lo <= p_day r <= hi).

(** The output row for city [c] on day [n] when the city's first kept day
    is [lo]: the day's own sum and count, and the sums over the calendar
    days from [max lo (n - 6)] to [n]. *)
Definition expected_row (df : list Parsed) (c : string) (lo n : Z) : Out :=
  let days := date_range (Z.max lo (n - 6)) n in
  mkOut n c (day_sum df c n) (day_games df c n)
        (sumZ (List.map (day_sum df c) days))
        (sumZ (List.map (day_games df c) days)).




End CityDaily.

(** ** The stages as file-to-file steps *)
Module Stages.
Import Ledger Tables.

(** The files the stages read and write; [None] is a file that does not
    exist. The four rollup tables are written by one run and kept together. *)
Record Files := mkFiles {
  scoring_json : option (gmap string Z);
  processed : Processed;
  team_game_results_csv : option (list LedgerRow);
  rollup_csvs : option Rollups.Outputs;
  all_long_csv : option (list CityDaily.LongRow);
  city_daily_7d_csv : option (list CityDaily.Out)
}.

Inductive exn :=
| FileNotFoundError
| AttributeError.

(** A stage either raises, leaving the files as they were, or returns with
    the files as it leaves them. *)
Inductive outcome :=
| Raised (e : exn)
| Returned (fs : Files).

Section Stage.
Variable to_datetime : string -> option Dates.civil.

(** [compute_team_game_results.main] *)
Definition ledger_stage (fs : Files) : outcome :=
  let master :=
    compute_master to_datetime (scoring_json fs) (games_csv (processed fs)) in
  Returned (mkFiles (scoring_json fs) (processed fs) (Some master)
                    (rollup_csvs fs) (all_long_csv fs) (city_daily_7d_csv fs)).

(** [rollups.compute_rollups] *)
Definition rollup_stage (fs : Files) : outcome :=
  match Rollups.compute_rollups (team_game_results_csv fs)
                                (teams_csv (processed fs)) with
  | None => Returned fs
  | Some out =>
      Returned (mkFiles (scoring_json fs) (processed fs)
                        (team_game_results_csv fs) (Some out)
                        (all_long_csv fs) (city_daily_7d_csv fs))
  end.

(** [build_city_daily_agg.main] *)
Definition daily_stage (fs : Files) : outcome :=
  match CityDaily.main to_datetime (all_long_csv fs) with
  | CityDaily.Raised CityDaily.FileNotFoundError => Raised FileNotFoundError
  | CityDaily.Raised CityDaily.AttributeError => Raised AttributeError
  | CityDaily.Returned out =>
      Returned (mkFiles (scoring_json fs) (processed fs)
                        (team_game_results_csv fs) (rollup_csvs fs)
                        (all_long_csv fs) (Some out))
  end.
End Stage.

(** A checkout in which no data file exists yet. *)
Definition nothing_yet : Files :=
  mkFiles None (mkProcessed None None None) None None None None.

End Stages.

(** ** Sample data for the loaders *)
Module Scenarios.
Import PyStr Ledger Tables Nhl.

(** Stored tables that already hold one other game and its two teams. *)
Definition boston_game : Game :=
  mkGame "nhl_2023-02-28_boston-bruins_calgary-flames" "2023-02-28" "nhl" "regular"
         "nhl_calgary-flames" "nhl_boston-bruins" (Num 3) (Num 4) "nhl_boston-bruins".

Definition stored_tables : Processed :=
  mkProcessed
    (Some [mkCity "boston" "Boston" "" "USA" "boston";
           mkCity "calgary" "Calgary" "" "USA" "calgary"])
    (Some [mkTeam "nhl_boston-bruins" "Boston Bruins" "nhl" "boston" "Boston" "" ""
                  "Bruins";
           mkTeam "nhl_calgary-flames" "Calgary Flames" "nhl" "calgary" "Calgary" ""
                  "" "Flames"])
    (Some [boston_game]).

(** The row of the scenario game with other scores: same [game_id]. *)
Definition vegas_toronto_replayed : Game :=
  mkGame "nhl_2023-03-01_vegas-golden-knights_toronto-maple-leafs" "2023-03-01"
         "nhl" "regular" "nhl_toronto-maple-leafs" "nhl_vegas-golden-knights"
         (Num 5) (Num 1) "nhl_toronto-maple-leafs".

End Scenarios.

(** ** The NBA loader: seeding the teams and reading a matchup *)
Module NbaSeed.
Import PyStr Ledger Tables.

(** [text.strip().lower().replace(" ", "-")] *)
Definition slugify (text : string) : string :=
  replace_char " "%char "-" (lower (strip text)).

(** A row of the NBA [teams.csv]; a column that the file does not have is
    [None]. *)
Record TeamIn := mkTeamIn {
  location : option string;
  teamName : option string;
  abbreviation : option string;
  teamId : option string
}.

(** [str(t[col]) if col in t else absent] *)
Definition field (cell : option string) (absent : string) : string :=
  match cell with
  | Some s => str_field s
  | None => absent
  end.

Record SeedState := mkSeed {
  seen_city_ids : gset string;
  seen_team_ids : gset string;
  seeded_cities : list City;
  seeded_teams : list Team;
  abbrev_to_team_id : gmap string string
}.

(** One turn of the loop over [teams_in.iterrows()]. *)
Definition seed_step (st : SeedState) (t : TeamIn) : SeedState :=
  let city_name := field (location t) "" in
  let team_name := field (teamName t) "" in
  let abbrev := field (abbreviation t) "" in
  let team_id_num := field (teamId t) abbrev in
  let city_id := slugify city_name in
  let add_city :=
    negb (String.eqb city_id "") && negb (bool_decide (city_id ∈ seen_city_ids st)) in
  let team_id :=
    if negb (String.eqb abbrev "") then "nba_" +:+ abbrev
    else "nba_" +:+ team_id_num in
  let add_team := negb (bool_decide (team_id ∈ seen_team_ids st)) in
  mkSeed
    (if add_city then {[city_id]} ∪ seen_city_ids st else seen_city_ids st)
    (if add_team then {[team_id]} ∪ seen_team_ids st else seen_team_ids st)
    (if add_city then seeded_cities st ++ [mkCity city_id city_name "" "USA" city_id]
     else seeded_cities st)
    (if add_team then
       seeded_teams st
       ++ [mkTeam team_id (strip (city_name +:+ " " +:+ team_name)) "nba" city_id
                  city_name "" "" team_id_num]
     else seeded_teams st)
    (<[abbrev := team_id]> (abbrev_to_team_id st)).

(** The seeding loop, from the ids of the stored tables. *)
Definition seed (processed_cities : list City) (processed_teams : list Team)
           (teams_in : list TeamIn) : SeedState :=
  List.fold_left seed_step teams_in
                 (mkSeed (id_set (List.map c_city_id processed_cities))
                         (id_set (List.map t_team_id processed_teams)) [] [] ∅).

(** The text before and after the first occurrence of [sep]. *)
Fixpoint split_first (sep l : list ascii) : option (list ascii * list ascii) :=
  if prefix_b sep l then Some ([], drop (List.length sep) l)
  else match l with
       | [] => None
       | c :: t => match split_first sep t with
                   | Some (a, b) => Some (c :: a, b)
                   | None => None
                   end
       end.

(** [a, b = m.split(sep)]: [None] is the [ValueError] of an unpacking that
    does not find exactly two parts. *)
Definition split_two (sep m : string) : option (string * string) :=
  match split_first (chars sep) (chars m) with
  | Some (a, b) => if infix_b (chars sep) b then None else Some (str a, str b)
  | None => None
  end.

(** [parse_matchup]: (LEFT, RIGHT, is_away_format). *)
Definition parse_matchup (m : string) : option (string * string * bool) :=
  let m := str_field m in
  if contains "@" m then
    match split_two "@" m with
    | Some (a, b) => Some (strip a, strip b, true)
    | None => None
    end
  else if contains "vs." m then
    match split_two "vs." m with
    | Some (a, b) => Some (strip b, strip a, false)
    | None => None
    end
  else Some ("", "", false).

(** [infer_home_away]: (away, home). *)
Definition infer_home_away (LEFT RIGHT : string) (is_away_format : bool)
  : string * string :=
  if is_away_format then (LEFT, RIGHT) else (RIGHT, LEFT).

(** The sides that [tmp] holds for one per-team row: (away_abbrev,
    home_abbrev); [None] when [parse_matchup] raises. *)
Definition sides_of (m : string) : option (string * string) :=
  match parse_matchup m with
  | Some (LEFT, RIGHT, is_away_format) => Some (infer_home_away LEFT RIGHT is_away_format)
  | None => None
  end.

Definition str_leb (a b : string) : bool :=
  match String.compare a b with
  | Gt => false
  | _ => true
  end.

Definition count (x : string) (l : list string) : nat :=
  List.length (List.filter (String.eqb x) l).

(** [x.mode()]: the most frequent values, in sorted order. *)
Definition mode (l : list string) : list string :=
  List.filter (fun x => forallb (fun y => (count y l <=? count x l)%nat) l)
              (Frame.sort_by str_leb (remove_dups l)).

(** [x.mode().iat[0] if not x.mode().empty else x.iloc[0]] on the rows of a
    group, which is never empty. *)
Definition mode_first (l : list string) : string :=
  match mode l with
  | x :: _ => x
  | [] => hd "" l
  end.

(** The row of [game_side] for the [MATCHUP] cells of the per-team rows of
    one [GAME_ID]: (home_abbrev, away_abbrev). *)
Definition game_side (matchups : list string) : option (string * string) :=
  match mapM sides_of matchups with
  | Some sides => Some (mode_first (List.map snd sides), mode_first (List.map fst sides))
  | None => None
  end.

(** The NBA [teams.csv] rows of two teams. *)
Definition two_teams_in : list TeamIn :=
  [mkTeamIn (Some "Brooklyn") (Some "Nets") (Some "BKN") (Some "1610612751");
   mkTeamIn (Some "Philadelphia") (Some "76ers") (Some "PHI") (Some "1610612755")].

End NbaSeed.

(** ** The daily snapshot: [fetch_yesterday.py] *)
Module Snapshot.
Import PyStr.

(** A CSV file that is only read is the list of the rows that [csv.reader]
    yields, a blank line being the empty row. *)
Definition HEADERS : list string :=
  ["game_id"; "date"; "league"; "season_type"; "home_team_id"; "away_team_id";
   "home_score"; "away_score"; "winning_team_id"].

(** [r[key]] for the dict that [csv.DictReader] builds from [fieldnames] and
    a row: with a repeated name the last value wins, names beyond the row get
    [None] (the outer [None] is a [KeyError]). *)
Fixpoint dict_get (fieldnames row : list string) (key : string)
         (acc : option (option string)) : option (option string) :=
  match fieldnames, row with
  | f :: fs, v :: vs => dict_get fs vs key (if String.eqb f key then Some (Some v) else acc)
  | f :: fs, [] => if existsb (String.eqb key) (f :: fs) then Some None else acc
  | [], _ => acc
  end.

(** The loop that fills [existing_ids]; blank rows are skipped by the
    reader. [None] is a [KeyError]. *)
Fixpoint read_ids (fieldnames : list string) (data : list (list string))
         (ids : gset string) : option (gset string) :=
  match data with
  | [] => Some ids
  | [] :: rest => read_ids fieldnames rest ids
  | r :: rest =>
      match dict_get fieldnames r "game_id" None with
      | None => None
      | Some None => read_ids fieldnames rest ids
      | Some (Some v) => read_ids fieldnames rest ({[v]} ∪ ids)
      end
  end.

Definition existing_ids (games : list (list string)) : option (gset string) :=
  match games with
  | [] => Some ∅
  | fieldnames :: data => read_ids fieldnames data ∅
  end.

(** A CSV file that is appended to: its rows, and whether its text ends
    with a line terminator. *)
Record CsvFile := mkCsv {
  rows : list (list string);
  final_newline : bool
}.

Inductive exn :=
| FileNotFoundError
| KeyError.

Inductive outcome :=
| Raised (e : exn)
| Returned (games_file : option CsvFile).

Definition is_new (ids : gset string) (r : list string) : bool :=
  match r with
  | [] => false
  | x :: _ => negb (bool_decide (x ∈ ids))
  end.

Section Append.
(** What [csv.reader] makes of the text of an unterminated last line
    followed at once by the text that [csv.writer] writes for a row. *)
Variable csv_join : list string -> list string -> list (list string).

(** Writing rows in append mode: every written row ends with a line
    terminator. After a text that does not end with one, the first written
    row continues the last stored line. *)
Definition write_rows (f : CsvFile) (added : list (list string)) : CsvFile :=
  match added with
  | [] => f
  | a :: more =>
      if final_newline f then mkCsv (rows f ++ added) true
      else
        match rev (rows f) with
        | [] => mkCsv added true
        | last_row :: front => mkCsv (rev front ++ csv_join last_row a ++ more) true
        end
  end.

(** [append_snapshot_to_games]: [snapshot] holds the rows of the daily file,
    header first; [games_file] is [processed/games.csv]. *)
Definition append_snapshot_to_games (snapshot : list (list string))
           (games_file : option CsvFile) : outcome :=
  if (List.length snapshot <=? 1)%nat then Returned games_file
  else
    match games_file with
    | None => Raised FileNotFoundError
    | Some games =>
        match existing_ids (rows games) with
        | None => Raised KeyError
        | Some ids =>
            Returned (Some (write_rows games
                                       (List.filter (is_new ids) (List.tail snapshot))))
        end
    end.
End Append.

(** The game ids of the data rows, as the reader sees them when the first
    column is the only one named [game_id]. *)
Definition first_fields (data : list (list string)) : list string :=
  List.concat (List.map (fun r => match r with [] => [] | x :: _ => [x] end) data).

Definition sample_games_file : list (list string) :=
  [HEADERS;
   ["nhl_a"; "2023-03-01"; "nhl"; "regular"; "nhl_x"; "nhl_y"; "2"; "4"; "nhl_y"]].

Definition sample_snapshot : list (list string) :=
  [HEADERS;
   ["nhl_a"; "2023-03-01"; "nhl"; "regular"; "nhl_x"; "nhl_y"; "2"; "4"; "nhl_y"];
   ["nhl_b"; "2023-03-02"; "nhl"; "regular"; "nhl_x"; "nhl_z"; "1"; "0"; "nhl_x"];
   [];
   ["nhl_b"; "2023-03-02"; "nhl"; "regular"; "nhl_x"; "nhl_z"; "1"; "0"; "nhl_x"]].

End Snapshot.

(** ** Team to city mapping: [concat_leagues_with_city.py] *)
Module TeamCity.
Import PyStr Frame Ledger.

(** A row of a league's long file. *)
Record Long := mkLongRow {
  l_date : string;
  l_team : string;
  l_index_score : option Z;
  l_month : string;
  l_league : string
}.

(** A row of [team_city_map.csv]. *)
Record MapRow := mkMap {
  m_league : string;
  m_team : string;
  m_city : string
}.

(** A row of [all_long.csv]; an empty [a_City] is NaN. *)
Record AllLong := mkAll {
  a_long : Long;
  a_City : string
}.

(** [build_nba_abbrev_to_city]: [teams] holds the (abbreviation, location)
    cells, [None] when the file is missing or empty or lacks a column. *)
Definition build_nba_abbrev_to_city (teams : option (list (string * string)))
  : gmap string string :=
  List.fold_left
    (fun m r => let abbr := strip (str_field r.1) in
                let city := strip (str_field r.2) in
                if String.eqb abbr "" then m else <[abbr := city]> m)
    (default [] teams) ∅.

(** [build_mlb_retro_to_city]: [file] holds the rows of [CurrentNames.csv]. *)
Definition build_mlb_retro_to_city (file : option (list (list string)))
  : gmap string string :=
  List.fold_left
    (fun m row =>
       match row with
       | [] => m
       | _ :: _ =>
           let n := List.length row in
           let retro := if (1 <? n)%nat then strip (nth 1 row "") else "" in
           let city := if (2 <=? n)%nat then strip (nth (n - 2) row "") else "" in
           if String.eqb retro "" then m else <[retro := city]> m
       end)
    (default [] file) ∅.

(** [drop_duplicates(subset=key)]: the first row of every key is kept;
    [seen] holds the keys met so far. *)
Fixpoint keep_first {A K : Type} `{EqDecision K} (key : A -> K) (seen : list K)
         (l : list A) : list A :=
  match l with
  | [] => []
  | x :: t =>
      if bool_decide (key x ∈ seen) then keep_first key seen t
      else x :: keep_first key (key x :: seen) t
  end.

(** [long[["league", "team"]].drop_duplicates()] *)
Definition team_keys (long : list Long) : list (string * string) :=
  keep_first (fun k => k) [] (List.map (fun r => (l_league r, l_team r)) long).

(** The frame of a league whose teams are full names. *)
Definition named_frame (nicknames : list string) (long : list Long) : list MapRow :=
  List.map (fun k => mkMap k.1 k.2
                           (Nhl.split_city_team_with nicknames (str_field k.2)).1)
           (team_keys long).

(** The frame of a league whose teams are codes: the mapped city, or the
    code itself. *)
Definition coded_frame (codes : gmap string string) (long : list Long) : list MapRow :=
  List.map (fun k => mkMap k.1 k.2 (default k.2 (codes !! k.2))) (team_keys long).

Definition map_key (r : MapRow) : string * string := (m_league r, m_team r).

Definition map_leb (a b : MapRow) : bool :=
  match na_last_compare (m_league a) (m_league b) with
  | Lt => true
  | Gt => false
  | Eq => match na_last_compare (m_team a) (m_team b) with
          | Gt => false
          | _ => true
          end
  end.

(** The four long files and the two auxiliary tables. *)
Record Inputs := mkInputs {
  nhl_long : option (list Long);
  mlb_long : option (list Long);
  nba_long : option (list Long);
  nfl_long : option (list Long);
  nba_teams : option (list (string * string));
  mlb_current_names : option (list (list string))
}.

(** [make_team_city_map] *)
Definition make_team_city_map (i : Inputs) : list MapRow :=
  let frames :=
    named_frame Nhl.MULTIWORD_NICKNAMES (default [] (nhl_long i))
    ++ coded_frame (build_mlb_retro_to_city (mlb_current_names i))
                   (default [] (mlb_long i))
    ++ coded_frame (build_nba_abbrev_to_city (nba_teams i)) (default [] (nba_long i))
    ++ named_frame Nhl.MULTIWORD_NICKNAMES_NFL (default [] (nfl_long i)) in
  sort_by map_leb (keep_first map_key [] frames).

(** [all_df.merge(mapping_df, on=["league", "team"], how="left")] for one
    row of the left frame. *)
Definition merge_row (mapping : list MapRow) (r : Long) : list AllLong :=
  match List.filter (fun m => bool_decide (map_key m = (l_league r, l_team r)))
                    mapping with
  | [] => [mkAll r ""]
  | ms => List.map (fun m => mkAll r (m_city m)) ms
  end.

(** The rows of the four long files, in the order they are concatenated. *)
Definition all_rows (i : Inputs) : list Long :=
  default [] (nhl_long i) ++ default [] (mlb_long i)
  ++ default [] (nba_long i) ++ default [] (nfl_long i).

(** [concat_with_city] *)
Definition concat_with_city (mapping : list MapRow) (i : Inputs) : list AllLong :=
  List.concat (List.map (merge_row mapping) (all_rows i)).

Definition sample_inputs : Inputs :=
  mkInputs
    (Some [mkLongRow "2023-03-01" "Vegas Golden Knights" (Some 1) "2023-03-01" "nhl";
           mkLongRow "2023-03-01" "Toronto Maple Leafs" (Some (-1)) "2023-03-01" "nhl"])
    (Some [mkLongRow "2023-04-01" "NYA" (Some 1) "2023-04-01" "mlb";
           mkLongRow "2023-04-01" "XXX" (Some (-1)) "2023-04-01" "mlb"])
    None None None
    (Some [["NYY"; "NYA"; "AL"; ""; "New York"; "Yankees"]]).

End TeamCity.

(** ** The long files of the leagues (transform_league_long.py,
       transform_nhl_long.py) *)
Module LongForm.
Import PyStr Frame Ledger TeamCity.

(** An entry of the list [rows] of a transformer. *)
Record Entry := mkEntry {
  e_date : string;
  e_team : string;
  e_index_score : Z
}.

(** A row of the MLB game file. *)
Record MlbGame := mkMlb {
  mlb_Date : string;
  VT : string;
  HT : string;
  Game_Winner : cell
}.

(** A row of the NFL score file. *)
Record NflGame := mkNfl {
  schedule_date : string;
  team_home : string;
  score_home : cell;
  team_away : string;
  score_away : cell
}.

(** A row of the NBA totals file. *)
Record NbaRow := mkNbaRow {
  TEAM_ABBREVIATION : string;
  GAME_DATE : string;
  WL : string
}.

(** The index scores of the side appended first and of the side appended
    second, from their scores. *)
Definition idx_pair (first second : option Z) : Z * Z :=
  match first, second with
  | Some x, Some y =>
      if y <? x then (1, -1) else if x <? y then (-1, 1) else (0, 0)
  | _, _ => (0, 0)
  end.

(** [int(c) if pd.notna(c) else None] inside its own [try]. *)
Definition int_cell (c : cell) : option Z :=
  match c with
  | Empty => None
  | Num z => Some z
  | Text s => int_of_str s
  end.

(** [s[a:b]] *)
Definition slice (a b : nat) (s : string) : string :=
  str (take (b - a) (drop a (chars s))).

Definition long_leb (a b : Long) : bool :=
  match na_last_compare (l_date a) (l_date b) with
  | Lt => true
  | Gt => false
  | Eq => match String.compare (l_team a) (l_team b) with
          | Gt => false
          | _ => true
          end
  end.

(** Two digits and four digits of a number, as [%m], [%d] and [%Y] print
    them. *)
Definition digit_char (n : Z) : ascii := ascii_of_nat (48 + Z.to_nat (n mod 10)).

Definition pad2 (n : Z) : string := str [digit_char (n / 10); digit_char n].

Definition pad4 (n : Z) : string :=
  str [digit_char (n / 1000); digit_char (n / 100); digit_char (n / 10); digit_char n].

(** [strftime("%Y-%m-%d")] for the years 0 to 9999. *)
Definition iso_format (d : Dates.civil) : string :=
  pad4 (Dates.year d) +:+ "-" +:+ pad2 (Dates.month d) +:+ "-" +:+ pad2 (Dates.day d).

(** A column parser for [YYYY-MM-DD] texts: an empty field and "nan" are
    [NaT], any other text that is not a date raises. *)
Definition iso_column (s : string) : option (option Dates.civil) :=
  if String.eqb s "" || String.eqb s "nan" then Some None
  else match Dates.iso_date s with
       | Some d => Some (Some d)
       | None => None
       end.

Section Transform.
(** [int(float(s))] of a string cell; [None] when Python raises. *)
Variable int_float : string -> option Z.
(** [pd.to_datetime(x, errors="coerce")] of one value, at day resolution. *)
Variable to_datetime_coerce : string -> option Dates.civil.
(** [pd.to_datetime(column)], entry by entry: the outer [None] raises, the
    inner [None] is [NaT]. *)
Variable to_datetime : string -> option (option Dates.civil).
(** [strftime("%Y-%m-%d")]; on the first day of a month, also
    [strftime("%Y-%m-01")]. *)
Variable strftime : Dates.civil -> string.

Definition date_text (d : option Dates.civil) : string :=
  match d with
  | Some c => strftime c
  | None => ""
  end.

(** One row of [_format_out]: the date is parsed and printed, the printed
    date is parsed again for the month. *)
Definition format_entry (league : string) (e : Entry) : option Long :=
  match to_datetime (e_date e) with
  | None => None
  | Some d =>
      let date := date_text d in
      match to_datetime date with
      | None => None
      | Some m =>
          Some (mkLongRow date (e_team e) (Some (e_index_score e))
                          (date_text (Dates.to_period_m_start <$> m)) league)
      end
  end.

(** [_format_out]; [None] when a date cannot be parsed. *)
Definition format_out (league : string) (rows : list Entry) : option (list Long) :=
  sort_by long_leb <$> mapM (format_entry league) rows.

(** Each conversion of a goal count has its own [try]. *)
Definition goal (c : cell) : option Z := default None (Nhl.parse_goal int_float c).

Definition nhl_entries (r : Nhl.RawGame) : list Entry :=
  let date := first_field (str_field (Nhl.Date r)) in
  let away := strip (str_field (Nhl.Away r)) in
  let home := strip (str_field (Nhl.Home r)) in
  if String.eqb away "" || String.eqb home "" then []
  else
    let '(away_idx, home_idx) :=
      idx_pair (goal (Nhl.AwayGoals r)) (goal (Nhl.HomeGoals r)) in
    [mkEntry date away away_idx; mkEntry date home home_idx].

(** [transform_nhl_long], the same in both files. *)
Definition transform_nhl_long (df : list Nhl.RawGame) : option (list Long) :=
  format_out "nhl" (List.concat (List.map nhl_entries df)).

Definition mlb_entries (r : MlbGame) : list Entry :=
  let date_raw := strip (str_field (mlb_Date r)) in
  let date :=
    if (String.length date_raw =? 8)%nat
    then slice 0 4 date_raw +:+ "-" +:+ slice 4 6 date_raw +:+ "-"
         +:+ slice 6 8 date_raw
    else date_raw in
  let vt := strip (str_field (VT r)) in
  let ht := strip (str_field (HT r)) in
  if String.eqb vt "" || String.eqb ht "" then []
  else
    let '(vt_idx, ht_idx) :=
      match int_cell (Game_Winner r) with
      | Some winner =>
          if Z.eqb winner 1 then (1, -1)
          else if Z.eqb winner 0 then (-1, 1) else (0, 0)
      | None => (0, 0)
      end in
    [mkEntry date vt vt_idx; mkEntry date ht ht_idx].

Definition transform_mlb_long (df : list MlbGame) : option (list Long) :=
  format_out "mlb" (List.concat (List.map mlb_entries df)).

(** The date of an NFL row is printed before the row can be skipped:
    [NaT.strftime] raises. *)
Definition nfl_entries (r : NflGame) : option (list Entry) :=
  let date_raw := strip (str_field (schedule_date r)) in
  match (if String.eqb date_raw "" then Some ""
         else strftime <$> to_datetime_coerce date_raw) with
  | None => None
  | Some date =>
      let home := strip (str_field (team_home r)) in
      let away := strip (str_field (team_away r)) in
      if String.eqb home "" || String.eqb away "" then Some []
      else
        let '(home_idx, away_idx) :=
          idx_pair (int_cell (score_home r)) (int_cell (score_away r)) in
        Some [mkEntry date home home_idx; mkEntry date away away_idx]
  end.

Definition transform_nfl_long (df : list NflGame) : option (list Long) :=
  match mapM nfl_entries df with
  | None => None
  | Some rows => format_out "nfl" (List.concat rows)
  end.

Definition nba_entry (r : NbaRow) : option Entry :=
  match to_datetime (GAME_DATE r) with
  | None => None
  | Some d =>
      Some (mkEntry (date_text d) (str_field (TEAM_ABBREVIATION r))
                    (if String.eqb (WL r) "W" then 1
                     else if String.eqb (WL r) "L" then -1 else 0))
  end.

Definition transform_nba_long (df : list NbaRow) : option (list Long) :=
  match mapM nba_entry df with
  | None => None
  | Some rows => format_out "nba" rows
  end.

End Transform.

(** The index score of a long row, zero where it is missing. *)
Definition score (r : Long) : Z := default 0 (l_index_score r).

(** The total of the index scores of the rows dated [d]. *)
Definition day_total (d : string) (out : list Long) : Z :=
  sumZ (List.map (fun r => if String.eqb (l_date r) d then score r else 0) out).

(** A block of [rows]: nothing, or the two entries of one game. *)
Definition balanced (b : list Entry) : Prop :=
  b = [] \/ exists e1 e2, b = [e1; e2] /\ e_date e1 = e_date e2
                          /\ e_index_score e1 + e_index_score e2 = 0.

Definition sample_nhl : list Nhl.RawGame :=
  [Nhl.vegas_toronto_raw;
   Nhl.mkRaw "2023-03-01 19:00" "Boston Bruins" (Num 1) "Calgary Flames" (Num 3)
             "Regular Season";
   Nhl.mkRaw "2023-03-02" "Boston Bruins" Empty "Calgary Flames" (Num 3)
             "Regular Season"].

Definition sample_mlb : list MlbGame :=
  [mkMlb "20230401" "NYA" "BOS" (Num 1); mkMlb "20230401" "CHN" "SLN" (Num 0)].

Definition sample_nfl : list NflGame :=
  [mkNfl "2023-09-10" "New York Giants" (Num 0) "Dallas Cowboys" (Num 40)].

End LongForm.

(* ===================================================================== *)
(** * Part II: properties                                                  *)
(* ===================================================================== *)

(** ** Sorting keeps the rows *)
Module FrameProps.
Import Frame.

Lemma insert_by_perm {A : Type} (leb : A -> A -> bool) x l :
  Permutation (insert_by leb x l) (x :: l).
Proof.
  induction l as [|y t IH]; cbn; [reflexivity|].
  destruct (leb x y); [reflexivity|]. rewrite IH. apply perm_swap.
Qed.

Lemma sort_by_perm {A : Type} (leb : A -> A -> bool) l :
  Permutation (sort_by leb l) l.
Proof.
  unfold sort_by. induction l as [|x t IH]; cbn; [reflexivity|].
  rewrite insert_by_perm. now constructor.
Qed.

Lemma sort_by_In {A : Type} (leb : A -> A -> bool) l x :
  In x (sort_by leb l) <-> In x l.
Proof.
  split; apply Permutation_in; [|symmetry]; apply sort_by_perm.
Qed.

Lemma sumZ_app (a b : list Z) : sumZ (a ++ b) = sumZ a + sumZ b.
Proof. unfold sumZ. induction a as [|x a IH]; cbn; [reflexivity|]. lia. Qed.

Lemma sumZ_ones {A : Type} (l : list A) :
  sumZ (List.map (fun _ => 1) l) = Z.of_nat (List.length l).
Proof.
  unfold sumZ.
  induction l as [|x l IH]; cbn [List.map fold_right List.length]; lia.
Qed.

Lemma sumZ_add {A : Type} (f g : A -> Z) (l : list A) :
  sumZ (List.map (fun x => f x + g x) l)
  = sumZ (List.map f l) + sumZ (List.map g l).
Proof. unfold sumZ. induction l as [|x l IH]; cbn; lia. Qed.

Lemma sumZ_ext {A : Type} (f g : A -> Z) (l : list A) :
  (forall x, In x l -> f x = g x) ->
  sumZ (List.map f l) = sumZ (List.map g l).
Proof.
  unfold sumZ. induction l as [|x l IH]; intros Hfg; cbn; [reflexivity|].
  rewrite (Hfg x) by now left. rewrite IH; [reflexivity|].
  intros y Hy. apply Hfg. now right.
Qed.

Lemma sumZ_rev (l : list Z) : sumZ (rev l) = sumZ l.
Proof.
  induction l as [|x l IH]; [reflexivity|]. cbn [rev].
  rewrite sumZ_app, IH. unfold sumZ. cbn. lia.
Qed.

Lemma sumZ_rev_map {A : Type} (f : A -> Z) (l : list A) :
  sumZ (rev (List.map f l)) = sumZ (List.map f l).
Proof. apply sumZ_rev. Qed.

Lemma filter_none {A : Type} (f : A -> bool) l :
  (forall x, In x l -> f x = false) -> List.filter f l = [].
Proof.
  induction l as [|x l IH]; intros H; [reflexivity|]. cbn.
  rewrite (H x) by now left. apply IH. intros y Hy. apply H. now right.
Qed.

(** A value placed on exactly one key of a duplicate-free list. *)
Lemma sumZ_indicator {K : Type} `{EqDecision K} (k0 : K) (v : Z) (keys : list K) :
  NoDup keys -> In k0 keys ->
  sumZ (List.map (fun k => if bool_decide (k0 = k) then v else 0) keys) = v.
Proof.
  unfold sumZ. induction keys as [|k keys IH]; intros Hnd Hin; [destruct Hin|].
  apply NoDup_cons in Hnd. destruct Hnd as [Hk Hnd]. cbn.
  destruct Hin as [<- | Hin].
  - rewrite bool_decide_eq_true_2 by reflexivity.
    assert (Hz : fold_right Z.add 0
                   (List.map (fun k' => if bool_decide (k = k') then v else 0) keys)
                 = 0).
    { clear IH Hnd. induction keys as [|y keys IH]; [reflexivity|]. cbn.
      rewrite bool_decide_eq_false_2.
      - rewrite IH; [reflexivity|]. intros Hy. apply Hk. now right.
      - intros ->. apply Hk. now left. }
    rewrite Hz. lia.
  - rewrite bool_decide_eq_false_2.
    + rewrite IH by assumption. lia.
    + intros ->. apply Hk. now apply list_elem_of_In.
Qed.

Lemma filter_filter_implied {A : Type} (f keep : A -> bool) l :
  (forall x, f x = true -> keep x = true) ->
  List.filter f (List.filter keep l) = List.filter f l.
Proof.
  intros Himp. induction l as [|x l IH]; [reflexivity|]. cbn.
  destruct (keep x) eqn:Hk; cbn; destruct (f x) eqn:Hf; rewrite ?IH;
    try reflexivity.
  rewrite (Himp x Hf) in Hk. discriminate.
Qed.

End FrameProps.

(** ** Outcome scorer and ledger rows *)
Module LedgerProps.
Import PyStr Ledger.

Lemma win_key_spec season : win_key season = spec_key (is_playoff season) true.
Proof. unfold win_key, is_playoff. now destruct (String.eqb season "playoff"). Qed.

Lemma loss_key_spec season : loss_key season = spec_key (is_playoff season) false.
Proof. unfold loss_key, is_playoff. now destruct (String.eqb season "playoff"). Qed.

Lemma base_of_cases res : base_of res = 1 \/ base_of res = -1.
Proof. unfold base_of. destruct (String.eqb res "W"); auto. Qed.

Lemma base_of_result winner team :
  base_of (result_of winner team) = if String.eqb winner team then 1 else -1.
Proof. unfold result_of. now destruct (String.eqb winner team). Qed.

(** The two rows of a game, spelled out. *)
Lemma game_rows_shape weights g :
  exists h a,
    game_rows weights g = [h; a]
    /\ is_home h = true /\ is_home a = false
    /\ r_game_id h = game_id g /\ r_game_id a = game_id g
    /\ team_id h = str_field (home_team_id g)
    /\ team_id a = str_field (away_team_id g)
    /\ opponent_team_id h = team_id a /\ opponent_team_id a = team_id h
    /\ r_season_type h = lower (str_field (season_type g))
    /\ r_season_type a = r_season_type h.
Proof.
  unfold game_rows.
  destruct (parse_scores (home_score g) (away_score g)) as [hs as_].
  destruct (base_results _ _ hs as_ _) as [[hr bh] [ar ba]].
  eexists; eexists; repeat split.
Qed.

Lemma ledger_rows_length weights games :
  List.length (ledger_rows weights games) = (2 * List.length games)%nat.
Proof.
  unfold ledger_rows. induction games as [|g gs IH]; [reflexivity|].
  cbn [List.map List.concat]. rewrite length_app, IH.
  destruct (game_rows_shape weights g) as (h & a & -> & _). cbn. lia.
Qed.

(** Every row carries [base * |weight|] with the base result and the weight
    chosen by [weight_of]. *)
Lemma game_rows_weighted weights g r :
  In r (game_rows weights g) ->
  (index_score r = 1 /\ result r = "W"
   \/ index_score r = -1 /\ result r = "L"
   \/ index_score r = 0 /\ result r = "")
  /\ weighted_score r
     = index_score r * Z.abs (weight_of weights (r_season_type r) (index_score r)).
Proof.
  unfold game_rows.
  destruct (parse_scores (home_score g) (away_score g)) as [hs as_].
  unfold base_results.
  destruct hs, as_, (parse_winner (winning_team_id g));
    cbn; intros [<- | [<- | []]]; cbn; unfold weighted;
    rewrite ?base_of_result; unfold result_of;
    repeat match goal with |- context [String.eqb ?a ?b] =>
                             destruct (String.eqb a b) end;
    cbn; auto 6.
Qed.

(** C2. For every game row and every weights configuration, each ledger
    perspective's [weighted_score] is its [index_score] times the absolute
    value of the weight configured for its season type and outcome. With a
    configuration file the weight is the file's entry under
    [regular_season_win], [regular_season_loss], [playoff_win] or
    [playoff_loss] (1 for a win and -1 for a loss where the file has no such
    entry); without a configuration file the weights are +1, -1, +3 and
    -3. *)
Theorem C2_weighted_score_is_index_times_abs_weight
        (cfg : option (gmap string Z)) (g : Game) (r : TeamGameResult) :
  In r (game_rows (load_scoring_weights cfg) g) ->
  let weights := load_scoring_weights cfg in
  let playoff := is_playoff (r_season_type r) in
  (forall c, result r = "W" -> weights !! spec_key playoff true = Some c ->
             weighted_score r = index_score r * Z.abs c)
  /\ (forall c, result r = "L" -> weights !! spec_key playoff false = Some c ->
                weighted_score r = index_score r * Z.abs c)
  /\ (result r = "" -> index_score r = 0 /\ weighted_score r = 0)
  /\ (result r = "W" \/ result r = "L" \/ result r = "")
  /\ (cfg = None ->
      weights !! "regular_season_win" = Some 1
      /\ weights !! "regular_season_loss" = Some (-1)
      /\ weights !! "playoff_win" = Some 3
      /\ weights !! "playoff_loss" = Some (-3)
      /\ forall k, is_Some (weights !! k) ->
                   exists p w, k = spec_key p w)
  /\ r_season_type r = lower (str_field (season_type g))
  /\ (result r = "W" -> index_score r = 1)
  /\ (result r = "L" -> index_score r = -1)
  /\ (forall w, cfg = Some w ->
        (result r = "W" ->
         weighted_score r
         = Z.abs (default 1
                    (w !! (if String.eqb (r_season_type r) "playoff"
                           then "playoff_win" else "regular_season_win"))))
        /\ (result r = "L" ->
            weighted_score r
            = - Z.abs (default (-1)
                         (w !! (if String.eqb (r_season_type r) "playoff"
                                then "playoff_loss" else "regular_season_loss")))))
  /\ (cfg = None ->
      (result r = "W" ->
       weighted_score r = if String.eqb (r_season_type r) "playoff" then 3 else 1)
      /\ (result r = "L" ->
          weighted_score r
          = if String.eqb (r_season_type r) "playoff" then -3 else -1)).
Proof.
  intros Hin weights playoff.
  destruct (game_rows_weighted _ _ _ Hin) as [Hcases Hw].
  assert (Hseason : r_season_type r = lower (str_field (season_type g))).
  { destruct (game_rows_shape (load_scoring_weights cfg) g)
      as (h & a & Hrows & _ & _ & _ & _ & _ & _ & _ & _ & Hsh & Hsa).
    rewrite Hrows in Hin. destruct Hin as [<- | [<- | []]]; congruence. }
  assert (HW : result r = "W" -> index_score r = 1)
    by (destruct Hcases as [[Hi Hr] | [[Hi Hr] | [Hi Hr]]]; congruence).
  assert (HL : result r = "L" -> index_score r = -1)
    by (destruct Hcases as [[Hi Hr] | [[Hi Hr] | [Hi Hr]]]; congruence).
  assert (Hexp : forall w, cfg = Some w ->
            (result r = "W" ->
             weighted_score r
             = Z.abs (default 1
                        (w !! (if String.eqb (r_season_type r) "playoff"
                               then "playoff_win" else "regular_season_win"))))
            /\ (result r = "L" ->
                weighted_score r
                = - Z.abs (default (-1)
                             (w !! (if String.eqb (r_season_type r) "playoff"
                                    then "playoff_loss"
                                    else "regular_season_loss"))))).
  { intros w ->. cbn [load_scoring_weights] in Hw.
    unfold weight_of, win_key, loss_key in Hw.
    split; intros Hr; [rewrite (HW Hr) in Hw | rewrite (HL Hr) in Hw];
      cbn [Z.eqb Pos.eqb] in Hw; rewrite Hw; lia. }
  assert (Hdef : cfg = None ->
            (result r = "W" ->
             weighted_score r
             = if String.eqb (r_season_type r) "playoff" then 3 else 1)
            /\ (result r = "L" ->
                weighted_score r
                = if String.eqb (r_season_type r) "playoff" then -3 else -1)).
  { intros ->. cbn [load_scoring_weights] in Hw.
    unfold weight_of, win_key, loss_key in Hw.
    split; intros Hr; [rewrite (HW Hr) in Hw | rewrite (HL Hr) in Hw];
      cbn [Z.eqb Pos.eqb] in Hw; rewrite Hw;
      destruct (String.eqb (r_season_type r) "playoff"); reflexivity. }
  fold weights in Hw. unfold weight_of in Hw.
  rewrite win_key_spec, loss_key_spec in Hw. fold playoff in Hw.
  split; [|split; [|split; [|split; [|split; [|split; [|split; [|split; [|split]]]]]]]].
  - intros c Hres Hc. rewrite Hw, (HW Hres). cbn. now rewrite Hc.
  - intros c Hres Hc. rewrite Hw, (HL Hres). cbn. now rewrite Hc.
  - intros Hres.
    destruct Hcases as [[Hi Hr] | [[Hi Hr] | [Hi Hr]]]; try congruence.
    split; [exact Hi|]. rewrite Hw, Hi. reflexivity.
  - destruct Hcases as [[_ Hr] | [[_ Hr] | [_ Hr]]]; auto.
  - intros ->. split; [reflexivity|]. split; [reflexivity|].
    split; [reflexivity|]. split; [reflexivity|].
    intros k [v Hk]. subst weights. cbn in Hk.
    unfold default_weights in Hk.
    repeat (apply lookup_insert_Some in Hk; destruct Hk as [[<- _] | [_ Hk]];
            [ first [ now exists false, true | now exists false, false
                      | now exists true, true | now exists true, false ] | ]).
    now rewrite lookup_empty in Hk.
  - exact Hseason.
  - exact HW.
  - exact HL.
  - exact Hexp.
  - exact Hdef.
Qed.

(** C3 as stated fails: a game with both scores and a non-empty
    [winning_team_id] that names neither side gets two "L" rows, both with
    [index_score] -1 and the same [weighted_score]. *)
Lemma C3_counterexample_stray_winner :
  decisive stray_winner_game = true
  /\ List.map result (game_rows default_weights stray_winner_game) = ["L"; "L"]
  /\ List.map index_score (game_rows default_weights stray_winner_game) = [-1; -1]
  /\ List.map weighted_score (game_rows default_weights stray_winner_game) = [-1; -1].
Proof. repeat split; vm_compute; reflexivity. Qed.

(** C3 (amended). For every decisive game whose [winning_team_id] is
    exactly one of its two team ids, the ledger builder emits exactly two
    rows, one "W" with [index_score] +1 and one "L" with [index_score] -1;
    under a weight configuration that is symmetric for the game's season
    type their [weighted_score]s are opposite and of equal magnitude. *)
Theorem C3_decisive_game_rows_are_opposite
        (weights : gmap string Z) (g : Game) (hs as_ : Z) (w : string) :
  parse_scores (home_score g) (away_score g) = (Some hs, Some as_) ->
  parse_winner (winning_team_id g) = Some w ->
  (w = str_field (home_team_id g) /\ w <> str_field (away_team_id g))
  \/ (w <> str_field (home_team_id g) /\ w = str_field (away_team_id g)) ->
  exists h a,
    game_rows weights g = [h; a]
    /\ (result h = "W" /\ result a = "L" /\ index_score h = 1 /\ index_score a = -1
        \/ result h = "L" /\ result a = "W" /\ index_score h = -1 /\ index_score a = 1)
    /\ (symmetric weights (lower (str_field (season_type g))) ->
        weighted_score h = - weighted_score a
        /\ Z.abs (weighted_score h) = Z.abs (weighted_score a)
        /\ Z.sgn (weighted_score h) = - Z.sgn (weighted_score a)).
Proof.
  intros Hs Hw Hone. unfold game_rows. rewrite Hs, Hw. cbn [base_results].
  rewrite !base_of_result. unfold result_of.
  destruct Hone as [[Hh Ha] | [Hh Ha]].
  - apply String.eqb_eq in Hh. apply String.eqb_neq in Ha. rewrite Hh, Ha.
    eexists; eexists; split; [reflexivity|]. cbn. split; [auto|].
    unfold symmetric, weighted, weight_of. cbn. intros Hsym. lia.
  - apply String.eqb_neq in Hh. apply String.eqb_eq in Ha. rewrite Hh, Ha.
    eexists; eexists; split; [reflexivity|]. cbn. split; [auto|].
    unfold symmetric, weighted, weight_of. cbn. intros Hsym. lia.
Qed.

Lemma C3_decisive_game_rows_are_opposite_witness :
  exists h a,
    game_rows default_weights vegas_toronto_game = [h; a]
    /\ (result h = "W" /\ result a = "L" /\ index_score h = 1 /\ index_score a = -1
        \/ result h = "L" /\ result a = "W" /\ index_score h = -1 /\ index_score a = 1)
    /\ (symmetric default_weights
                  (lower (str_field (season_type vegas_toronto_game))) ->
        weighted_score h = - weighted_score a
        /\ Z.abs (weighted_score h) = Z.abs (weighted_score a)
        /\ Z.sgn (weighted_score h) = - Z.sgn (weighted_score a)).
Proof.
  apply (C3_decisive_game_rows_are_opposite
           default_weights vegas_toronto_game 2 4 "nhl_vegas-golden-knights").
  - reflexivity.
  - reflexivity.
  - right. split; [discriminate | reflexivity].
Defined.

(** Without both scores and a winner the base results are neutral. *)
Lemma incomplete_base_results home_id away_id hs as_ winner :
  hs = None \/ as_ = None \/ winner = None ->
  base_results home_id away_id hs as_ winner = (("", 0), ("", 0)).
Proof.
  intros Hinc. unfold base_results.
  destruct hs, as_, winner; try reflexivity.
  destruct Hinc as [H | [H | H]]; discriminate.
Qed.

Lemma incomplete_rows_neutral (weights : gmap string Z) (g : Game) r :
  fst (parse_scores (home_score g) (away_score g)) = None
  \/ snd (parse_scores (home_score g) (away_score g)) = None
  \/ parse_winner (winning_team_id g) = None ->
  In r (game_rows weights g) ->
  result r = "" /\ index_score r = 0 /\ weighted_score r = 0.
Proof.
  intros Hinc. unfold game_rows.
  destruct (parse_scores (home_score g) (away_score g)) as [hs as_].
  cbn [fst snd] in Hinc.
  rewrite (incomplete_base_results _ _ _ _ _ Hinc).
  intros [<- | [<- | []]]; repeat split.
Qed.

(** A score that is missing: NaN, a blank text, or a text that [int] does
    not read. *)
Lemma missing_score_parses c :
  c = Empty \/ (exists s, c = Text s /\ (strip s = "" \/ int_of_str s = None)) ->
  parse_score c = Some None \/ parse_score c = None.
Proof.
  intros [-> | (s & -> & Hs)]; [now left|]. cbn.
  destruct (String.eqb_spec (strip s) "") as [_|Hne]; [now left|].
  destruct Hs as [Hs | Hs]; [contradiction|]. rewrite Hs. now right.
Qed.

Lemma blank_winner w : strip w = "" -> parse_winner w = None.
Proof.
  intros Hw. unfold parse_winner. destruct (String.eqb w ""); [reflexivity|].
  now rewrite Hw.
Qed.

(** C7. For every game row in which either score is missing (an empty
    field, a blank text or a text that is not a whole number) or no winner
    can be determined (the field is empty or blank), both team perspectives
    receive result "", [index_score] 0 and [weighted_score] 0, and the game
    still produces its two ledger rows (home and away), so it remains
    counted as played. *)
Theorem C7_incomplete_game_is_neutral_and_kept
        (weights : gmap string Z) (g : Game) :
  home_score g = Empty
  \/ away_score g = Empty
  \/ (exists s, home_score g = Text s /\ (strip s = "" \/ int_of_str s = None))
  \/ (exists s, away_score g = Text s /\ (strip s = "" \/ int_of_str s = None))
  \/ winning_team_id g = ""
  \/ strip (winning_team_id g) = "" ->
  exists h a,
    game_rows weights g = [h; a]
    /\ team_id h = str_field (home_team_id g)
    /\ team_id a = str_field (away_team_id g)
    /\ r_game_id h = game_id g /\ r_game_id a = game_id g
    /\ is_home h = true /\ is_home a = false
    /\ result h = "" /\ index_score h = 0 /\ weighted_score h = 0
    /\ result a = "" /\ index_score a = 0 /\ weighted_score a = 0.
Proof.
  intros Hinc.
  assert (Hnone : fst (parse_scores (home_score g) (away_score g)) = None
                  \/ snd (parse_scores (home_score g) (away_score g)) = None
                  \/ parse_winner (winning_team_id g) = None).
  { unfold parse_scores.
    assert (Hhome : parse_score (home_score g) = Some None
                    \/ parse_score (home_score g) = None ->
                    fst match parse_score (home_score g) with
                        | Some hs => match parse_score (away_score g) with
                                     | Some as_ => (hs, as_)
                                     | None => (None, None)
                                     end
                        | None => (None, None)
                        end = None).
    { intros [-> | ->]; [|reflexivity].
      now destruct (parse_score (away_score g)). }
    assert (Haway : parse_score (away_score g) = Some None
                    \/ parse_score (away_score g) = None ->
                    snd match parse_score (home_score g) with
                        | Some hs => match parse_score (away_score g) with
                                     | Some as_ => (hs, as_)
                                     | None => (None, None)
                                     end
                        | None => (None, None)
                        end = None).
    { intros [-> | ->]; now destruct (parse_score (home_score g)). }
    destruct Hinc as [H | [H | [H | [H | [H | H]]]]].
    - left. apply Hhome, missing_score_parses. now left.
    - right. left. apply Haway, missing_score_parses. now left.
    - left. apply Hhome, missing_score_parses. now right.
    - right. left. apply Haway, missing_score_parses. now right.
    - right. right. rewrite H. reflexivity.
    - right. right. now apply blank_winner. }
  unfold game_rows.
  destruct (parse_scores (home_score g) (away_score g)) as [hs as_].
  cbn [fst snd] in Hnone.
  rewrite (incomplete_base_results _ _ _ _ _ Hnone).
  eexists; eexists. split; [reflexivity|]. cbn. unfold weighted. cbn.
  repeat split.
Qed.

Lemma C7_incomplete_game_is_neutral_and_kept_witness :
  (exists h a,
      game_rows default_weights
                (mkGame "nba_0022300001" "2023-10-24" "nba" "regular"
                        "nba_DEN" "nba_LAL" Empty Empty "nba_DEN")
      = [h; a]
      /\ team_id h = str_field "nba_DEN"
      /\ team_id a = str_field "nba_LAL"
      /\ r_game_id h = "nba_0022300001" /\ r_game_id a = "nba_0022300001"
      /\ is_home h = true /\ is_home a = false
      /\ result h = "" /\ index_score h = 0 /\ weighted_score h = 0
      /\ result a = "" /\ index_score a = 0 /\ weighted_score a = 0)
  /\ (exists h a,
        game_rows default_weights
                  (mkGame "nhl_2023-03-01_a_b" "2023-03-01" "nhl" "regular"
                          "nhl_b" "nhl_a" (Num 3) (Num 3) "")
        = [h; a]
        /\ team_id h = str_field "nhl_b"
        /\ team_id a = str_field "nhl_a"
        /\ r_game_id h = "nhl_2023-03-01_a_b" /\ r_game_id a = "nhl_2023-03-01_a_b"
        /\ is_home h = true /\ is_home a = false
        /\ result h = "" /\ index_score h = 0 /\ weighted_score h = 0
        /\ result a = "" /\ index_score a = 0 /\ weighted_score a = 0).
Proof.
  split.
  - apply (C7_incomplete_game_is_neutral_and_kept default_weights
             (mkGame "nba_0022300001" "2023-10-24" "nba" "regular"
                     "nba_DEN" "nba_LAL" Empty Empty "nba_DEN")).
    left. reflexivity.
  - apply (C7_incomplete_game_is_neutral_and_kept default_weights
             (mkGame "nhl_2023-03-01_a_b" "2023-03-01" "nhl" "regular"
                     "nhl_b" "nhl_a" (Num 3) (Num 3) "")).
    right. right. right. right. left. reflexivity.
Defined.

Lemma C2_weighted_score_is_index_times_abs_weight_witness :
  let cfg : option (gmap string Z) := Some (<["playoff_win" := 5]> ∅) in
  let g := mkGame "nhl_2023-03-01_vegas_toronto" "2023-03-01" "nhl" "Playoff"
                  "nhl_toronto" "nhl_vegas" (Num 2) (Num 4) "nhl_vegas" in
  let r := mkResult "nhl_2023-03-01_vegas_toronto" "2023-03-01" "nhl" "playoff"
                    "nhl_vegas" "nhl_toronto" false (Some 4) (Some 2) "W" 1 5 in
  let l := mkResult "nhl_2023-03-01_vegas_toronto" "2023-03-01" "nhl" "playoff"
                    "nhl_toronto" "nhl_vegas" true (Some 2) (Some 4) "L" (-1) (-1) in
  In r (game_rows (load_scoring_weights cfg) g)
  /\ In l (game_rows (load_scoring_weights cfg) g)
  /\ weighted_score r = Z.abs 5
  /\ weighted_score l = - Z.abs (-1).
Proof.
  intros cfg g r l.
  assert (Hr : In r (game_rows (load_scoring_weights cfg) g)).
  { vm_compute. right. left. reflexivity. }
  assert (Hl : In l (game_rows (load_scoring_weights cfg) g)).
  { vm_compute. left. reflexivity. }
  split; [exact Hr|]. split; [exact Hl|]. split.
  - destruct (C2_weighted_score_is_index_times_abs_weight cfg g r Hr)
      as (_ & _ & _ & _ & _ & _ & _ & _ & Hcfg & _).
    destruct (Hcfg _ eq_refl) as [HW _].
    pose proof (HW eq_refl) as H. vm_compute in H. vm_compute. exact H.
  - destruct (C2_weighted_score_is_index_times_abs_weight cfg g l Hl)
      as (_ & _ & _ & _ & _ & _ & _ & _ & Hcfg & _).
    destruct (Hcfg _ eq_refl) as [_ HL].
    pose proof (HL eq_refl) as H. vm_compute in H. vm_compute. exact H.
Defined.

End LedgerProps.

(** ** Derived period columns *)
Module PeriodProps.
Import PyStr Dates Ledger.

Lemma weekday_of_days_range n : 0 <= weekday_of_days n < 7.
Proof. unfold weekday_of_days. apply Z.mod_pos_bound. lia. Qed.

(** The period start the code computes is a Tuesday, at most six days
    before the date. *)
Lemma w_mon_start_is_tuesday n :
  weekday_of_days (w_mon_start_days n) = 1
  /\ n - 6 <= w_mon_start_days n <= n.
Proof.
  unfold w_mon_start_days, weekday_of_days.
  pose proof (Z.mod_pos_bound (n + 3) 7 ltac:(lia)) as Hwd.
  pose proof (Z.div_mod (n + 3) 7 ltac:(lia)) as Hdm.
  pose proof (Z.mod_pos_bound ((n + 3) mod 7 + 6) 7 ltac:(lia)) as Hk.
  pose proof (Z.div_mod ((n + 3) mod 7 + 6) 7 ltac:(lia)) as Hkd.
  split; [|lia].
  assert (Hcase : (n + 3) mod 7 = 0 /\ ((n + 3) mod 7 + 6) mod 7 = 6
                  \/ 1 <= (n + 3) mod 7
                     /\ ((n + 3) mod 7 + 6) mod 7 = (n + 3) mod 7 - 1) by lia.
  destruct Hcase as [[H0 H6] | [H1 Hm]].
  - rewrite H6.
    replace (n - 6 + 3) with (1 + ((n + 3) / 7 - 1) * 7) by lia.
    now rewrite Z.mod_add by lia.
  - rewrite Hm.
    replace (n - ((n + 3) mod 7 - 1) + 3) with (1 + (n + 3) / 7 * 7) by lia.
    now rewrite Z.mod_add by lia.
Qed.

Lemma iso_monday_is_monday n :
  weekday_of_days (iso_monday_days n) = 0
  /\ n - 6 <= iso_monday_days n <= n.
Proof.
  unfold iso_monday_days, weekday_of_days.
  pose proof (Z.mod_pos_bound (n + 3) 7 ltac:(lia)) as Hwd.
  pose proof (Z.div_mod (n + 3) 7 ltac:(lia)) as Hdm.
  split; [|lia].
  replace (n - (n + 3) mod 7 + 3) with (0 + (n + 3) / 7 * 7) by lia.
  now rewrite Z.mod_add by lia.
Qed.

Lemma w_mon_start_never_iso_monday n : w_mon_start_days n <> iso_monday_days n.
Proof.
  intros Heq.
  pose proof (proj1 (w_mon_start_is_tuesday n)) as Ht.
  pose proof (proj1 (iso_monday_is_monday n)) as Hm.
  rewrite Heq in Ht. lia.
Qed.

(** Every row of the finished ledger comes from a game of the input, and
    its period columns are computed from its own [date] alone. *)
Lemma compute_master_rows to_datetime cfg games lr :
  In lr (compute_master to_datetime cfg (Some games)) ->
  (exists g, In g games
             /\ In (row lr) (game_rows (load_scoring_weights cfg) g))
  /\ week_start lr = to_period_w_mon_start <$> to_datetime (r_date (row lr))
  /\ month_start lr = to_period_m_start <$> to_datetime (r_date (row lr)).
Proof.
  unfold compute_master. cbn [default].
  destruct games as [|g0 gs]; [intros []|].
  intros Hin.
  apply (Permutation_in _ (FrameProps.sort_by_perm _ _)) in Hin.
  apply in_map_iff in Hin. destruct Hin as (r & <- & Hr).
  unfold ledger_rows in Hr. apply in_concat in Hr.
  destruct Hr as (rows & Hrows & Hr).
  apply in_map_iff in Hrows. destruct Hrows as (g & <- & Hg).
  split; [exists g; auto | split; reflexivity].
Qed.

Lemma compute_master_length to_datetime cfg games :
  List.length (compute_master to_datetime cfg (Some games))
  = (2 * List.length games)%nat.
Proof.
  unfold compute_master. cbn [default].
  destruct games as [|g0 gs]; [reflexivity|].
  etransitivity; [apply Permutation_length, FrameProps.sort_by_perm|].
  rewrite length_map. apply LedgerProps.ledger_rows_length.
Qed.

(** The month column is the first day of the month of the date. *)
Lemma month_start_first_of_month d :
  year (to_period_m_start d) = year d
  /\ month (to_period_m_start d) = month d
  /\ day (to_period_m_start d) = 1.
Proof. repeat split. Qed.

(** C5. The claim asks that [week_start] be the Monday that starts the ISO
    week of the row's date. The code takes the start of the pandas period
    [W-MON], a week that ENDS on a Monday: for the game of Wednesday
    2023-03-01 both ledger rows get [week_start] 2023-02-28, a Tuesday,
    where the Monday of that ISO week is 2023-02-27; the start the code
    computes is a Tuesday for every day number and never the ISO Monday.
    [month_start] is the first of the month, as claimed. *)
Theorem C5_week_start_is_not_iso_monday :
  List.map week_start
           (compute_master iso_date None (Some [vegas_toronto_game]))
  = [Some (mkDate 2023 2 28); Some (mkDate 2023 2 28)]
  /\ List.map month_start
              (compute_master iso_date None (Some [vegas_toronto_game]))
     = [Some (mkDate 2023 3 1); Some (mkDate 2023 3 1)]
  /\ weekday (mkDate 2023 3 1) = 2
  /\ weekday (mkDate 2023 2 28) = 1
  /\ iso_week_monday (mkDate 2023 3 1) = mkDate 2023 2 27
  /\ (forall n, weekday_of_days (w_mon_start_days n) = 1
                /\ w_mon_start_days n <> iso_monday_days n).
Proof.
  repeat split; try (vm_compute; reflexivity).
  - apply w_mon_start_is_tuesday.
  - apply w_mon_start_never_iso_monday.
Qed.

End PeriodProps.

(** ** Splitting a full team name into city and nickname *)
Module SplitProps.
Import PyStr Ledger Tables Nhl.

Lemma chars_str l : chars (str l) = l.
Proof. apply list_ascii_of_string_of_list_ascii. Qed.

Lemma str_chars s : str (chars s) = s.
Proof. apply string_of_list_ascii_of_string. Qed.

Lemma chars_inj a b : chars a = chars b -> a = b.
Proof. intros H. rewrite <- (str_chars a), <- (str_chars b). now rewrite H. Qed.

Lemma chars_app a b : chars (a +:+ b) = chars a ++ chars b.
Proof.
  unfold chars. induction a as [|c a IH]; [reflexivity|].
  change (c :: list_ascii_of_string (a +:+ b)
          = c :: (list_ascii_of_string a ++ list_ascii_of_string b)).
  now rewrite IH.
Qed.

Lemma chars_length s : List.length (chars s) = String.length s.
Proof.
  unfold chars. induction s as [|c s IH]; cbn; [reflexivity|]. now rewrite IH.
Qed.

Lemma prefix_b_app p l : prefix_b p l = true -> exists t, l = p ++ t.
Proof.
  revert l. induction p as [|a p IH]; intros l H; [now exists l|].
  destruct l as [|b l]; [discriminate|]. cbn in H.
  apply andb_true_iff in H. destruct H as [Hab Hp].
  apply Ascii.eqb_eq in Hab. subst b.
  destruct (IH _ Hp) as [t ->]. now exists t.
Qed.

Lemma prefix_b_common p q l :
  prefix_b p l = true -> prefix_b q l = true ->
  prefix_b p q = true \/ prefix_b q p = true.
Proof.
  revert q l. induction p as [|a p IH]; intros q l Hp Hq; [now left|].
  destruct q as [|b q]; [now right|].
  destruct l as [|c l]; [discriminate|]. cbn in Hp, Hq |- *.
  apply andb_true_iff in Hp. destruct Hp as [Hac Hp].
  apply andb_true_iff in Hq. destruct Hq as [Hbc Hq].
  apply Ascii.eqb_eq in Hac. apply Ascii.eqb_eq in Hbc. subst a b.
  rewrite Ascii.eqb_refl. cbn. eauto.
Qed.

(** A name that ends with a nickname is a prefix followed by it. *)
Lemma endswith_split name nick :
  endswith name nick = true ->
  name = drop_last (String.length nick) name +:+ nick.
Proof.
  unfold endswith, drop_last. intros H.
  apply prefix_b_app in H. destruct H as [t Ht].
  assert (Hn : chars name = rev t ++ chars nick).
  { rewrite <- (rev_involutive (chars name)), Ht, rev_app_distr.
    now rewrite rev_involutive. }
  apply chars_inj. rewrite chars_app, chars_str, Hn, length_app, chars_length.
  replace (List.length (rev t) + String.length nick - String.length nick)%nat
    with (List.length (rev t)) by lia.
  now rewrite take_app_length.
Qed.

Lemma suffix_free_unique nicknames name n1 n2 :
  suffix_free nicknames = true ->
  In n1 nicknames -> In n2 nicknames ->
  endswith name n1 = true -> endswith name n2 = true -> n1 = n2.
Proof.
  unfold suffix_free, endswith. intros Hfree H1 H2 E1 E2.
  rewrite forallb_forall in Hfree.
  pose proof (Hfree _ H1) as F1. rewrite forallb_forall in F1.
  pose proof (Hfree _ H2) as F2. rewrite forallb_forall in F2.
  specialize (F1 _ H2). specialize (F2 _ H1).
  destruct (String.eqb_spec n1 n2) as [|Hne]; [assumption|].
  destruct (String.eqb_spec n2 n1) as [|_]; [congruence|].
  cbn in F1, F2. apply negb_true_iff in F1, F2.
  destruct (prefix_b_common _ _ _ E1 E2); congruence.
Qed.

Lemma find_endswith nicknames name nick :
  suffix_free nicknames = true -> In nick nicknames ->
  endswith name nick = true ->
  List.find (endswith name) nicknames = Some nick.
Proof.
  intros Hfree Hin He.
  destruct (List.find (endswith name) nicknames) as [n|] eqn:Hf.
  - apply find_some in Hf. destruct Hf as [Hn Hen].
    f_equal. eapply suffix_free_unique; eauto.
  - pose proof (find_none _ _ Hf _ Hin). cbn in *. congruence.
Qed.

Lemma find_endswith_none nicknames name :
  (forall nick, In nick nicknames -> endswith name nick = false) ->
  List.find (endswith name) nicknames = None.
Proof.
  intros H. destruct (List.find (endswith name) nicknames) as [n|] eqn:Hf;
    [|reflexivity].
  apply find_some in Hf. destruct Hf as [Hn He]. rewrite (H _ Hn) in He.
  discriminate.
Qed.

Lemma lstrip_l_head l c t : lstrip_l l = c :: t -> is_space c = false.
Proof.
  induction l as [|x l IH]; cbn; [discriminate|].
  destruct (is_space x) eqn:Hx; [assumption|].
  intros [= <- _]. assumption.
Qed.

(** A stripped string does not end with a space: the second trimming in
    [split_city_team] never fires. *)
Lemma strip_not_endswith_space s : endswith (strip s) " " = false.
Proof.
  unfold endswith, strip, strip_l. rewrite chars_str, rev_involutive.
  destruct (lstrip_l (rev (lstrip_l (chars s)))) as [|c t] eqn:Hl;
    [reflexivity|].
  apply lstrip_l_head in Hl.
  change (Ascii.eqb " "%char c && true = false).
  destruct (Ascii.eqb_spec " "%char c) as [<-|]; [discriminate|reflexivity].
Qed.

Lemma rsplit1_l_none l : infix_b [space] l = false <-> rsplit1_l l = None.
Proof.
  induction l as [|c l IH]; cbn [rsplit1_l infix_b prefix_b]; [cbn; tauto|].
  rewrite orb_false_iff, andb_true_r, (Ascii.eqb_sym space c).
  destruct (rsplit1_l l) as [[a b]|]; destruct (Ascii.eqb c space);
    intuition congruence.
Qed.

Lemma rsplit1_l_last a b :
  rsplit1_l b = None -> rsplit1_l (a ++ space :: b) = Some (a, b).
Proof.
  intros Hb. induction a as [|c a IH]; cbn [rsplit1_l app].
  - rewrite Hb. now rewrite Ascii.eqb_refl.
  - now rewrite IH.
Qed.

(** The split, case by case, for any nickname list in which no entry is a
    suffix of another. *)
Lemma split_city_team_with_cases nicknames full_name :
  suffix_free nicknames = true ->
  let name := strip full_name in
  name <> "" ->
  (forall nick, In nick nicknames -> endswith name nick = true ->
     exists prefix,
       name = prefix +:+ nick
       /\ split_city_team_with nicknames full_name = (strip prefix, nick))
  /\ ((forall nick, In nick nicknames -> endswith name nick = false) ->
      (forall a b, name = a +:+ " " +:+ b -> contains " " b = false ->
                   split_city_team_with nicknames full_name = (a, b))
      /\ (contains " " name = false ->
          split_city_team_with nicknames full_name = (name, ""))).
Proof.
  intros Hfree name Hne. unfold split_city_team_with. fold name.
  destruct (String.eqb_spec name "") as [|_]; [contradiction|].
  split.
  - intros nick Hin He. rewrite (find_endswith _ _ _ Hfree Hin He).
    exists (drop_last (String.length nick) name). split.
    + now apply endswith_split.
    + now rewrite strip_not_endswith_space.
  - intros Hnone. rewrite (find_endswith_none _ _ Hnone). split.
    + intros a b Hab Hb. unfold contains in Hb. cbn [chars list_ascii_of_string] in Hb.
      apply rsplit1_l_none in Hb.
      assert (Hc : chars name = chars a ++ space :: chars b).
      { rewrite Hab, !chars_app. reflexivity. }
      rewrite Hc, (rsplit1_l_last _ _ Hb). now rewrite !str_chars.
    + intros Hs. unfold contains in Hs. cbn [chars list_ascii_of_string] in Hs.
      apply rsplit1_l_none in Hs. now rewrite Hs.
Qed.

(** C9. For every full team name that is non-empty once trimmed, the split
    returns (prefix, nickname) with the curated multi-word nickname that
    the name ends with, whichever order the curated set is walked in (no
    entry is a suffix of another, so a match is the longest match); when no
    curated nickname ends the name, the name is split at its last space,
    and a name without a space is returned whole with an empty nickname.
    "Vegas Golden Knights" gives city "Vegas", "Toronto Maple Leafs" gives
    city "Toronto". *)
Theorem C9_split_city_team_suffix_then_last_space (full_name : string) :
  let name := strip full_name in
  name <> "" ->
  (forall nick, In nick MULTIWORD_NICKNAMES -> endswith name nick = true ->
     exists prefix,
       name = prefix +:+ nick
       /\ split_city_team full_name = (strip prefix, nick))
  /\ ((forall nick, In nick MULTIWORD_NICKNAMES -> endswith name nick = false) ->
      (forall a b, name = a +:+ " " +:+ b -> contains " " b = false ->
                   split_city_team full_name = (a, b))
      /\ (contains " " name = false ->
          split_city_team full_name = (name, "")))
  /\ suffix_free MULTIWORD_NICKNAMES = true
  /\ split_city_team "Vegas Golden Knights" = ("Vegas", "Golden Knights")
  /\ split_city_team "Toronto Maple Leafs" = ("Toronto", "Maple Leafs").
Proof.
  intros name Hne.
  destruct (split_city_team_with_cases MULTIWORD_NICKNAMES full_name
              eq_refl Hne) as [Hmatch Hfallback].
  split; [exact Hmatch|]. split; [exact Hfallback|].
  repeat split; vm_compute; reflexivity.
Qed.

Lemma C9_split_city_team_suffix_then_last_space_witness :
  strip " New York Rangers " <> ""
  /\ split_city_team " New York Rangers " = ("New York", "Rangers").
Proof.
  assert (Hne : strip " New York Rangers " <> "") by (vm_compute; discriminate).
  split; [exact Hne|].
  destruct (C9_split_city_team_suffix_then_last_space " New York Rangers " Hne)
    as (_ & Hfallback & _).
  apply Hfallback.
  - intros nick Hin. cbn in Hin.
    repeat (destruct Hin as [<- | Hin]; [vm_compute; reflexivity|]).
    destruct Hin.
  - vm_compute. reflexivity.
  - vm_compute. reflexivity.
Defined.

(** X7. The same function serves the NFL names with its own nickname set: a
    name that ends with a listed nickname is cut there and the rest is
    trimmed; any other name is cut at its last space, and a name without a
    space is a city with an empty nickname. *)
Lemma split_city_team_nfl_cases full_name :
  let name := strip full_name in
  name <> "" ->
  (forall nick, In nick MULTIWORD_NICKNAMES_NFL -> endswith name nick = true ->
     exists prefix,
       name = prefix +:+ nick
       /\ split_city_team_with MULTIWORD_NICKNAMES_NFL full_name
          = (strip prefix, nick))
  /\ ((forall nick, In nick MULTIWORD_NICKNAMES_NFL ->
                    endswith name nick = false) ->
      (forall a b, name = a +:+ " " +:+ b -> contains " " b = false ->
                   split_city_team_with MULTIWORD_NICKNAMES_NFL full_name = (a, b))
      /\ (contains " " name = false ->
          split_city_team_with MULTIWORD_NICKNAMES_NFL full_name = (name, ""))).
Proof. apply split_city_team_with_cases. reflexivity. Qed.

End SplitProps.

(** ** NBA games in the ledger *)
Module NbaProps.
Import PyStr Ledger Tables Nba.

Lemma new_game_scores_empty abbrev_to_team_id m :
  home_score (new_game abbrev_to_team_id m) = Empty
  /\ away_score (new_game abbrev_to_team_id m) = Empty.
Proof. split; reflexivity. Qed.

(** C10. Every [Game] row emitted by the NBA loader has empty [home_score]
    and [away_score], whatever [winning_team_id] it records; the ledger
    computation therefore gives both perspectives of every such game
    result "", [index_score] 0 and [weighted_score] 0, in the loop and in
    the finished ledger. *)
Theorem C10_nba_games_are_always_incomplete
        (abbrev_to_team_id : gmap string string) (games : list MergedGame)
        (g : Game) :
  In g (new_games abbrev_to_team_id games) ->
  home_score g = Empty /\ away_score g = Empty
  /\ (forall weights r, In r (game_rows weights g) ->
        result r = "" /\ index_score r = 0 /\ weighted_score r = 0)
  /\ (forall to_datetime cfg lr,
        In lr (compute_master to_datetime cfg
                              (Some (new_games abbrev_to_team_id games))) ->
        result (row lr) = "" /\ index_score (row lr) = 0
        /\ weighted_score (row lr) = 0).
Proof.
  intros Hin.
  assert (Hall : forall g', In g' (new_games abbrev_to_team_id games) ->
            forall weights r, In r (game_rows weights g') ->
              result r = "" /\ index_score r = 0 /\ weighted_score r = 0).
  { intros g' Hg' weights r Hr.
    apply in_map_iff in Hg'. destruct Hg' as (m & <- & _).
    apply (LedgerProps.incomplete_rows_neutral
             weights (new_game abbrev_to_team_id m) r); [|exact Hr].
    left. reflexivity. }
  split; [|split; [|split]].
  - apply in_map_iff in Hin. now destruct Hin as (m & <- & _).
  - apply in_map_iff in Hin. now destruct Hin as (m & <- & _).
  - intros weights r Hr. exact (Hall _ Hin _ _ Hr).
  - intros to_datetime cfg lr Hlr.
    destruct (PeriodProps.compute_master_rows _ _ _ _ Hlr)
      as ((g' & Hg' & Hr) & _).
    exact (Hall _ Hg' _ _ Hr).
Qed.

Lemma C10_nba_games_are_always_incomplete_witness :
  winning_team_id (new_game ∅ denver_lakers) = "nba_DEN"
  /\ home_score (new_game ∅ denver_lakers) = Empty
  /\ List.map (fun r => (result r, index_score r, weighted_score r))
              (game_rows default_weights (new_game ∅ denver_lakers))
     = [("", 0, 0); ("", 0, 0)].
Proof.
  destruct (C10_nba_games_are_always_incomplete
              ∅ [denver_lakers] (new_game ∅ denver_lakers))
    as (Hh & _ & _ & _).
  { left. reflexivity. }
  split; [reflexivity|]. split; [exact Hh|]. reflexivity.
Defined.

End NbaProps.

(** ** Re-ingestion by the NHL loader *)
Module IngestProps.
Import PyStr Ledger Tables Nhl.

Local Abbreviation ids := (List.map game_id).

Lemma drop_duplicates_from_seen seen (m : list Game) :
  (forall g, In g m -> game_id g ∈ seen) -> drop_duplicates_from seen m = [].
Proof.
  induction m as [|g m IH]; intros Hall; cbn; [reflexivity|].
  destruct (decide (game_id g ∈ seen)) as [_|Hn].
  - apply IH. intros g' Hg'. apply Hall. now right.
  - exfalso. apply Hn, Hall. now left.
Qed.

(** Rows whose id is already known add nothing at the end of the frame. *)
Lemma drop_duplicates_from_app_known seen (l m : list Game) :
  (forall g, In g m -> game_id g ∈ seen \/ In (game_id g) (ids l)) ->
  drop_duplicates_from seen (l ++ m) = drop_duplicates_from seen l.
Proof.
  revert seen. induction l as [|x l IH]; intros seen Hall.
  - cbn. apply drop_duplicates_from_seen. intros g Hg.
    destruct (Hall g Hg) as [H | []]. exact H.
  - cbn. destruct (decide (game_id x ∈ seen)) as [Hx|Hx].
    + apply IH. intros g Hg. destruct (Hall g Hg) as [H | [H | H]]; auto.
      left. now rewrite <- H.
    + f_equal. apply IH. intros g Hg.
      destruct (Hall g Hg) as [H | [H | H]]; auto; left; set_solver.
Qed.

(** A frame without repeated ids, none of them seen before, is kept whole. *)
Lemma drop_duplicates_from_nodup seen (l : list Game) :
  NoDup (ids l) -> (forall g, In g l -> game_id g ∉ seen) ->
  drop_duplicates_from seen l = l.
Proof.
  revert seen. induction l as [|x l IH]; intros seen Hnd Hfresh; [reflexivity|].
  cbn in Hnd |- *. apply NoDup_cons in Hnd. destruct Hnd as [Hx Hnd].
  destruct (decide (game_id x ∈ seen)) as [Hs|_].
  - exfalso. apply (Hfresh x); [now left | exact Hs].
  - f_equal. apply IH; [exact Hnd|]. intros g Hg Hin.
    apply elem_of_union in Hin. destruct Hin as [Hin|Hin].
    + apply elem_of_singleton in Hin. apply Hx. rewrite <- Hin.
      apply list_elem_of_In, in_map, Hg.
    + apply (Hfresh g); [now right | exact Hin].
Qed.

Lemma drop_duplicates_from_ids seen (l : list Game) x :
  In x (ids (drop_duplicates_from seen l)) <-> In x (ids l) /\ x ∉ seen.
Proof.
  revert seen. induction l as [|g l IH]; intros seen; cbn; [tauto|].
  destruct (decide (game_id g ∈ seen)) as [Hs|Hs].
  - rewrite IH. split; [tauto|]. intros [[<- | H] Hn]; tauto.
  - cbn. rewrite IH. split.
    + intros [<- | [H Hn]]; [tauto|]. split; [tauto | set_solver].
    + intros [[<- | H] Hn]; [tauto|].
      destruct (decide (x = game_id g)) as [->|Hne]; [tauto|].
      right. split; [exact H | set_solver].
Qed.

Lemma drop_duplicates_from_NoDup seen (l : list Game) :
  NoDup (ids (drop_duplicates_from seen l)).
Proof.
  revert seen. induction l as [|g l IH]; intros seen; cbn; [constructor|].
  destruct (decide (game_id g ∈ seen)) as [Hs|Hs]; [apply IH|].
  cbn. apply NoDup_cons. split; [|apply IH].
  intros Hin. apply list_elem_of_In, drop_duplicates_from_ids in Hin.
  destruct Hin as [_ Hn]. set_solver.
Qed.

(** Keep-first: rows stored before stay where they are, unchanged. *)
Lemma drop_duplicates_keeps_stored (stored new : list Game) :
  NoDup (ids stored) ->
  exists added, drop_duplicates (stored ++ new) = stored ++ added
                /\ forall g, In g added -> In g new /\ ~ In (game_id g) (ids stored).
Proof.
  unfold drop_duplicates.
  assert (Hgen : forall seen (l : list Game),
             NoDup (ids l) -> (forall g, In g l -> game_id g ∉ seen) ->
             drop_duplicates_from seen (l ++ new)
             = l ++ drop_duplicates_from (list_to_set (ids l) ∪ seen) new).
  { clear. intros seen l. revert seen.
    induction l as [|x l IH]; intros seen Hnd Hfresh.
    - cbn. f_equal. set_solver.
    - cbn in Hnd |- *. apply NoDup_cons in Hnd. destruct Hnd as [Hx Hnd].
      destruct (decide (game_id x ∈ seen)) as [Hs|_].
      + exfalso. apply (Hfresh x); [now left | exact Hs].
      + f_equal. rewrite IH; [f_equal; f_equal; set_solver | exact Hnd |].
        intros g Hg Hin. apply elem_of_union in Hin. destruct Hin as [Hin|Hin].
        * apply elem_of_singleton in Hin. apply Hx. rewrite <- Hin.
          apply list_elem_of_In, in_map, Hg.
        * apply (Hfresh g); [now right | exact Hin]. }
  intros Hnd.
  exists (drop_duplicates_from (list_to_set (ids stored) ∪ ∅) new). split.
  - apply Hgen; [exact Hnd | set_solver].
  - intros g Hg. split.
    + clear -Hg. revert Hg. generalize (list_to_set (ids stored) ∪ ∅ : gset string).
      induction new as [|y new IH]; intros seen; cbn; [tauto|].
      destruct (decide (game_id y ∈ seen)).
      * intros H. right. eapply IH, H.
      * intros [<- | H]; [now left|]. right. eapply IH, H.
    + assert (Hi : In (game_id g)
                      (ids (drop_duplicates_from (list_to_set (ids stored) ∪ ∅) new)))
        by now apply in_map.
      apply drop_duplicates_from_ids in Hi. destruct Hi as [_ Hn].
      intros Hin. apply Hn. apply elem_of_union_l, elem_of_list_to_set.
      now apply list_elem_of_In.
Qed.

(** X4. The append-and-dedupe step keeps a stored [Game] table without
    repeated ids as it is, row for row and in order; what it adds after it
    are rows of the new batch whose [game_id] is not stored yet. *)
Lemma merge_games_keeps_stored (stored new : list Game) :
  NoDup (ids stored) ->
  exists added, merge_games stored new = stored ++ added
                /\ forall g, In g added -> In g new /\ ~ In (game_id g) (ids stored).
Proof.
  intros Hnd. unfold merge_games.
  destruct new as [|n new]; [exists []; rewrite app_nil_r; now split|].
  destruct stored as [|x stored].
  - exists (n :: new). split; [reflexivity|]. intros g Hg. split; [exact Hg|tauto].
  - now apply drop_duplicates_keeps_stored.
Qed.

Lemma merge_games_nodup_nonempty (stored new : list Game) :
  stored <> [] -> new <> [] -> NoDup (ids (merge_games stored new)).
Proof.
  intros Hs Hn. unfold merge_games.
  destruct new as [|n new]; [contradiction|].
  destruct stored as [|x stored]; [contradiction|].
  apply drop_duplicates_from_NoDup.
Qed.

(** *** The city and team bookkeeping of the loop *)

Lemma ensure_city_covered city city_id (st : gset string * list City) :
  city = "" \/ city_id ∈ st.1 -> ensure_city city city_id st = st.
Proof.
  intros H. unfold ensure_city.
  destruct (String.eqb_spec city "") as [|Hne]; [reflexivity|].
  destruct H as [H|H]; [contradiction|].
  now rewrite bool_decide_eq_true_2.
Qed.

Lemma ensure_city_spec city city_id (st : gset string * list City) :
  let st' := ensure_city city city_id st in
  st.1 ⊆ st'.1
  /\ (city = "" \/ city_id ∈ st'.1)
  /\ exists added, st'.2 = st.2 ++ added
                   /\ st'.1 = list_to_set (List.map c_city_id added) ∪ st.1.
Proof.
  unfold ensure_city.
  destruct (String.eqb_spec city "") as [Hc|Hc]; cbn.
  - repeat split; [set_solver | now left |].
    exists []. rewrite app_nil_r. split; [reflexivity | set_solver].
  - destruct (bool_decide (city_id ∈ st.1)) eqn:Hb; cbn.
    + apply bool_decide_eq_true in Hb.
      repeat split; [set_solver | now right |].
      exists []. rewrite app_nil_r. split; [reflexivity | set_solver].
    + repeat split; [set_solver | right; set_solver |].
      eexists. split; [reflexivity|]. cbn. set_solver.
Qed.

Lemma ensure_team_covered team_id full city_id city nick
      (st : gset string * list Team) :
  team_id ∈ st.1 -> ensure_team team_id full city_id city nick st = st.
Proof. intros H. unfold ensure_team. now rewrite bool_decide_eq_true_2. Qed.

Lemma ensure_team_spec team_id full city_id city nick
      (st : gset string * list Team) :
  let st' := ensure_team team_id full city_id city nick st in
  st.1 ⊆ st'.1 /\ team_id ∈ st'.1
  /\ exists added, st'.2 = st.2 ++ added
                   /\ st'.1 = list_to_set (List.map t_team_id added) ∪ st.1
                   /\ Forall (fun t => t_team_id t = team_id) added.
Proof.
  unfold ensure_team.
  destruct (bool_decide (team_id ∈ st.1)) eqn:Hb; cbn.
  - apply bool_decide_eq_true in Hb. repeat split; [set_solver | exact Hb |].
    exists []. rewrite app_nil_r. repeat split; [set_solver | constructor].
  - repeat split; [set_solver | set_solver |].
    eexists. split; [reflexivity|]. cbn. split; [set_solver|].
    repeat constructor.
Qed.

Lemma ensure_cities_covered r (st : gset string * list City) :
  cities_covered r st.1 -> ensure_cities r st = st.
Proof.
  intros [Ha Hh]. unfold ensure_cities.
  rewrite (ensure_city_covered _ _ st Ha). now apply ensure_city_covered.
Qed.

Lemma ensure_cities_spec r (st : gset string * list City) :
  let st' := ensure_cities r st in
  st.1 ⊆ st'.1 /\ cities_covered r st'.1
  /\ exists added, st'.2 = st.2 ++ added
                   /\ st'.1 = list_to_set (List.map c_city_id added) ∪ st.1.
Proof.
  unfold ensure_cities, cities_covered.
  generalize ((split_city_team (away_full r)).1) as ac.
  generalize ((split_city_team (home_full r)).1) as hc. intros hc ac.
  destruct (ensure_city_spec ac (slugify ac) st) as (S1 & C1 & a1 & L1 & E1).
  destruct (ensure_city_spec hc (slugify hc) (ensure_city ac (slugify ac) st))
    as (S2 & C2 & a2 & L2 & E2).
  cbn zeta in *.
  revert S1 C1 L1 E1 S2 C2 L2 E2.
  generalize (ensure_city hc (slugify hc) (ensure_city ac (slugify ac) st)) as st2.
  generalize (ensure_city ac (slugify ac) st) as st1.
  generalize (slugify ac) as ia. generalize (slugify hc) as ih.
  intros ih ia st1 st2 S1 C1 L1 E1 S2 C2 L2 E2.
  split; [|split; [split|]].
  - etransitivity; eassumption.
  - destruct C1 as [C1|C1]; [now left | right; now apply S2].
  - exact C2.
  - exists (a1 ++ a2). rewrite L2, L1, E2, E1, map_app, <- app_assoc.
    split; [reflexivity|]. rewrite list_to_set_app_L. clear. set_solver.
Qed.

Lemma cities_fold_covered rows (st : gset string * list City) :
  (forall r, In r rows -> cities_covered r st.1) ->
  fold_left (fun s r => ensure_cities r s) rows st = st.
Proof.
  induction rows as [|r rows IH]; intros Hall; [reflexivity|]. cbn.
  rewrite ensure_cities_covered by (apply Hall; now left).
  apply IH. intros r' Hr'. apply Hall. now right.
Qed.

Lemma cities_covered_mono r (S S' : gset string) :
  S ⊆ S' -> cities_covered r S -> cities_covered r S'.
Proof.
  unfold cities_covered. intros Hsub [Ha Hh]. split.
  - destruct Ha as [Ha|Ha]; [now left | right; now apply Hsub].
  - destruct Hh as [Hh|Hh]; [now left | right; now apply Hsub].
Qed.

Lemma cities_fold_spec rows (st : gset string * list City) :
  let st' := fold_left (fun s r => ensure_cities r s) rows st in
  st.1 ⊆ st'.1 /\ (forall r, In r rows -> cities_covered r st'.1)
  /\ exists added, st'.2 = st.2 ++ added
                   /\ st'.1 = list_to_set (List.map c_city_id added) ∪ st.1.
Proof.
  revert st. induction rows as [|r rows IH]; intros st; cbn.
  - split; [reflexivity|]. split; [intros r []|].
    exists []. rewrite app_nil_r. split; [reflexivity|]. cbn. clear. set_solver.
  - destruct (ensure_cities_spec r st) as (S1 & C1 & a1 & L1 & E1).
    destruct (IH (ensure_cities r st)) as (S2 & C2 & a2 & L2 & E2).
    cbn zeta in *. split; [|split].
    + etransitivity; eassumption.
    + intros r' [<- | Hr']; [|now apply C2].
      eapply cities_covered_mono; [exact S2 | exact C1].
    + exists (a1 ++ a2). rewrite L2, L1, E2, E1, map_app, <- app_assoc.
      split; [reflexivity|]. rewrite list_to_set_app_L. clear. set_solver.
Qed.

Lemma ensure_teams_covered r (st : gset string * list Team) :
  teams_covered r st.1 -> ensure_teams r st = st.
Proof.
  intros [Ha Hh]. unfold ensure_teams.
  destruct (split_city_team (away_full r)) as [ac an].
  destruct (split_city_team (home_full r)) as [hc hn].
  rewrite (ensure_team_covered _ _ _ _ _ st Ha). now apply ensure_team_covered.
Qed.

Lemma str_field_nhl x : str_field ("nhl_" +:+ x) = "nhl_" +:+ x.
Proof. reflexivity. Qed.

Lemma ensure_teams_spec r (st : gset string * list Team) :
  let st' := ensure_teams r st in
  st.1 ⊆ st'.1 /\ teams_covered r st'.1
  /\ exists added, st'.2 = st.2 ++ added
                   /\ st'.1 = list_to_set (List.map t_team_id added) ∪ st.1
                   /\ Forall (fun t => str_field (t_team_id t) = t_team_id t) added.
Proof.
  unfold ensure_teams, teams_covered.
  destruct (split_city_team (away_full r)) as [ac an].
  destruct (split_city_team (home_full r)) as [hc hn].
  destruct (ensure_team_spec (away_team_id_of r) (away_full r) (slugify ac) ac an st)
    as (S1 & C1 & a1 & L1 & E1 & F1).
  destruct (ensure_team_spec (home_team_id_of r) (home_full r) (slugify hc) hc hn
              (ensure_team (away_team_id_of r) (away_full r) (slugify ac) ac an st))
    as (S2 & C2 & a2 & L2 & E2 & F2).
  cbn zeta in *.
  assert (F1' : Forall (fun t => str_field (t_team_id t) = t_team_id t) a1).
  { eapply Forall_impl; [exact F1|]. intros t ->. apply str_field_nhl. }
  assert (F2' : Forall (fun t => str_field (t_team_id t) = t_team_id t) a2).
  { eapply Forall_impl; [exact F2|]. intros t ->. apply str_field_nhl. }
  clear F1 F2.
  revert S1 C1 L1 E1 S2 C2 L2 E2.
  generalize (ensure_team (home_team_id_of r) (home_full r) (slugify hc) hc hn
                (ensure_team (away_team_id_of r) (away_full r) (slugify ac) ac an st))
    as st2.
  generalize (ensure_team (away_team_id_of r) (away_full r) (slugify ac) ac an st)
    as st1.
  generalize (away_team_id_of r) as ia. generalize (home_team_id_of r) as ih.
  intros ih ia st1 st2 S1 C1 L1 E1 S2 C2 L2 E2.
  split; [|split; [split|]].
  - etransitivity; eassumption.
  - now apply S2.
  - exact C2.
  - exists (a1 ++ a2). rewrite L2, L1, E2, E1, map_app, <- app_assoc.
    split; [reflexivity|]. split; [|now apply Forall_app].
    rewrite list_to_set_app_L. clear. set_solver.
Qed.

Lemma teams_covered_mono r (S S' : gset string) :
  S ⊆ S' -> teams_covered r S -> teams_covered r S'.
Proof. unfold teams_covered. intros Hsub [Ha Hh]. split; now apply Hsub. Qed.

Lemma teams_fold_covered rows (st : gset string * list Team) :
  (forall r, In r rows -> teams_covered r st.1) ->
  fold_left (fun s r => ensure_teams r s) rows st = st.
Proof.
  induction rows as [|r rows IH]; intros Hall; [reflexivity|]. cbn.
  rewrite ensure_teams_covered by (apply Hall; now left).
  apply IH. intros r' Hr'. apply Hall. now right.
Qed.

Lemma teams_fold_spec rows (st : gset string * list Team) :
  let st' := fold_left (fun s r => ensure_teams r s) rows st in
  st.1 ⊆ st'.1 /\ (forall r, In r rows -> teams_covered r st'.1)
  /\ exists added, st'.2 = st.2 ++ added
                   /\ st'.1 = list_to_set (List.map t_team_id added) ∪ st.1
                   /\ Forall (fun t => str_field (t_team_id t) = t_team_id t) added.
Proof.
  revert st. induction rows as [|r rows IH]; intros st; cbn.
  - split; [reflexivity|]. split; [intros r []|].
    exists []. rewrite app_nil_r. split; [reflexivity|].
    split; [cbn; clear; set_solver | constructor].
  - destruct (ensure_teams_spec r st) as (S1 & C1 & a1 & L1 & E1 & F1).
    destruct (IH (ensure_teams r st)) as (S2 & C2 & a2 & L2 & E2 & F2).
    cbn zeta in *. split; [|split].
    + etransitivity; eassumption.
    + intros r' [<- | Hr']; [|now apply C2].
      eapply teams_covered_mono; [exact S2 | exact C1].
    + exists (a1 ++ a2). rewrite L2, L1, E2, E1, map_app, <- app_assoc.
      split; [reflexivity|]. split; [|now apply Forall_app].
      rewrite list_to_set_app_L. clear. set_solver.
Qed.

(** The loop keeps its three books independently of one another. *)
Lemma fold_step_books int_float rows st :
  let st' := fold_left (step int_float) rows st in
  (existing_city_ids st', new_city_rows st')
  = fold_left (fun s r => ensure_cities r s) rows
              (existing_city_ids st, new_city_rows st)
  /\ (existing_team_ids st', new_team_rows st')
     = fold_left (fun s r => ensure_teams r s) rows
                 (existing_team_ids st, new_team_rows st)
  /\ new_game_rows st' = new_game_rows st ++ List.map (game_row int_float) rows.
Proof.
  revert st. induction rows as [|r rows IH]; intros st; cbn.
  - rewrite app_nil_r. repeat split.
  - destruct (IH (step int_float st r)) as (Hc & Ht & Hg). cbn zeta in *.
    rewrite Hc, Ht, Hg. unfold step. cbn.
    repeat split.
    + f_equal. now destruct (ensure_cities r _).
    + f_equal. now destruct (ensure_teams r _).
    + now rewrite <- app_assoc.
Qed.

Lemma id_set_app (a b : list string) : id_set (a ++ b) = id_set a ∪ id_set b.
Proof. unfold id_set. now rewrite map_app, list_to_set_app_L. Qed.

Lemma id_set_plain (l : list string) :
  Forall (fun x => str_field x = x) l -> id_set l = list_to_set l.
Proof.
  unfold id_set. induction 1 as [|x l Hx _ IH]; [reflexivity|].
  cbn. now rewrite Hx, IH.
Qed.

Lemma str_field_nonempty x : x <> "" -> str_field x = x.
Proof. unfold str_field. now destruct (String.eqb_spec x ""). Qed.

(** X5. With a [Game] table that was not empty before the first run, the
    first run already removes every repeated id. *)
Lemma load_nhl_first_run_unique_ids int_float raw p :
  safe_read_csv raw <> [] -> safe_read_csv (games_csv p) <> [] ->
  NoDup (ids (safe_read_csv (games_csv (load_nhl int_float raw p)))).
Proof.
  intros Hraw Hg. unfold load_nhl.
  destruct (safe_read_csv raw) as [|r0 rows]; [contradiction|].
  cbn [games_csv safe_read_csv default]. cbv [id].
  apply merge_games_nodup_nonempty; [exact Hg|].
  destruct (fold_step_books int_float (r0 :: rows)
              (mkLoop (id_set (List.map c_city_id (safe_read_csv (cities_csv p))))
                      (id_set (List.map t_team_id (safe_read_csv (teams_csv p))))
                      [] [] [])) as (_ & _ & Hrows).
  cbn zeta in Hrows. unfold safe_read_csv in *. rewrite Hrows. discriminate.
Qed.

(** C1. The claim asks that a second run over the same raw input leave the
    [Game], [Team] and [City] tables as the first run wrote them. Starting
    without stored files, a raw file that lists the same game twice makes
    the first run store both rows (the branch for an empty [Game] table
    skips the de-duplication that the other branch performs); the second
    run then finds a non-empty table, de-duplicates, and stores one row:
    the [Game] table changes between the two runs. The [City] and [Team]
    tables stay the same. *)
Theorem C1_second_run_changes_game_table (int_float : string -> option Z) :
  let first := load_nhl int_float duplicated_raw no_files in
  let second := load_nhl int_float duplicated_raw first in
  List.length <$> games_csv first = Some 2%nat
  /\ List.length <$> games_csv second = Some 1%nat
  /\ ids <$> games_csv first
     = Some ["nhl_2023-03-01_vegas-golden-knights_toronto-maple-leafs";
             "nhl_2023-03-01_vegas-golden-knights_toronto-maple-leafs"]
  /\ games_csv second <> games_csv first
  /\ cities_csv second = cities_csv first
  /\ teams_csv second = teams_csv first.
Proof.
  cbv zeta.
  assert (H1 : load_nhl int_float duplicated_raw no_files
               = mkProcessed
                   (Some [mkCity "vegas" "Vegas" "" "USA" "vegas";
                          mkCity "toronto" "Toronto" "" "USA" "toronto"])
                   (Some [mkTeam "nhl_vegas-golden-knights" "Vegas Golden Knights"
                                 "nhl" "vegas" "Vegas" "" "" "Golden Knights";
                          mkTeam "nhl_toronto-maple-leafs" "Toronto Maple Leafs"
                                 "nhl" "toronto" "Toronto" "" "" "Maple Leafs"])
                   (Some [vegas_toronto_game; vegas_toronto_game]))
    by (vm_compute; reflexivity).
  rewrite H1.
  assert (H2 : games_csv
                 (load_nhl int_float duplicated_raw
                    (mkProcessed
                       (Some [mkCity "vegas" "Vegas" "" "USA" "vegas";
                              mkCity "toronto" "Toronto" "" "USA" "toronto"])
                       (Some [mkTeam "nhl_vegas-golden-knights"
                                     "Vegas Golden Knights"
                                     "nhl" "vegas" "Vegas" "" "" "Golden Knights";
                              mkTeam "nhl_toronto-maple-leafs" "Toronto Maple Leafs"
                                     "nhl" "toronto" "Toronto" "" "" "Maple Leafs"])
                       (Some [vegas_toronto_game; vegas_toronto_game])))
               = Some [vegas_toronto_game])
    by (vm_compute; reflexivity).
  rewrite H2.
  split; [reflexivity|]. split; [reflexivity|]. split; [reflexivity|].
  split; [discriminate|]. split; vm_compute; reflexivity.
Qed.

End IngestProps.

(** ** Rollups are exact *)
Module RollupProps.
Import PyStr Ledger Tables Rollups FrameProps.

Section GroupByProps.
Context {K : Type} `{EqDecision K}.
Variable leb : K -> K -> bool.
Variable key_of : LedgerRow -> option K.

Lemma group_keys_perm df :
  Permutation (group_keys leb key_of df) (remove_dups (omap key_of df)).
Proof. apply sort_by_perm. Qed.

Lemma group_keys_NoDup df : NoDup (group_keys leb key_of df).
Proof.
  rewrite group_keys_perm. apply NoDup_remove_dups.
Qed.

Lemma group_keys_In df k :
  In k (group_keys leb key_of df) <-> exists lr, In lr df /\ key_of lr = Some k.
Proof.
  split.
  - intros Hin. apply (Permutation_in _ (group_keys_perm df)) in Hin.
    apply list_elem_of_In, elem_of_remove_dups, list_elem_of_omap in Hin.
    destruct Hin as (lr & Hlr & Hk). exists lr.
    split; [now apply list_elem_of_In | exact Hk].
  - intros (lr & Hlr & Hk).
    apply (Permutation_in _ (Permutation_sym (group_keys_perm df))).
    apply list_elem_of_In, elem_of_remove_dups, list_elem_of_omap. exists lr.
    split; [now apply list_elem_of_In | exact Hk].
Qed.

Lemma keys_of_groupby df :
  List.map key (groupby_agg leb key_of df) = group_keys leb key_of df.
Proof.
  unfold groupby_agg. rewrite map_map. cbn. apply map_id.
Qed.

(** Summing the groups over duplicate-free keys that cover the keyed rows
    counts every keyed row once and no other row. *)
Lemma sum_of_groups (f : LedgerRow -> Z) keys df :
  NoDup keys -> (forall lr k, In lr df -> key_of lr = Some k -> In k keys) ->
  sumZ (List.map (fun k => sumZ (List.map f (group key_of k df))) keys)
  = sumZ (List.map f (List.filter (fun lr => bool_decide (is_Some (key_of lr))) df)).
Proof.
  intros Hnd. induction df as [|lr df IH]; intros Hcov.
  - cbn. clear. induction keys as [|k keys IH]; cbn; [reflexivity|].
    unfold sumZ in *. cbn. now rewrite IH.
  - assert (IH' := IH (fun x k Hx => Hcov x k (or_intror Hx))).
    cbn [List.filter]. destruct (key_of lr) as [k0|] eqn:Hk0.
    + rewrite bool_decide_eq_true_2 by eauto. cbn [List.map].
      rewrite (sumZ_ext _ (fun k => (if bool_decide (k0 = k) then f lr else 0)
                                    + sumZ (List.map f (group key_of k df)))).
      * rewrite sumZ_add, sumZ_indicator, IH';
          [unfold sumZ; cbn; lia | exact Hnd | apply (Hcov lr); [now left | exact Hk0]].
      * intros k _. unfold group. cbn [List.filter]. rewrite Hk0.
        destruct (decide (k0 = k)) as [-> | Hne].
        -- rewrite !bool_decide_eq_true_2 by reflexivity. unfold sumZ. cbn. lia.
        -- rewrite !bool_decide_eq_false_2 by congruence. unfold sumZ. cbn. lia.
    + rewrite bool_decide_eq_false_2 by (intros [x Hx]; discriminate).
      rewrite <- IH'. apply sumZ_ext. intros k _. unfold group. cbn [List.filter].
      rewrite Hk0. now rewrite bool_decide_eq_false_2 by discriminate.
Qed.

(** Grouping the ledger is an exact rollup for the key that the rows
    carry. *)
Lemma groupby_agg_exact master :
  exact_rollup key_of master (groupby_agg leb key_of master).
Proof.
  unfold exact_rollup. rewrite keys_of_groupby.
  split; [apply group_keys_NoDup|]. split; [|split].
  - intros ru Hru. unfold groupby_agg in Hru. apply in_map_iff in Hru.
    destruct Hru as (k & <- & Hk). unfold agg.
    cbn [key index_score_sum weighted_score_sum games]. cbv zeta.
    change (rows_with key_of k master) with (group key_of k master).
    split; [|repeat split].
    apply group_keys_In in Hk. destruct Hk as (lr & Hlr & Hkey).
    intros Hnil.
    assert (Hin : In lr (group key_of k master)).
    { unfold group. apply filter_In. split; [exact Hlr|].
      now apply bool_decide_eq_true_2. }
    rewrite Hnil in Hin. destruct Hin.
  - intros lr k Hlr Hk. apply group_keys_In. eauto.
  - cbv zeta. unfold groupby_agg. rewrite !map_map. cbn.
    assert (Hcov : forall lr k, In lr master -> key_of lr = Some k ->
                                In k (group_keys leb key_of master))
      by (intros lr k Hlr Hk; apply group_keys_In; eauto).
    split; [|split].
    + apply sum_of_groups; [apply group_keys_NoDup | exact Hcov].
    + apply sum_of_groups; [apply group_keys_NoDup | exact Hcov].
    + rewrite <- sumZ_ones.
      rewrite <- (sum_of_groups (fun _ => 1) (group_keys leb key_of master) master);
        [| apply group_keys_NoDup | exact Hcov].
      apply sumZ_ext. intros k _. now rewrite sumZ_ones.
Qed.

(** Dropping beforehand rows that have no key changes nothing. *)
Lemma groupby_agg_dropna (keep : LedgerRow -> bool) master :
  (forall lr, is_Some (key_of lr) -> keep lr = true) ->
  groupby_agg leb key_of (List.filter keep master) = groupby_agg leb key_of master.
Proof.
  intros Hkeep.
  assert (Hkeys : omap key_of (List.filter keep master) = omap key_of master).
  { induction master as [|lr master IH]; [reflexivity|]. cbn [List.filter].
    destruct (keep lr) eqn:Hk.
    - cbn [omap list_omap]. now rewrite IH.
    - cbn [omap list_omap]. destruct (key_of lr) as [k|] eqn:Hkey; [|exact IH].
      rewrite Hkeep in Hk by eauto. discriminate. }
  assert (Hgroup : forall k, group key_of k (List.filter keep master)
                             = group key_of k master).
  { intros k. unfold group. apply filter_filter_implied. intros lr Hlr.
    apply bool_decide_eq_true in Hlr. apply Hkeep. eauto. }
  unfold groupby_agg, group_keys. rewrite Hkeys. apply map_ext. intros k.
  now rewrite Hgroup.
Qed.
End GroupByProps.

Lemma exact_rollup_ext {K : Type} `{EqDecision K}
      (k1 k2 : LedgerRow -> option K) master out :
  (forall lr, k1 lr = k2 lr) -> exact_rollup k1 master out ->
  exact_rollup k2 master out.
Proof.
  intros Hext (Hnd & Hsum & Hcov & Htot). unfold exact_rollup.
  assert (Hrows : forall k, rows_with k2 k master = rows_with k1 k master).
  { intros k. unfold rows_with. apply List.filter_ext. intros lr.
    now rewrite Hext. }
  assert (Hkeyed : List.filter (fun lr => bool_decide (is_Some (k2 lr))) master
                   = List.filter (fun lr => bool_decide (is_Some (k1 lr))) master).
  { apply List.filter_ext. intros lr. now rewrite Hext. }
  split; [exact Hnd|]. split; [|split].
  - intros ru Hru. rewrite Hrows. now apply Hsum.
  - intros lr k Hlr Hk. apply (Hcov lr k Hlr). now rewrite Hext.
  - cbv zeta. rewrite Hkeyed. exact Htot.
Qed.

Lemma team_to_city_last teams k : team_to_city teams !! k = last_city teams k.
Proof.
  unfold team_to_city.
  assert (Hgen : forall (m : gmap string string),
            List.fold_left
              (fun m t => <[Csv.read_text (t_team_id t) := Csv.read_text (t_city_id t)]> m)
              teams m !! k
            = match last_city teams k with
              | Some c => Some c
              | None => m !! k
              end).
  { induction teams as [|t rest IH]; intros m; [reflexivity|].
    cbn [List.fold_left last_city]. rewrite IH.
    destruct (last_city rest k) as [c|]; [reflexivity|].
    destruct (String.eqb_spec (Csv.read_text (t_team_id t)) k) as [<- | Hne].
    - now rewrite lookup_insert_eq.
    - now rewrite lookup_insert_ne. }
  rewrite Hgen. destruct (last_city teams k); [reflexivity | apply lookup_empty].
Qed.

Lemma team_key_opt_key (p : LedgerRow -> period) lr :
  team_key p lr = team_key_opt p lr.
Proof.
  unfold team_key_opt, team_key, league_read, team_id_read.
  destruct (String.eqb (Csv.read_text (r_league (row lr))) "");
    destruct (String.eqb (Csv.read_text (team_id (row lr))) ""); reflexivity.
Qed.

Lemma city_key_opt_key (teams : list Team) (p : LedgerRow -> period) lr :
  city_key teams p lr = city_key_opt teams p lr.
Proof.
  unfold city_key_opt, city_key, city_id_of, team_id_read. rewrite team_to_city_last.
  destruct (last_city teams (Csv.read_text (team_id (row lr)))) as [c|];
    [|reflexivity].
  destruct (String.eqb c ""); reflexivity.
Qed.

(** C6 as stated fails: a ledger row whose league is missing is left out of
    the team rollups without notice. A game with an empty [league] field
    gets two ledger rows with the league text "nan", which reads back as
    NaN; of the four ledger rows of the two games the team rollup counts
    two. *)
Lemma C6_counterexample_missing_league :
  let master :=
    compute_master Dates.iso_date None (Some [vegas_toronto_game; no_league_game]) in
  List.map (fun lr => (r_league (row lr), team_id (row lr), index_score (row lr)))
           master
  = [("nhl", "nhl_toronto-maple-leafs", -1); ("nhl", "nhl_vegas-golden-knights", 1);
     ("nan", "nhl_boston-bruins", -1); ("nan", "nhl_calgary-flames", 1)]
  /\ exists out,
       compute_rollups (Some master) (Some sample_teams) = Some out
       /\ List.map (fun ru => (key ru, index_score_sum ru, games ru))
                   (team_rollup_weekly out)
          = [(("nhl", "nhl_toronto-maple-leafs", Some (Dates.mkDate 2023 2 28)), -1, 1);
             (("nhl", "nhl_vegas-golden-knights", Some (Dates.mkDate 2023 2 28)), 1, 1)]
       /\ sumZ (List.map games (team_rollup_weekly out)) = 2
       /\ Z.of_nat (List.length master) = 4.
Proof.
  cbv zeta. split; [vm_compute; reflexivity|].
  eexists. split; [vm_compute; reflexivity|].
  repeat split; vm_compute; reflexivity.
Qed.

Lemma compute_rollups_some master teams out :
  compute_rollups (Some master) (Some teams) = Some out ->
  out = mkOutputs
          (groupby_agg key3_leb (team_key week_start) master)
          (groupby_agg key3_leb (team_key month_start) master)
          (groupby_agg key2_leb (city_key teams week_start) (dropna_city teams master))
          (groupby_agg key2_leb (city_key teams month_start)
                       (dropna_city teams master)).
Proof.
  unfold compute_rollups. cbn [safe_read_csv default]. cbv [id].
  destruct master as [|lr0 master]; [discriminate|].
  destruct teams as [|t0 teams]; [discriminate|].
  now intros [= <-].
Qed.

(** C6 (amended). For every grouping key of the weekly and monthly rollups,
    by team and by city, the rollup row's [index_score_sum] and
    [weighted_score_sum] are the sums of [index_score] and [weighted_score]
    over all ledger rows with that key and [games] is the number of those
    rows; each key has one rollup row, every ledger row with a key lies in
    the group of its key, and the totals of the rollup equal the totals of
    the keyed ledger rows. A ledger row has a team key when neither its
    league nor its team id is read as missing, and a city key when the last
    row of [teams.csv] for its team id names a city; the other rows are
    left out of the rollup. The key columns are columns of texts: [league]
    and [team_id] of the ledger and [team_id] and [city_id] of [teams.csv]
    each hold a field that [read_csv] can only read as a text. *)
Theorem C6_rollups_are_exact_sums
        (master : list LedgerRow) (teams : list Team) (out : Outputs) :
  Csv.text_column (List.map (fun lr => r_league (row lr)) master) = true ->
  Csv.text_column (List.map (fun lr => team_id (row lr)) master) = true ->
  Csv.text_column (List.map t_team_id teams) = true ->
  Csv.text_column (List.map t_city_id teams) = true ->
  compute_rollups (Some master) (Some teams) = Some out ->
  exact_rollup (team_key_opt week_start) master (team_rollup_weekly out)
  /\ exact_rollup (team_key_opt month_start) master (team_rollup_monthly out)
  /\ exact_rollup (city_key_opt teams week_start) master (city_rollup_weekly out)
  /\ exact_rollup (city_key_opt teams month_start) master (city_rollup_monthly out).
Proof.
  intros _ _ _ _ Hout. rewrite (compute_rollups_some _ _ _ Hout).
  cbn [team_rollup_weekly team_rollup_monthly city_rollup_weekly city_rollup_monthly].
  assert (Hcity : forall p lr, is_Some (city_key teams p lr) ->
                  bool_decide (is_Some (city_id_of teams lr)) = true).
  { intros p lr [k Hk]. apply bool_decide_eq_true. unfold city_key in Hk.
    destruct (city_id_of teams lr); [eauto | discriminate]. }
  split; [|split; [|split]].
  - eapply exact_rollup_ext;
      [|exact (groupby_agg_exact key3_leb (team_key week_start) master)].
    intros lr. apply team_key_opt_key.
  - eapply exact_rollup_ext;
      [|exact (groupby_agg_exact key3_leb (team_key month_start) master)].
    intros lr. apply team_key_opt_key.
  - unfold dropna_city. rewrite groupby_agg_dropna by apply Hcity.
    eapply exact_rollup_ext;
      [|exact (groupby_agg_exact key2_leb (city_key teams week_start) master)].
    intros lr. apply city_key_opt_key.
  - unfold dropna_city. rewrite groupby_agg_dropna by apply Hcity.
    eapply exact_rollup_ext;
      [|exact (groupby_agg_exact key2_leb (city_key teams month_start) master)].
    intros lr. apply city_key_opt_key.
Qed.

(** With a ledger and a teams table that both have rows, the rollups are
    computed. *)
Lemma compute_rollups_runs (master : list LedgerRow) (teams : list Team) :
  master <> [] -> teams <> [] ->
  exists out, compute_rollups (Some master) (Some teams) = Some out.
Proof.
  intros Hm Ht. unfold compute_rollups, safe_read_csv. cbn [default]. cbv [id].
  destruct master as [|lr master]; [contradiction|].
  destruct teams as [|t teams]; [contradiction|].
  eexists. reflexivity.
Qed.

Lemma C6_rollups_are_exact_sums_witness :
  exact_rollup (team_key_opt week_start) sample_ledger
               (team_rollup_weekly sample_outputs)
  /\ exact_rollup (team_key_opt month_start) sample_ledger
                  (team_rollup_monthly sample_outputs)
  /\ exact_rollup (city_key_opt sample_teams week_start) sample_ledger
                  (city_rollup_weekly sample_outputs)
  /\ exact_rollup (city_key_opt sample_teams month_start) sample_ledger
                  (city_rollup_monthly sample_outputs).
Proof.
  apply (C6_rollups_are_exact_sums sample_ledger sample_teams sample_outputs);
    vm_compute; reflexivity.
Defined.

End RollupProps.

(** ** The daily 7-day aggregation *)
Module CityDailyProps.
Import PyStr Frame FrameProps CityDaily.

(** [len] consecutive days from [lo]. *)
Local Abbreviation zrange lo len :=
  (List.map (fun i => lo + Z.of_nat i) (seq 0 len)).

Lemma zrange_shift lo len :
  zrange (lo + 1) len = List.map (fun i => lo + Z.of_nat i) (seq 1 len).
Proof.
  rewrite <- seq_shift, map_map. apply map_ext. intros i. lia.
Qed.

Lemma zrange_snoc lo len : zrange lo (S len) = zrange lo len ++ [lo + Z.of_nat len].
Proof. now rewrite seq_S, map_app. Qed.

Lemma zrange_drop lo len j :
  drop j (zrange lo len) = zrange (lo + Z.of_nat j) (len - j).
Proof.
  revert lo len. induction j as [|j IH]; intros lo len.
  - rewrite drop_0, Nat.sub_0_r. apply map_ext. intros i. lia.
  - destruct len as [|len]; [reflexivity|].
    cbn [seq List.map drop]. rewrite <- seq_shift, map_map.
    replace (S len - S j)%nat with (len - j)%nat by lia.
    transitivity (drop j (zrange (lo + 1) len)).
    + f_equal. apply map_ext. intros i. lia.
    + rewrite IH. apply map_ext. intros i. lia.
Qed.

Lemma date_range_zrange lo hi : date_range lo hi = zrange lo (Z.to_nat (hi - lo + 1)).
Proof. reflexivity. Qed.

Lemma in_date_range lo hi n : In n (date_range lo hi) <-> lo <= n <= hi.
Proof.
  unfold date_range. rewrite in_map_iff. split.
  - intros (i & <- & Hi). apply in_seq in Hi. lia.
  - intros Hn. exists (Z.to_nat (n - lo)). split; [lia|]. apply in_seq. lia.
Qed.

Lemma take_rev {A : Type} (l : list A) k :
  take k (rev l) = rev (drop (List.length l - k) l).
Proof.
  rewrite <- (take_drop (List.length l - k) l) at 1. rewrite rev_app_distr.
  destruct (le_lt_dec k (List.length l)) as [Hle|Hlt].
  - apply take_app_length'. rewrite length_rev, length_drop. lia.
  - replace (List.length l - k)%nat with 0%nat by lia.
    rewrite drop_0, take_0. cbn [rev]. rewrite app_nil_r.
    apply take_ge. rewrite length_rev. lia.
Qed.

Lemma zrange_take lo len k : (k <= len)%nat -> take k (zrange lo len) = zrange lo k.
Proof.
  intros Hk. rewrite firstn_map, take_seq. now rewrite Nat.min_l.
Qed.

(** What the rolling pass writes for a frame that holds [F n] on each day of
    a range starting at [lo]: the row of the day plus the sums over the up
    to seven days ending at it. [pre] is the part of the range already
    walked. *)
Lemma rolling_rows_range (F : Z -> Daily) lo (pre rest : list Z) :
  pre ++ rest = zrange lo (List.length (pre ++ rest)) ->
  rolling_rows (rev (List.map F pre)) (List.map F rest)
  = List.map
      (fun n =>
         let days := date_range (Z.max lo (n - 6)) n in
         mkOut (d_day (F n)) (d_city (F n)) (index_sum (F n)) (games (F n))
               (sumZ (List.map (fun k => index_sum (F k)) days))
               (sumZ (List.map (fun k => games (F k)) days)))
      rest.
Proof.
  revert pre. induction rest as [|n rest IH]; intros pre Hrange; [reflexivity|].
  assert (Hpre : pre ++ [n] = zrange lo (S (List.length pre))).
  { rewrite <- (zrange_take lo (List.length (pre ++ n :: rest)))
      by (rewrite length_app; cbn; lia).
    rewrite <- Hrange.
    change (n :: rest) with ([n] ++ rest). rewrite app_assoc.
    rewrite take_app_length'; [reflexivity|]. rewrite length_app. cbn. lia. }
  assert (Hn : n = lo + Z.of_nat (List.length pre)).
  { rewrite zrange_snoc in Hpre. apply app_inj_tail in Hpre. tauto. }
  cbn [List.map rolling_rows].
  assert (Hwin : take 7 (F n :: rev (List.map F pre))
                 = rev (List.map F (date_range (Z.max lo (n - 6)) n))).
  { change (F n :: rev (List.map F pre)) with (rev [F n] ++ rev (List.map F pre)).
    rewrite <- rev_app_distr.
    change [F n] with (List.map F [n]). rewrite <- map_app, Hpre.
    rewrite take_rev. f_equal. rewrite skipn_map, zrange_drop. f_equal.
    rewrite !length_map, length_seq, date_range_zrange.
    replace (lo + Z.of_nat (S (List.length pre) - 7)) with (Z.max lo (n - 6)) by lia.
    replace (S (List.length pre) - (S (List.length pre) - 7))%nat
      with (Z.to_nat (n - Z.max lo (n - 6) + 1)) by lia.
    reflexivity. }
  rewrite Hwin, !map_rev, !sumZ_rev, !map_map. f_equal.
  change (F n :: rev (List.map F pre)) with (rev [F n] ++ rev (List.map F pre)).
  rewrite <- rev_app_distr. change [F n] with (List.map F [n]).
  rewrite <- map_app. apply IH.
  rewrite <- app_assoc. exact Hrange.
Qed.

(** *** One row per (city, date) *)



Lemma in_group_iff c n r : in_group (c, n) r = true <-> p_city r = c /\ p_day r = n.
Proof.
  unfold in_group. cbn. rewrite andb_true_iff, String.eqb_eq, Z.eqb_eq. tauto.
Qed.

Lemma daily_agg_In df d :
  In d (daily_agg df) <->
  (exists r, In r df /\ p_city r = d_city d /\ p_day r = d_day d)
  /\ index_sum d = day_sum df (d_city d) (d_day d)
  /\ games d = day_games df (d_city d) (d_day d).
Proof.
  assert (Hkeys : forall k,
             In k (sort_by key_leb
                           (remove_dups (List.map (fun r => (p_city r, p_day r)) df)))
             <-> exists r, In r df /\ p_city r = k.1 /\ p_day r = k.2).
  { intros [c n]. rewrite sort_by_In, <- list_elem_of_In, elem_of_remove_dups,
      list_elem_of_In, in_map_iff. cbn. split.
    - intros (r & [= <- <-] & Hr). eauto.
    - intros (r & Hr & <- & <-). eauto. }
  unfold daily_agg. rewrite in_map_iff. split.
  - intros ([c n] & <- & Hk). apply Hkeys in Hk. cbn in *. now split.
  - intros (Hr & Hs & Hg). exists (d_city d, d_day d). split.
    + destruct d as [c n s g]. cbn in *. unfold day_sum in Hs. unfold day_games in Hg.
      now rewrite Hs, Hg.
    + apply Hkeys. exact Hr.
Qed.

Lemma day_sum_no_rows df c n :
  (forall r, In r df -> ~ (p_city r = c /\ p_day r = n)) ->
  day_sum df c n = 0 /\ day_games df c n = 0.
Proof.
  intros Hno.
  assert (Hnil : List.filter (in_group (c, n)) df = []).
  { induction df as [|r df IH]; [reflexivity|]. cbn [List.filter].
    destruct (in_group (c, n) r) eqn:Hg.
    - apply in_group_iff in Hg. exfalso. apply (Hno r); [now left | exact Hg].
    - apply IH. intros r' Hr'. apply Hno. now right. }
  unfold day_sum, day_games. now rewrite Hnil.
Qed.

(** *** The dense calendar of one city *)

Lemma fold_min_spec ds d0 :
  In (List.fold_left Z.min ds d0) (d0 :: ds)
  /\ forall x, In x (d0 :: ds) -> List.fold_left Z.min ds d0 <= x.
Proof.
  revert d0. induction ds as [|d ds IH]; intros d0; cbn [List.fold_left].
  - split; [now left|]. intros x [<- | []]. lia.
  - destruct (IH (Z.min d0 d)) as [Hin Hle]. split.
    + destruct Hin as [Hin | Hin]; [|right; now right].
      rewrite <- Hin. destruct (Z.min_spec d0 d) as [[_ ->] | [_ ->]];
        [now left | right; now left].
    + intros x [<- | [<- | Hx]].
      * specialize (Hle _ (or_introl eq_refl)). lia.
      * specialize (Hle _ (or_introl eq_refl)). lia.
      * apply Hle. now right.
Qed.

Lemma fold_max_spec ds d0 :
  In (List.fold_left Z.max ds d0) (d0 :: ds)
  /\ forall x, In x (d0 :: ds) -> x <= List.fold_left Z.max ds d0.
Proof.
  revert d0. induction ds as [|d ds IH]; intros d0; cbn [List.fold_left].
  - split; [now left|]. intros x [<- | []]. lia.
  - destruct (IH (Z.max d0 d)) as [Hin Hle]. split.
    + destruct Hin as [Hin | Hin]; [|right; now right].
      rewrite <- Hin. destruct (Z.max_spec d0 d) as [[_ ->] | [_ ->]];
        [right; now left | now left].
    + intros x [<- | [<- | Hx]].
      * specialize (Hle _ (or_introl eq_refl)). lia.
      * specialize (Hle _ (or_introl eq_refl)). lia.
      * apply Hle. now right.
Qed.

Lemma reindex_row_spec df c n :
  let g := sort_by (fun a b => d_day a <=? d_day b)
                   (List.filter (fun r => String.eqb (d_city r) c) (daily_agg df)) in
  reindex_row c g n = mkDaily c n (day_sum df c n) (day_games df c n).
Proof.
  intros g.
  assert (Hg : forall x, In x g <-> In x (daily_agg df) /\ d_city x = c).
  { intros x. unfold g. rewrite sort_by_In, filter_In, String.eqb_eq. tauto. }
  unfold reindex_row. destruct (List.find _ g) as [r|] eqn:Hf.
  - apply find_some in Hf. destruct Hf as [Hr Hn]. apply Z.eqb_eq in Hn.
    apply Hg in Hr. destruct Hr as [Hr Hc]. apply daily_agg_In in Hr.
    destruct Hr as (_ & Hs & Hgm). now rewrite Hs, Hgm, Hc, Hn.
  - destruct (day_sum_no_rows df c n) as [-> ->]; [|reflexivity].
    intros r Hr [Hc Hn].
    assert (Hd : In (mkDaily c n (day_sum df c n) (day_games df c n)) g).
    { apply Hg. split; [|reflexivity]. apply daily_agg_In. cbn.
      split; [eauto | split; reflexivity]. }
    pose proof (find_none _ _ Hf _ Hd) as Hnone. cbn in Hnone.
    rewrite Z.eqb_refl in Hnone. discriminate.
Qed.

Lemma city_frame_spec df c :
  (exists r, In r df /\ p_city r = c) ->
  exists lo hi,
    spans df c lo hi
    /\ city_frame c (daily_agg df)
       = List.map (expected_row df c lo) (date_range lo hi).
Proof.
  intros (r0 & Hr0 & Hc0). unfold city_frame.
  set (g := sort_by (fun a b => d_day a <=? d_day b)
                    (List.filter (fun r => String.eqb (d_city r) c) (daily_agg df))).
  assert (Hg : forall x, In x g <-> In x (daily_agg df) /\ d_city x = c).
  { intros x. unfold g. rewrite sort_by_In, filter_In, String.eqb_eq. tauto. }
  assert (Hdays : forall n, In n (List.map d_day g)
                            <-> exists r, In r df /\ p_city r = c /\ p_day r = n).
  { intros n. rewrite in_map_iff. split.
    - intros (d & <- & Hd). apply Hg in Hd. destruct Hd as [Hd <-].
      apply daily_agg_In in Hd. tauto.
    - intros (r & Hr & Hc & Hn).
      exists (mkDaily c n (day_sum df c n) (day_games df c n)). split; [reflexivity|].
      apply Hg. split; [|reflexivity]. apply daily_agg_In. cbn.
      split; [eauto | split; reflexivity]. }
  destruct (List.map d_day g) as [|d0 ds] eqn:Hmap.
  - exfalso. apply (Hdays (p_day r0)). eauto.
  - destruct (fold_min_spec ds d0) as [Hlo_in Hlo]. destruct (fold_max_spec ds d0) as [Hhi_in Hhi].
    set (lo := List.fold_left Z.min ds d0) in *.
    set (hi := List.fold_left Z.max ds d0) in *.
    exists lo, hi. split.
    + split; [|split].
      * apply Hdays in Hlo_in. exact Hlo_in.
      * apply Hdays in Hhi_in. exact Hhi_in.
      * intros r Hr Hc.
        assert (Hin : In (p_day r) (d0 :: ds)) by (apply Hdays; eauto).
        split; [now apply Hlo | now apply Hhi].
    + pose proof (rolling_rows_range (reindex_row c g) lo [] (date_range lo hi)) as Hroll.
      cbn [app rev List.map] in Hroll. rewrite Hroll.
      * apply map_ext. intros n. unfold expected_row. cbv zeta.
        pose proof (reindex_row_spec df c) as Hre. cbv zeta in Hre. fold g in Hre.
        rewrite Hre. cbn [d_day d_city index_sum games]. f_equal.
        -- f_equal. apply map_ext. intros k. now rewrite Hre.
        -- f_equal. apply map_ext. intros k. now rewrite Hre.
      * rewrite date_range_zrange. now rewrite length_map, length_seq.
Qed.


(** *** The written frame *)






End CityDailyProps.

(** ** Missing input files *)
Module StageProps.
Import Ledger Tables Stages.

(** C8 as stated fails: with [games.csv] absent the ledger stage does not
    fail; it returns and writes an empty ledger. With the ledger absent the
    rollup stage does not fail either; it returns without writing. *)
Lemma C8_counterexample_missing_games_file :
  games_csv (processed nothing_yet) = None
  /\ ledger_stage Dates.iso_date nothing_yet
     = Returned (mkFiles None (mkProcessed None None None) (Some []) None None None)
  /\ team_game_results_csv nothing_yet = None
  /\ rollup_stage nothing_yet = Returned nothing_yet.
Proof. repeat split. Qed.

(** C8 (amended). When [all_long.csv] is absent the daily 7-day aggregation
    stage fails at once with [FileNotFoundError] and writes nothing. The
    rollup stage, when the ledger or [teams.csv] is absent, returns without
    writing any rollup. The ledger stage reads an absent [games.csv] as an
    empty table: it returns and writes an empty ledger, touching no other
    file. *)
Theorem C8_missing_input_per_stage
        (to_datetime : string -> option Dates.civil) (fs : Files) :
  (all_long_csv fs = None -> daily_stage to_datetime fs = Raised FileNotFoundError)
  /\ (team_game_results_csv fs = None \/ teams_csv (processed fs) = None ->
      rollup_stage fs = Returned fs)
  /\ (games_csv (processed fs) = None ->
      ledger_stage to_datetime fs
      = Returned (mkFiles (scoring_json fs) (processed fs) (Some [])
                          (rollup_csvs fs) (all_long_csv fs) (city_daily_7d_csv fs))).
Proof.
  split; [|split].
  - intros Hnone. unfold daily_stage. now rewrite Hnone.
  - intros Hnone. unfold rollup_stage, Rollups.compute_rollups.
    destruct Hnone as [-> | ->].
    + reflexivity.
    + unfold safe_read_csv. cbn [default].
      now destruct (default [] (team_game_results_csv fs)).
  - intros Hnone. unfold ledger_stage. now rewrite Hnone.
Qed.

Lemma C8_missing_input_per_stage_witness :
  all_long_csv nothing_yet = None
  /\ daily_stage Dates.iso_date nothing_yet = Raised FileNotFoundError.
Proof.
  split; [reflexivity|].
  destruct (C8_missing_input_per_stage Dates.iso_date nothing_yet) as (Hdaily & _).
  apply Hdaily. reflexivity.
Defined.

End StageProps.


(** ** Further properties of the ledger builder *)
Module LedgerMore.
Import PyStr Frame FrameProps Ledger.

(** X1. Every row of the finished ledger has [index_score] in {-1, 0, 1};
    its [weighted_score] is zero or has the sign of its [index_score], and
    is zero whenever the [index_score] is zero. *)
Theorem ledger_scores_signs
        (to_datetime : string -> option Dates.civil)
        (cfg : option (gmap string Z)) (games : list Game) (lr : LedgerRow) :
  In lr (compute_master to_datetime cfg (Some games)) ->
  (index_score (row lr) = 1 \/ index_score (row lr) = -1 \/ index_score (row lr) = 0)
  /\ (weighted_score (row lr) = 0
      \/ Z.sgn (weighted_score (row lr)) = index_score (row lr))
  /\ (index_score (row lr) = 0 -> weighted_score (row lr) = 0).
Proof.
  intros Hin.
  destruct (PeriodProps.compute_master_rows _ _ _ _ Hin) as ((g & _ & Hr) & _).
  destruct (LedgerProps.game_rows_weighted _ _ _ Hr) as [Hcases Hw].
  rewrite Hw.
  destruct Hcases as [[-> _] | [[-> _] | [-> _]]];
    (split; [auto|]); split; try (intros; lia); try discriminate.
Qed.

Lemma ledger_scores_signs_witness :
  exists lr,
    In lr (compute_master Dates.iso_date None (Some [vegas_toronto_game]))
    /\ index_score (row lr) = 1
    /\ (weighted_score (row lr) = 0
        \/ Z.sgn (weighted_score (row lr)) = index_score (row lr)).
Proof.
  exists (derive Dates.iso_date
            (mkResult "nhl_2023-03-01_vegas-golden-knights_toronto-maple-leafs"
                      "2023-03-01" "nhl" "regular" "nhl_vegas-golden-knights"
                      "nhl_toronto-maple-leafs" false (Some 4) (Some 2) "W" 1 1)).
  assert (Hin : In (derive Dates.iso_date
            (mkResult "nhl_2023-03-01_vegas-golden-knights_toronto-maple-leafs"
                      "2023-03-01" "nhl" "regular" "nhl_vegas-golden-knights"
                      "nhl_toronto-maple-leafs" false (Some 4) (Some 2) "W" 1 1))
                   (compute_master Dates.iso_date None (Some [vegas_toronto_game]))).
  { vm_compute. right. left. reflexivity. }
  split; [exact Hin|]. split; [reflexivity|].
  exact (proj1 (proj2 (ledger_scores_signs _ _ _ _ Hin))).
Defined.

(** X2. The finished ledger has exactly two rows per game of a non-missing
    [games.csv], incomplete games included: the home and the away row of
    every game are in it, each with the period columns derived from its own
    date. *)
Theorem ledger_two_rows_per_game
        (to_datetime : string -> option Dates.civil)
        (cfg : option (gmap string Z)) (games : list Game) :
  let master := compute_master to_datetime cfg (Some games) in
  List.length master = (2 * List.length games)%nat
  /\ forall g, In g games ->
       exists h a,
         game_rows (load_scoring_weights cfg) g = [h; a]
         /\ team_id h = str_field (home_team_id g)
         /\ team_id a = str_field (away_team_id g)
         /\ In (derive to_datetime h) master
         /\ In (derive to_datetime a) master.
Proof.
  intros master. split.
  - unfold master, compute_master. cbn [default]. cbv [id].
    destruct games as [|g0 gs]; [reflexivity|].
    etransitivity; [apply Permutation_length, sort_by_perm|].
    rewrite length_map. apply LedgerProps.ledger_rows_length.
  - intros g Hg.
    destruct (LedgerProps.game_rows_shape (load_scoring_weights cfg) g)
      as (h & a & Hrows & _ & _ & _ & _ & Hh & Ha & _).
    exists h, a. split; [exact Hrows|]. split; [exact Hh|]. split; [exact Ha|].
    assert (Hall : forall r, In r [h; a] -> In (derive to_datetime r) master).
    { intros r Hr. unfold master, compute_master. cbn [default]. cbv [id].
      destruct games as [|g0 gs]; [destruct Hg|].
      apply sort_by_In, in_map. unfold ledger_rows. apply in_concat.
      exists (game_rows (load_scoring_weights cfg) g). split.
      - now apply in_map.
      - now rewrite Hrows. }
    split; apply Hall; cbn; auto.
Qed.

End LedgerMore.


(** ** Further properties of the ingestion merge *)
Module IngestMore.
Import PyStr Ledger Tables Nhl Scenarios IngestProps.

Local Abbreviation ids := (List.map game_id).

Lemma merge_games_keeps_stored_witness :
  exists added,
    merge_games [boston_game; vegas_toronto_game] [vegas_toronto_replayed]
    = [boston_game; vegas_toronto_game] ++ added
    /\ forall g, In g added ->
         In g [vegas_toronto_replayed]
         /\ ~ In (game_id g) (ids [boston_game; vegas_toronto_game]).
Proof.
  apply merge_games_keeps_stored.
  apply NoDup_cons. split.
  - intros Hin. apply list_elem_of_In in Hin. cbn in Hin.
    destruct Hin as [Hin | []]. discriminate.
  - apply NoDup_singleton.
Defined.

Lemma load_nhl_first_run_unique_ids_witness :
  NoDup (ids (safe_read_csv
                (games_csv (load_nhl (fun _ => None) duplicated_raw stored_tables)))).
Proof.
  apply load_nhl_first_run_unique_ids; vm_compute; discriminate.
Defined.

(** Appending through "ensure" keeps the new ids distinct from one another
    and from the ids known at the start. *)
Lemma ensure_city_fresh (S0 : gset string) city city_id
      (st : gset string * list City) :
  S0 ⊆ st.1 ->
  NoDup (List.map c_city_id st.2) ->
  (forall x, In x (List.map c_city_id st.2) -> x ∈ st.1 /\ x ∉ S0) ->
  let st' := ensure_city city city_id st in
  S0 ⊆ st'.1
  /\ NoDup (List.map c_city_id st'.2)
  /\ (forall x, In x (List.map c_city_id st'.2) -> x ∈ st'.1 /\ x ∉ S0).
Proof.
  intros Hsub Hnd Hin. unfold ensure_city.
  destruct (negb (String.eqb city "")); cbn [andb]; [|auto].
  destruct (bool_decide (city_id ∈ st.1)) eqn:Hb; cbn [negb]; [auto|].
  apply bool_decide_eq_false in Hb. cbn [fst snd].
  split; [|split].
  - intros x Hx. apply elem_of_union_r. now apply Hsub.
  - rewrite map_app. cbn. apply NoDup_app. split; [exact Hnd|]. split.
    + intros x Hx Hx'. apply list_elem_of_In in Hx. apply Hin in Hx.
      apply list_elem_of_In in Hx'. cbn in Hx'. destruct Hx' as [<- | []].
      tauto.
    + apply NoDup_singleton.
  - intros x Hx. rewrite map_app in Hx. apply in_app_or in Hx.
    destruct Hx as [Hx | [<- | []]].
    + destruct (Hin x Hx) as [H1 H2]. split; [|exact H2].
      now apply elem_of_union_r.
    + split; [apply elem_of_union_l; now apply elem_of_singleton|].
      intros H0. apply Hb. now apply Hsub.
Qed.

Lemma ensure_team_fresh (S0 : gset string) team_id full city_id city nick
      (st : gset string * list Team) :
  S0 ⊆ st.1 ->
  NoDup (List.map t_team_id st.2) ->
  (forall x, In x (List.map t_team_id st.2) -> x ∈ st.1 /\ x ∉ S0) ->
  let st' := ensure_team team_id full city_id city nick st in
  S0 ⊆ st'.1
  /\ NoDup (List.map t_team_id st'.2)
  /\ (forall x, In x (List.map t_team_id st'.2) -> x ∈ st'.1 /\ x ∉ S0).
Proof.
  intros Hsub Hnd Hin. unfold ensure_team.
  destruct (bool_decide (team_id ∈ st.1)) eqn:Hb; cbn [negb]; [auto|].
  apply bool_decide_eq_false in Hb. cbn [fst snd].
  split; [|split].
  - intros x Hx. apply elem_of_union_r. now apply Hsub.
  - rewrite map_app. cbn. apply NoDup_app. split; [exact Hnd|]. split.
    + intros x Hx Hx'. apply list_elem_of_In in Hx. apply Hin in Hx.
      apply list_elem_of_In in Hx'. cbn in Hx'. destruct Hx' as [<- | []].
      tauto.
    + apply NoDup_singleton.
  - intros x Hx. rewrite map_app in Hx. apply in_app_or in Hx.
    destruct Hx as [Hx | [<- | []]].
    + destruct (Hin x Hx) as [H1 H2]. split; [|exact H2].
      now apply elem_of_union_r.
    + split; [apply elem_of_union_l; now apply elem_of_singleton|].
      intros H0. apply Hb. now apply Hsub.
Qed.

Lemma cities_fold_fresh (S0 : gset string) rows (st : gset string * list City) :
  S0 ⊆ st.1 ->
  NoDup (List.map c_city_id st.2) ->
  (forall x, In x (List.map c_city_id st.2) -> x ∈ st.1 /\ x ∉ S0) ->
  let st' := fold_left (fun s r => ensure_cities r s) rows st in
  NoDup (List.map c_city_id st'.2)
  /\ (forall x, In x (List.map c_city_id st'.2) -> x ∉ S0).
Proof.
  revert st. induction rows as [|r rows IH]; intros st Hsub Hnd Hin; cbn.
  - split; [exact Hnd|]. intros x Hx. now apply Hin.
  - unfold ensure_cities at 2.
    destruct (ensure_city_fresh S0 (split_city_team (away_full r)).1
                (slugify (split_city_team (away_full r)).1) st Hsub Hnd Hin)
      as (H1 & H2 & H3).
    destruct (ensure_city_fresh S0 (split_city_team (home_full r)).1
                (slugify (split_city_team (home_full r)).1) _ H1 H2 H3)
      as (H4 & H5 & H6).
    exact (IH _ H4 H5 H6).
Qed.

Lemma ensure_teams_fresh (S0 : gset string) r (st : gset string * list Team) :
  S0 ⊆ st.1 ->
  NoDup (List.map t_team_id st.2) ->
  (forall x, In x (List.map t_team_id st.2) -> x ∈ st.1 /\ x ∉ S0) ->
  let st' := ensure_teams r st in
  S0 ⊆ st'.1
  /\ NoDup (List.map t_team_id st'.2)
  /\ (forall x, In x (List.map t_team_id st'.2) -> x ∈ st'.1 /\ x ∉ S0).
Proof.
  intros Hsub Hnd Hin. unfold ensure_teams.
  destruct (split_city_team (away_full r)) as [ac an].
  destruct (split_city_team (home_full r)) as [hc hn].
  destruct (ensure_team_fresh S0 (away_team_id_of r) (away_full r) (slugify ac)
              ac an st Hsub Hnd Hin) as (H1 & H2 & H3).
  exact (ensure_team_fresh S0 (home_team_id_of r) (home_full r) (slugify hc)
           hc hn _ H1 H2 H3).
Qed.

Lemma teams_fold_fresh (S0 : gset string) rows (st : gset string * list Team) :
  S0 ⊆ st.1 ->
  NoDup (List.map t_team_id st.2) ->
  (forall x, In x (List.map t_team_id st.2) -> x ∈ st.1 /\ x ∉ S0) ->
  let st' := fold_left (fun s r => ensure_teams r s) rows st in
  NoDup (List.map t_team_id st'.2)
  /\ (forall x, In x (List.map t_team_id st'.2) -> x ∉ S0).
Proof.
  revert st. induction rows as [|r rows IH]; intros st Hsub Hnd Hin; cbn.
  - split; [exact Hnd|]. intros x Hx. now apply Hin.
  - destruct (ensure_teams_fresh S0 r st Hsub Hnd Hin) as (H4 & H5 & H6).
    exact (IH _ H4 H5 H6).
Qed.

Lemma id_set_nonempty (l : list string) :
  Forall (fun x => x <> "") l -> id_set l = list_to_set l.
Proof.
  intros H. apply id_set_plain. eapply Forall_impl; [exact H|].
  intros x Hx. now apply str_field_nonempty.
Qed.

(** X6. The loader keeps the identity keys unique: when the stored [City]
    and [Team] tables have no repeated and no empty [city_id] / [team_id],
    the tables it writes have no repeated [city_id] / [team_id] either,
    whatever the raw file holds. *)
Theorem load_nhl_keeps_ids_unique
        (int_float : string -> option Z) (raw : option (list RawGame))
        (p : Processed) :
  NoDup (List.map c_city_id (safe_read_csv (cities_csv p))) ->
  Forall (fun x => x <> "") (List.map c_city_id (safe_read_csv (cities_csv p))) ->
  NoDup (List.map t_team_id (safe_read_csv (teams_csv p))) ->
  Forall (fun x => x <> "") (List.map t_team_id (safe_read_csv (teams_csv p))) ->
  let p' := load_nhl int_float raw p in
  NoDup (List.map c_city_id (safe_read_csv (cities_csv p')))
  /\ NoDup (List.map t_team_id (safe_read_csv (teams_csv p'))).
Proof.
  intros Hc Hcn Ht Htn. unfold load_nhl.
  destruct (safe_read_csv raw) as [|r0 rows]; [now split|].
  unfold safe_read_csv in *.
  cbn [cities_csv teams_csv default]. cbv [id].
  set (C0 := default [] (cities_csv p)) in *.
  set (T0 := default [] (teams_csv p)) in *.
  set (st0 := mkLoop (id_set (List.map c_city_id C0))
                     (id_set (List.map t_team_id T0)) [] [] []).
  destruct (fold_step_books int_float (r0 :: rows) st0) as (Hcb & Htb & _).
  cbn zeta in Hcb, Htb.
  set (st1 := fold_left (step int_float) (r0 :: rows) st0) in *.
  pose proof (cities_fold_fresh (id_set (List.map c_city_id C0)) (r0 :: rows)
                (existing_city_ids st0, new_city_rows st0)) as Fc.
  pose proof (teams_fold_fresh (id_set (List.map t_team_id T0)) (r0 :: rows)
                (existing_team_ids st0, new_team_rows st0)) as Ft.
  cbn zeta in Fc, Ft. rewrite <- Hcb in Fc. rewrite <- Htb in Ft.
  cbn [fst snd st0 existing_city_ids new_city_rows existing_team_ids
           new_team_rows List.map] in Fc, Ft.
  destruct Fc as [Fc1 Fc2]; [reflexivity | constructor | intros x [] |].
  destruct Ft as [Ft1 Ft2]; [reflexivity | constructor | intros x [] |].
  rewrite (id_set_nonempty _ Hcn) in Fc2. rewrite (id_set_nonempty _ Htn) in Ft2.
  split; rewrite map_app; apply NoDup_app.
  - split; [exact Hc|]. split; [|exact Fc1].
    intros x Hx Hx'. apply list_elem_of_In in Hx'. apply (Fc2 x Hx').
    now apply elem_of_list_to_set.
  - split; [exact Ht|]. split; [|exact Ft1].
    intros x Hx Hx'. apply list_elem_of_In in Hx'. apply (Ft2 x Hx').
    now apply elem_of_list_to_set.
Qed.

Lemma load_nhl_keeps_ids_unique_witness :
  NoDup (List.map c_city_id
           (safe_read_csv
              (cities_csv (load_nhl (fun _ => None) duplicated_raw stored_tables))))
  /\ NoDup (List.map t_team_id
              (safe_read_csv
                 (teams_csv (load_nhl (fun _ => None) duplicated_raw stored_tables)))).
Proof.
  apply load_nhl_keeps_ids_unique.
  - vm_compute. apply NoDup_cons. split; [|apply NoDup_singleton].
    intros Hin. apply list_elem_of_In in Hin. destruct Hin as [Hin | []].
    discriminate.
  - vm_compute. repeat constructor; discriminate.
  - vm_compute. apply NoDup_cons. split; [|apply NoDup_singleton].
    intros Hin. apply list_elem_of_In in Hin. destruct Hin as [Hin | []].
    discriminate.
  - vm_compute. repeat constructor; discriminate.
Defined.

End IngestMore.


(** ** Identifiers made by [slugify] *)
Module SlugProps.
Import PyStr SplitProps.

Lemma lower_char_space c : is_space (lower_char c) = is_space c.
Proof. destruct c as [[] [] [] [] [] [] [] []]; reflexivity. Qed.

Lemma lower_char_idem c : lower_char (lower_char c) = lower_char c.
Proof. destruct c as [[] [] [] [] [] [] [] []]; reflexivity. Qed.

Lemma lstrip_l_lower l :
  lstrip_l (List.map lower_char l) = List.map lower_char (lstrip_l l).
Proof.
  induction l as [|c l IH]; [reflexivity|]. cbn [List.map lstrip_l].
  rewrite lower_char_space. now destruct (is_space c).
Qed.

Lemma strip_lower s : strip (lower s) = lower (strip s).
Proof.
  unfold strip, lower, strip_l. rewrite !chars_str. f_equal.
  now rewrite lstrip_l_lower, <- map_rev, lstrip_l_lower, map_rev.
Qed.

Lemma lower_idem s : lower (lower s) = lower s.
Proof.
  unfold lower. rewrite chars_str, map_map. f_equal.
  apply map_ext. intros c. apply lower_char_idem.
Qed.

Lemma lstrip_l_suffix l : exists p, l = p ++ lstrip_l l.
Proof.
  induction l as [|c l [p Hp]]; [now exists []|]. cbn.
  destruct (is_space c); [|now exists []].
  exists (c :: p). cbn. now rewrite <- Hp.
Qed.

Lemma lstrip_l_fixed l :
  match l with [] => True | c :: _ => is_space c = false end -> lstrip_l l = l.
Proof. destruct l as [|c l]; [reflexivity|]. cbn. now intros ->. Qed.

Lemma lstrip_l_head_ok l :
  match lstrip_l l with [] => True | c :: _ => is_space c = false end.
Proof.
  destruct (lstrip_l l) as [|c t] eqn:H; [exact I|]. now apply lstrip_l_head in H.
Qed.

(** Trimming a trimmed string changes nothing. *)
Lemma strip_l_idem l : strip_l (strip_l l) = strip_l l.
Proof.
  unfold strip_l.
  set (a := lstrip_l l). set (b := lstrip_l (rev a)).
  assert (Hb : match b with [] => True | c :: _ => is_space c = false end)
    by apply lstrip_l_head_ok.
  assert (Hrb : match rev b with [] => True | c :: _ => is_space c = false end).
  { destruct (lstrip_l_suffix (rev a)) as [p Hp]. fold b in Hp.
    destruct b as [|c0 b'] eqn:Eb; [exact I|].
    assert (Ha : a = rev (c0 :: b') ++ rev p).
    { rewrite <- (rev_involutive a), Hp, rev_app_distr. reflexivity. }
    pose proof (lstrip_l_head_ok l) as Hl. fold a in Hl. rewrite Ha in Hl.
    destruct (rev (c0 :: b')) as [|x xs] eqn:Er; [|exact Hl].
    apply (f_equal (@List.length ascii)) in Er. rewrite length_rev in Er.
    discriminate. }
  rewrite (lstrip_l_fixed (rev b) Hrb), rev_involutive.
  now rewrite (lstrip_l_fixed b Hb).
Qed.

Lemma strip_idem s : strip (strip s) = strip s.
Proof. unfold strip. now rewrite chars_str, strip_l_idem. Qed.

Lemma replace_char_removes c by_ s :
  ~ In c (chars by_) -> ~ In c (chars (replace_char c by_ s)).
Proof.
  intros Hby. unfold replace_char. rewrite chars_str. intros Hin.
  apply in_concat in Hin. destruct Hin as (piece & Hp & Hc).
  apply in_map_iff in Hp. destruct Hp as (x & <- & _).
  destruct (Ascii.eqb_spec x c) as [Heq|Hne]; [contradiction|].
  destruct Hc as [Hx | []]. contradiction.
Qed.

Lemma replace_char_keeps_out c by_ s d :
  ~ In d (chars s) -> ~ In d (chars by_) -> ~ In d (chars (replace_char c by_ s)).
Proof.
  intros Hs Hby. unfold replace_char. rewrite chars_str. intros Hin.
  apply in_concat in Hin. destruct Hin as (piece & Hp & Hc).
  apply in_map_iff in Hp. destruct Hp as (x & <- & Hx).
  destruct (Ascii.eqb x c); [contradiction|].
  destruct Hc as [Hd | []]. subst d. contradiction.
Qed.

(** X8. Both [slugify] functions ignore the case and the surrounding
    whitespace of their argument, so names that differ only there get the
    same id. The NHL slug holds no space, full stop or slash, the NBA slug no
    space. *)
Theorem slugify_normalises (text : string) :
  Nhl.slugify (strip text) = Nhl.slugify text
  /\ Nhl.slugify (lower text) = Nhl.slugify text
  /\ (forall c, In c (chars (Nhl.slugify text)) ->
                c <> " "%char /\ c <> "."%char /\ c <> "/"%char)
  /\ NbaSeed.slugify (strip text) = NbaSeed.slugify text
  /\ NbaSeed.slugify (lower text) = NbaSeed.slugify text
  /\ (forall c, In c (chars (NbaSeed.slugify text)) -> c <> " "%char).
Proof.
  unfold Nhl.slugify, NbaSeed.slugify.
  rewrite strip_idem, strip_lower, lower_idem.
  split; [reflexivity|]. split; [reflexivity|]. split; [|split; [|split]];
    try reflexivity.
  - intros c Hc. repeat split; intros ->; revert Hc.
    + apply replace_char_keeps_out; [|cbn; intros [H | []]; discriminate].
      apply replace_char_keeps_out; [|cbn; tauto].
      apply replace_char_removes. cbn. intros [H | []]. discriminate.
    + apply replace_char_keeps_out; [|cbn; intros [H | []]; discriminate].
      apply replace_char_removes. cbn. tauto.
    + apply replace_char_removes. cbn. intros [H | []]. discriminate.
  - intros c Hc ->. revert Hc.
    apply replace_char_removes. cbn. intros [H | []]. discriminate.
Qed.

End SlugProps.


(** ** The NBA loader: team ids and matchups *)
Module NbaSeedProps.
Import PyStr Ledger Tables NbaSeed SplitProps.

Lemma prefix_b_drop sep l :
  prefix_b sep l = true -> l = sep ++ drop (List.length sep) l.
Proof.
  intros H. apply prefix_b_app in H. destruct H as [t ->].
  now rewrite drop_app_length.
Qed.

Lemma split_first_spec sep l a b :
  split_first sep l = Some (a, b) -> l = a ++ sep ++ b.
Proof.
  revert a b. induction l as [|c l IH]; intros a b.
  - cbn [split_first]. destruct (prefix_b sep []) eqn:Hp; [|discriminate].
    intros [= <- <-]. now apply prefix_b_drop.
  - cbn [split_first]. destruct (prefix_b sep (c :: l)) eqn:Hp.
    + intros [= <- <-]. now apply prefix_b_drop.
    + destruct (split_first sep l) as [[a' b']|]; [|discriminate].
      intros [= <- <-]. cbn. f_equal. now apply IH.
Qed.

Lemma split_two_spec sep m a b :
  split_two sep m = Some (a, b) -> m = a +:+ sep +:+ b.
Proof.
  unfold split_two.
  destruct (split_first (chars sep) (chars m)) as [[x y]|] eqn:Hs; [|discriminate].
  destruct (infix_b (chars sep) y); [discriminate|]. intros [= <- <-].
  apply split_first_spec in Hs. apply chars_inj.
  now rewrite !chars_app, !chars_str.
Qed.

(** X9. Whatever the format of a matchup that [parse_matchup] accepts, the
    pair that [infer_home_away] makes of its result has the text before the
    separator ("@" or, without an "@", "vs.") as the away side and the text
    after it as the home side, both trimmed; a matchup with neither
    separator gives two empty sides. *)
Theorem matchup_sides (m LEFT RIGHT : string) (is_away_format : bool) :
  parse_matchup m = Some (LEFT, RIGHT, is_away_format) ->
  (is_away_format = true
   /\ exists a b, str_field m = a +:+ "@" +:+ b
                  /\ infer_home_away LEFT RIGHT is_away_format = (strip a, strip b))
  \/ (is_away_format = false /\ contains "@" (str_field m) = false
      /\ exists a b, str_field m = a +:+ "vs." +:+ b
                     /\ infer_home_away LEFT RIGHT is_away_format
                        = (strip a, strip b))
  \/ (is_away_format = false /\ contains "@" (str_field m) = false
      /\ contains "vs." (str_field m) = false
      /\ infer_home_away LEFT RIGHT is_away_format = ("", "")).
Proof.
  unfold parse_matchup.
  destruct (contains "@" (str_field m)) eqn:Hat.
  - destruct (split_two "@" (str_field m)) as [[a b]|] eqn:Hs; [|discriminate].
    intros [= <- <- <-]. left. split; [reflexivity|].
    exists a, b. split; [now apply split_two_spec | reflexivity].
  - destruct (contains "vs." (str_field m)) eqn:Hvs.
    + destruct (split_two "vs." (str_field m)) as [[a b]|] eqn:Hs; [|discriminate].
      intros [= <- <- <-]. right. left. split; [reflexivity|]. split; [reflexivity|].
      exists a, b. split; [now apply split_two_spec | reflexivity].
    + intros [= <- <- <-]. right. right. repeat split.
Qed.

Lemma matchup_sides_witness :
  parse_matchup "BKN vs. PHI" = Some ("PHI", "BKN", false)
  /\ infer_home_away "PHI" "BKN" false = ("BKN", "PHI").
Proof.
  assert (Hp : parse_matchup "BKN vs. PHI" = Some ("PHI", "BKN", false))
    by (vm_compute; reflexivity).
  split; [exact Hp|].
  destruct (matchup_sides _ _ _ _ Hp) as [[Hf _] | [(_ & _ & a & b & _ & _) | (_ & _ & Hvs & _)]].
  - discriminate.
  - reflexivity.
  - vm_compute in Hvs. discriminate.
Defined.

Lemma seed_map_invariant teams_in st :
  (forall k v, k <> "" -> abbrev_to_team_id st !! k = Some v -> v = "nba_" +:+ k) ->
  forall k v, k <> "" ->
    abbrev_to_team_id (List.fold_left seed_step teams_in st) !! k = Some v ->
    v = "nba_" +:+ k.
Proof.
  revert st. induction teams_in as [|t ts IH]; intros st Hinv; [exact Hinv|].
  cbn [List.fold_left]. apply IH. intros k v Hk.
  unfold seed_step. cbn [abbrev_to_team_id].
  set (abbrev := field (abbreviation t) "").
  destruct (decide (abbrev = k)) as [Heq|Hne].
  - rewrite Heq, lookup_insert_eq. intros [= <-].
    destruct (String.eqb_spec k "") as [|_]; [contradiction|]. reflexivity.
  - rewrite lookup_insert_ne by exact Hne. now apply Hinv.
Qed.

Lemma seed_map_no_empty_key teams_in st :
  (forall t, In t teams_in -> abbreviation t <> None) ->
  abbrev_to_team_id st !! "" = None ->
  abbrev_to_team_id (List.fold_left seed_step teams_in st) !! "" = None.
Proof.
  revert st. induction teams_in as [|t ts IH]; intros st Hall Hst; [exact Hst|].
  cbn [List.fold_left]. apply IH; [intros x Hx; apply Hall; now right|].
  unfold seed_step. cbn [abbrev_to_team_id].
  destruct (abbreviation t) as [a|] eqn:Ha;
    [|exfalso; apply (Hall t); [now left | exact Ha]].
  cbn [field]. rewrite lookup_insert_ne; [exact Hst|].
  unfold str_field. destruct (String.eqb_spec a ""); [discriminate|assumption].
Qed.

(** X10. The lookup table that the seeding loop builds from [teams.csv]
    never changes an id: for every non-empty abbreviation, listed or not, the
    team id the game loop resolves is "nba_" followed by the abbreviation.
    So the home and away ids of a game row are "nba_" plus the trimmed
    abbreviations; when [teams.csv] has an [abbreviation] column, a side
    that the vote left empty gets the bare id "nba_". *)
Theorem nba_team_id_is_prefixed_abbreviation
        (processed_cities : list City) (processed_teams : list Team)
        (teams_in : list TeamIn) :
  let table := abbrev_to_team_id (seed processed_cities processed_teams teams_in) in
  (forall k, k <> "" -> Nba.team_id_of table k = "nba_" +:+ k)
  /\ (forall g, strip (Nba.home_abbrev g) <> "" ->
        home_team_id (Nba.new_game table g) = "nba_" +:+ strip (Nba.home_abbrev g))
  /\ (forall g, strip (Nba.away_abbrev g) <> "" ->
        away_team_id (Nba.new_game table g) = "nba_" +:+ strip (Nba.away_abbrev g))
  /\ ((forall t, In t teams_in -> abbreviation t <> None) ->
      forall g,
        (strip (Nba.home_abbrev g) = "" ->
         home_team_id (Nba.new_game table g) = "nba_")
        /\ (strip (Nba.away_abbrev g) = "" ->
            away_team_id (Nba.new_game table g) = "nba_")).
Proof.
  intros table.
  assert (Hid : forall k, k <> "" -> Nba.team_id_of table k = "nba_" +:+ k).
  { intros k Hk. unfold Nba.team_id_of.
    destruct (table !! k) as [v|] eqn:Hv; [|reflexivity]. cbn.
    eapply (seed_map_invariant teams_in); [|exact Hk|exact Hv].
    intros k' v' _ Hl. cbn in Hl. now rewrite lookup_empty in Hl. }
  split; [exact Hid|]. split; [|split].
  - intros g Hg. cbn. now apply Hid.
  - intros g Hg. cbn. now apply Hid.
  - intros Hall g.
    assert (Hempty : Nba.team_id_of table "" = "nba_").
    { unfold Nba.team_id_of, table, seed.
      rewrite (seed_map_no_empty_key teams_in _ Hall); [reflexivity|].
      cbn. apply lookup_empty. }
    split; intros Hg; cbn; rewrite Hg; exact Hempty.
Qed.

Lemma nba_team_id_is_prefixed_abbreviation_witness :
  Nba.team_id_of (abbrev_to_team_id (seed [] [] two_teams_in)) "BKN" = "nba_BKN"
  /\ Nba.team_id_of (abbrev_to_team_id (seed [] [] two_teams_in)) "SEA" = "nba_SEA"
  /\ home_team_id (Nba.new_game (abbrev_to_team_id (seed [] [] two_teams_in))
                                (Nba.mkMerged "22300001" "" "" None "2023-10-24"))
     = "nba_".
Proof.
  destruct (nba_team_id_is_prefixed_abbreviation [] [] two_teams_in)
    as (Hid & _ & _ & Hempty).
  split; [apply Hid; discriminate|]. split; [apply Hid; discriminate|].
  assert (Hall : forall t, In t two_teams_in -> abbreviation t <> None)
    by (intros t [<- | [<- | []]]; discriminate).
  destruct (Hempty Hall (Nba.mkMerged "22300001" "" "" None "2023-10-24"))
    as [Hhome _].
  apply Hhome. vm_compute. reflexivity.
Defined.

Lemma str_leb_flip a b : a <> b -> str_leb b a = negb (str_leb a b).
Proof.
  intros Hne. unfold str_leb. rewrite (String.compare_antisym b a).
  destruct (String.compare a b) eqn:Hc; try reflexivity.
  apply String.compare_eq_iff in Hc. contradiction.
Qed.

Lemma mode_first_two a b :
  a <> b -> mode_first [a; b] = if str_leb a b then a else b.
Proof.
  intros Hne. unfold mode_first, mode, count.
  assert (Hab : String.eqb a b = false) by now apply String.eqb_neq.
  assert (Hba : String.eqb b a = false) by (apply String.eqb_neq; congruence).
  assert (Hd : remove_dups [a; b] = [a; b]).
  { cbn. destruct (decide_rel elem_of a [b]) as [Hin | _]; [|reflexivity].
    apply list_elem_of_In in Hin. destruct Hin as [-> | []]. contradiction. }
  rewrite Hd. cbn [Frame.sort_by fold_right Frame.insert_by].
  destruct (str_leb a b); cbn [List.filter forallb];
    rewrite ?String.eqb_refl, ?Hab, ?Hba; reflexivity.
Qed.

(** X19. A game that is listed from both sides, once as "A @ B" and once as
    "B vs. A", leaves [game_side] with one and the same abbreviation as home
    and as away side: the two rows put A and B on opposite sides, the vote
    is tied, and the first of the sorted modes is the smaller of the two in
    both columns. The game row then has equal home and away team ids. *)
Theorem nba_two_row_game_has_one_side (m1 m2 A B : string) :
  parse_matchup m1 = Some (A, B, true) ->
  parse_matchup m2 = Some (A, B, false) ->
  A <> B ->
  let x := if str_leb A B then A else B in
  game_side [m1; m2] = Some (x, x)
  /\ game_side [m2; m1] = Some (x, x)
  /\ forall table game_id winner date,
       home_team_id (Nba.new_game table (Nba.mkMerged game_id x x winner date))
       = away_team_id (Nba.new_game table (Nba.mkMerged game_id x x winner date)).
Proof.
  intros H1 H2 Hne x.
  assert (Hne' : B <> A) by congruence.
  unfold game_side. cbn [mapM]. unfold sides_of. rewrite H1, H2.
  cbn [infer_home_away mbind option_bind mret option_ret List.map fst snd].
  rewrite (mode_first_two A B Hne), (mode_first_two B A Hne'),
    (str_leb_flip A B Hne).
  fold x. destruct (str_leb A B); cbn [negb]; repeat split.
Qed.

Lemma nba_two_row_game_has_one_side_witness :
  game_side ["GSW @ POR"; "POR vs. GSW"] = Some ("GSW", "GSW")
  /\ game_side ["POR vs. GSW"; "GSW @ POR"] = Some ("GSW", "GSW").
Proof.
  destruct (nba_two_row_game_has_one_side "GSW @ POR" "POR vs. GSW" "GSW" "POR")
    as (Ha & Hb & _);
    [vm_compute; reflexivity | vm_compute; reflexivity | discriminate |].
  split; [exact Ha | exact Hb].
Defined.

End NbaSeedProps.

(** ** The daily snapshot append *)
Module SnapshotProps.
Import PyStr Snapshot.

Lemma dict_get_absent fs vs key acc :
  ~ In key fs -> dict_get fs vs key acc = acc.
Proof.
  revert vs acc. induction fs as [|f fs IH]; intros vs acc Hin.
  - now destruct vs.
  - destruct vs as [|v vs].
    + cbn [dict_get].
      destruct (existsb (String.eqb key) (f :: fs)) eqn:He; [|reflexivity].
      apply existsb_exists in He. destruct He as (x & Hx & Heq).
      apply String.eqb_eq in Heq. subst x. contradiction.
    + cbn [dict_get]. destruct (String.eqb_spec f key) as [->|Hne].
      * exfalso. apply Hin. now left.
      * apply IH. intros H. apply Hin. now right.
Qed.

Lemma read_ids_spec rest data (ids : gset string) :
  ~ In "game_id" rest ->
  read_ids ("game_id" :: rest) data ids
  = Some (list_to_set (first_fields data) ∪ ids).
Proof.
  intros Hrest. revert ids. induction data as [|r data IH]; intros ids.
  - cbn. f_equal. set_solver.
  - destruct r as [|x vs].
    + cbn [read_ids]. rewrite IH. reflexivity.
    + cbn [read_ids dict_get]. rewrite String.eqb_refl.
      rewrite (dict_get_absent rest vs "game_id" _ Hrest), IH.
      f_equal. unfold first_fields. cbn [List.map List.concat app].
      rewrite list_to_set_cons. clear. set_solver.
Qed.

Lemma first_fields_app a b : first_fields (a ++ b) = first_fields a ++ first_fields b.
Proof. unfold first_fields. now rewrite map_app, concat_app. Qed.

(** X11. When [games.csv] ends with a line terminator and its first column
    is its only [game_id] column, the snapshot append returns with the
    stored rows followed by exactly the snapshot rows after the header that
    are not blank and whose first field is not a stored id, in the
    snapshot's order. Appending the same snapshot a second time adds
    nothing. *)
Theorem append_snapshot_runs_once
        (csv_join : list string -> list string -> list (list string))
        (snapshot : list (list string)) (rest : list string)
        (data : list (list string)) :
  ~ In "game_id" rest ->
  let games := mkCsv (("game_id" :: rest) :: data) true in
  let added :=
    List.filter (fun r => match r with
                          | [] => false
                          | x :: _ => negb (bool_decide (x ∈ first_fields data))
                          end)
                (List.tail snapshot) in
  let games' := mkCsv ((("game_id" :: rest) :: data) ++ added) true in
  append_snapshot_to_games csv_join snapshot (Some games) = Returned (Some games')
  /\ append_snapshot_to_games csv_join snapshot (Some games')
     = Returned (Some games').
Proof.
  intros Hrest games added games'.
  assert (Htail : (List.length snapshot <=? 1)%nat = true -> List.tail snapshot = []).
  { intros Hlen. apply Nat.leb_le in Hlen.
    destruct snapshot as [|h [|r t]]; [reflexivity | reflexivity | cbn in Hlen; lia]. }
  assert (Hnew : forall (ids : gset string),
            ids = list_to_set (first_fields data) ∪ ∅ ->
            List.filter (is_new ids) (List.tail snapshot) = added).
  { intros ids ->. unfold added. apply List.filter_ext. intros [|x t]; [reflexivity|].
    cbn [is_new]. f_equal. apply bool_decide_ext.
    rewrite elem_of_union, elem_of_list_to_set. clear. set_solver. }
  unfold append_snapshot_to_games.
  destruct (List.length snapshot <=? 1)%nat eqn:Hlen.
  - assert (Hadded : added = []) by (unfold added; now rewrite (Htail eq_refl)).
    unfold games'. rewrite Hadded, app_nil_r. split; reflexivity.
  - unfold games, games', existing_ids. cbn [rows app].
    rewrite !read_ids_spec by exact Hrest. rewrite (Hnew _ eq_refl).
    split.
    + unfold write_rows. cbn [final_newline rows].
      destruct added; [now rewrite app_nil_r | reflexivity].
    + assert (Hnone : List.filter
                        (is_new (list_to_set (first_fields (data ++ added)) ∪ ∅))
                        (List.tail snapshot) = []).
      { apply FrameProps.filter_none. intros r Hr.
        destruct r as [|x t]; [reflexivity|].
        cbn [is_new]. apply negb_false_iff, bool_decide_eq_true.
        rewrite first_fields_app, list_to_set_app_L.
        destruct (bool_decide (x ∈ first_fields data)) eqn:Hx.
        - apply bool_decide_eq_true in Hx.
          apply elem_of_union_l, elem_of_union_l, elem_of_list_to_set. exact Hx.
        - apply elem_of_union_l, elem_of_union_r, elem_of_list_to_set, list_elem_of_In.
          unfold first_fields. apply in_concat. exists [x]. split; [|now left].
          apply in_map_iff. exists (x :: t). split; [reflexivity|].
          unfold added. apply filter_In. split; [exact Hr|]. now rewrite Hx. }
      rewrite Hnone. reflexivity.
Qed.

Lemma append_snapshot_runs_once_witness :
  append_snapshot_to_games (fun a b => [a; b]) sample_snapshot
                           (Some (mkCsv sample_games_file true))
  = Returned
      (Some (mkCsv
               (sample_games_file
                ++ [["nhl_b"; "2023-03-02"; "nhl"; "regular"; "nhl_x"; "nhl_z"; "1";
                     "0"; "nhl_x"];
                    ["nhl_b"; "2023-03-02"; "nhl"; "regular"; "nhl_x"; "nhl_z"; "1";
                     "0"; "nhl_x"]])
               true)).
Proof.
  assert (Hrest : ~ In "game_id" (List.tail HEADERS)).
  { cbn. intros H. repeat (destruct H as [H | H]; [discriminate|]). exact H. }
  destruct (append_snapshot_runs_once (fun a b => [a; b]) sample_snapshot
              (List.tail HEADERS) (List.tail sample_games_file) Hrest) as [Hfirst _].
  exact Hfirst.
Defined.

End SnapshotProps.


(** ** The team-to-city map and the merged long file *)
Module TeamCityProps.
Import PyStr Frame FrameProps Ledger TeamCity.

Section KeepFirst.
Context {A K : Type} `{EqDecision K}.
Variable key : A -> K.

Lemma keep_first_In seen l x :
  In x (keep_first key seen l) -> In x l /\ ~ In (key x) seen.
Proof.
  revert seen. induction l as [|y t IH]; intros seen; cbn; [tauto|].
  destruct (bool_decide (key y ∈ seen)) eqn:Hy.
  - intros Hx. destruct (IH _ Hx). tauto.
  - apply bool_decide_eq_false in Hy. intros [<- | Hx].
    + split; [now left|]. intros Hin. apply Hy. now apply list_elem_of_In.
    + destruct (IH _ Hx) as [Hin Hns]. split; [now right|].
      intros Hs. apply Hns. now right.
Qed.

Lemma keep_first_NoDup seen l : NoDup (List.map key (keep_first key seen l)).
Proof.
  revert seen. induction l as [|y t IH]; intros seen; cbn; [constructor|].
  destruct (bool_decide (key y ∈ seen)); [apply IH|].
  cbn. apply NoDup_cons. split; [|apply IH].
  intros Hin. apply list_elem_of_In, in_map_iff in Hin.
  destruct Hin as (x & Hk & Hx). apply keep_first_In in Hx.
  destruct Hx as [_ Hns]. apply Hns. rewrite Hk. now left.
Qed.

Lemma keep_first_covers seen l x :
  In x l -> In (key x) seen \/ In (key x) (List.map key (keep_first key seen l)).
Proof.
  revert seen. induction l as [|y t IH]; intros seen; [intros []|].
  cbn [keep_first]. destruct (bool_decide (key y ∈ seen)) eqn:Hy.
  - apply bool_decide_eq_true, list_elem_of_In in Hy.
    intros [<- | Hx]; [now left | now apply IH].
  - intros [<- | Hx]; [right; now left|].
    destruct (IH (key y :: seen) Hx) as [[Heq | Hs] | Hr].
    + right. left. exact Heq.
    + now left.
    + right. now right.
Qed.

End KeepFirst.

Lemma team_keys_In long k :
  In k (team_keys long) <-> exists r, In r long /\ k = (l_league r, l_team r).
Proof.
  unfold team_keys. split.
  - intros Hk. apply keep_first_In in Hk. destruct Hk as [Hk _].
    apply in_map_iff in Hk. destruct Hk as (r & <- & Hr). now exists r.
  - intros (r & Hr & ->).
    destruct (keep_first_covers (fun k => k) []
                (List.map (fun r => (l_league r, l_team r)) long)
                (l_league r, l_team r)) as [[] | Hin].
    + apply in_map_iff. now exists r.
    + now rewrite List.map_id in Hin.
Qed.

Lemma frame_keys (city : string * string -> string) long k :
  In k (List.map map_key (List.map (fun k => mkMap k.1 k.2 (city k)) (team_keys long)))
  <-> exists r, In r long /\ k = (l_league r, l_team r).
Proof.
  rewrite List.map_map. rewrite <- team_keys_In.
  rewrite (List.map_ext _ (fun k => k)); [now rewrite List.map_id|].
  now intros [a b].
Qed.

Lemma frames_keys (i : Inputs) k :
  In k (List.map map_key
          (named_frame Nhl.MULTIWORD_NICKNAMES (default [] (nhl_long i))
           ++ coded_frame (build_mlb_retro_to_city (mlb_current_names i))
                          (default [] (mlb_long i))
           ++ coded_frame (build_nba_abbrev_to_city (nba_teams i))
                          (default [] (nba_long i))
           ++ named_frame Nhl.MULTIWORD_NICKNAMES_NFL (default [] (nfl_long i))))
  <-> exists r, In r (all_rows i) /\ k = (l_league r, l_team r).
Proof.
  unfold all_rows, named_frame, coded_frame.
  rewrite !List.map_app, !in_app_iff, !frame_keys.
  split.
  - intros [(r & Hr & ->) | [(r & Hr & ->) | [(r & Hr & ->) | (r & Hr & ->)]]];
      exists r; rewrite !in_app_iff; tauto.
  - intros (r & Hr & ->). rewrite !in_app_iff in Hr.
    destruct Hr as [Hr | [Hr | [Hr | Hr]]];
      [left | right; left | right; right; left | right; right; right];
      now exists r.
Qed.

(** X12. [team_city_map.csv] is a function of [(league, team)]: no key occurs
    twice, and its keys are exactly the [(league, team)] pairs of the rows
    of the four long files. *)
Theorem team_city_map_keys (i : Inputs) :
  let mapping := make_team_city_map i in
  NoDup (List.map map_key mapping)
  /\ forall k, In k (List.map map_key mapping)
               <-> exists r, In r (all_rows i) /\ k = (l_league r, l_team r).
Proof.
  intros mapping. unfold mapping, make_team_city_map. cbv zeta.
  set (frames := _ ++ _).
  assert (Hperm : Permutation (List.map map_key (sort_by map_leb (keep_first map_key [] frames)))
                              (List.map map_key (keep_first map_key [] frames)))
    by apply Permutation_map, sort_by_perm.
  split.
  - rewrite Hperm. apply keep_first_NoDup.
  - intros k. rewrite <- frames_keys. fold frames. split.
    + intros Hk. apply (Permutation_in _ Hperm) in Hk.
      apply in_map_iff in Hk. destruct Hk as (m & <- & Hm).
      apply keep_first_In in Hm. apply in_map. tauto.
    + intros Hk. apply (Permutation_in _ (Permutation_sym Hperm)).
      apply in_map_iff in Hk. destruct Hk as (m & <- & Hm).
      destruct (keep_first_covers map_key [] frames m Hm) as [[] | Hin].
      exact Hin.
Qed.

Lemma filter_unique_key (mapping : list MapRow) k :
  NoDup (List.map map_key mapping) ->
  In k (List.map map_key mapping) ->
  exists m, In m mapping /\ map_key m = k
            /\ List.filter (fun m => bool_decide (map_key m = k)) mapping = [m].
Proof.
  induction mapping as [|m ms IH]; [intros _ []|].
  cbn [List.map List.filter]. rewrite NoDup_cons. intros [Hm Hnd] Hin.
  destruct (bool_decide (map_key m = k)) eqn:Hk.
  - apply bool_decide_eq_true in Hk. exists m. split; [now left|].
    split; [exact Hk|]. f_equal.
    apply FrameProps.filter_none. intros x Hx. apply bool_decide_eq_false.
    intros Hxk. apply Hm. rewrite Hk, <- Hxk. apply list_elem_of_In. now apply in_map.
  - apply bool_decide_eq_false in Hk. destruct Hin as [Heq | Hin]; [contradiction|].
    destruct (IH Hnd Hin) as (x & Hx & Hxk & Hf). exists x.
    split; [now right|]. split; [exact Hxk | exact Hf].
Qed.

Lemma filter_absent_key (mapping : list MapRow) k :
  ~ In k (List.map map_key mapping) ->
  List.filter (fun m => bool_decide (map_key m = k)) mapping = [].
Proof.
  intros Hk. apply FrameProps.filter_none. intros m Hm.
  apply bool_decide_eq_false. intros Heq. apply Hk. rewrite <- Heq. now apply in_map.
Qed.

(** X13. With a mapping that has no key twice, the left merge of
    [concat_with_city] neither drops nor repeats a row: the output has the
    rows of the four long files in their order, each with the city of the
    mapping row of its [(league, team)], or with a missing city when the
    mapping has no such row. *)
Theorem concat_with_city_one_row_each (mapping : list MapRow) (i : Inputs) :
  NoDup (List.map map_key mapping) ->
  let out := concat_with_city mapping i in
  List.map a_long out = all_rows i
  /\ forall a, In a out ->
       (exists m, In m mapping
                  /\ map_key m = (l_league (a_long a), l_team (a_long a))
                  /\ a_City a = m_city m)
       \/ (~ In (l_league (a_long a), l_team (a_long a)) (List.map map_key mapping)
           /\ a_City a = "").
Proof.
  intros Hnd out.
  assert (Hrow : forall r,
    (exists m, In m mapping /\ map_key m = (l_league r, l_team r)
               /\ merge_row mapping r = [mkAll r (m_city m)])
    \/ (~ In (l_league r, l_team r) (List.map map_key mapping)
        /\ merge_row mapping r = [mkAll r ""])).
  { intros r. unfold merge_row.
    destruct (decide ((l_league r, l_team r) ∈ List.map map_key mapping))
      as [Hin | Hout]; rewrite list_elem_of_In in *.
    - left. destruct (filter_unique_key mapping _ Hnd Hin) as (m & Hm & Hk & Hf).
      exists m. rewrite Hf. auto.
    - right. split; [exact Hout|]. now rewrite filter_absent_key. }
  unfold out, concat_with_city. split.
  - induction (all_rows i) as [|r rs IH]; [reflexivity|].
    cbn [List.map List.concat]. rewrite List.map_app, IH.
    destruct (Hrow r) as [(m & _ & _ & ->) | (_ & ->)]; reflexivity.
  - intros a Ha. apply in_concat in Ha. destruct Ha as (l & Hl & Ha).
    apply in_map_iff in Hl. destruct Hl as (r & <- & _).
    destruct (Hrow r) as [(m & Hm & Hk & Hf) | (Hout & Hf)];
      rewrite Hf in Ha; destruct Ha as [<- | []]; cbn.
    + left. now exists m.
    + right. auto.
Qed.

Lemma concat_with_city_one_row_each_witness :
  List.map a_long (concat_with_city (make_team_city_map sample_inputs) sample_inputs)
  = all_rows sample_inputs.
Proof.
  apply (concat_with_city_one_row_each (make_team_city_map sample_inputs) sample_inputs).
  vm_compute. repeat (constructor; [set_solver|]). constructor.
Defined.

End TeamCityProps.


(** ** From the NHL loader to the ledger *)
Module NhlLedgerProps.
Import PyStr Ledger Nhl SplitProps.

Lemma lstrip_l_app_keep p c q : is_space c = false -> lstrip_l (p ++ c :: q) <> [].
Proof.
  intros Hc. induction p as [|a p IH]; cbn.
  - now rewrite Hc.
  - destruct (is_space a); [exact IH | discriminate].
Qed.

Lemma strip_nhl x : strip ("nhl_" +:+ x) <> "".
Proof.
  intros H. apply (f_equal chars) in H. unfold strip in H. rewrite chars_str in H.
  unfold strip_l in H.
  change (chars ("nhl_" +:+ x)) with ("n"%char :: chars ("hl_" +:+ x)) in H.
  cbn [lstrip_l] in H.
  change (is_space "n") with false in H. cbv iota in H.
  cbn [rev] in H. change (chars "") with (@nil ascii) in H.
  apply (f_equal (@rev ascii)) in H. rewrite rev_involutive in H. cbn [rev] in H.
  now apply lstrip_l_app_keep in H.
Qed.

Lemma parse_winner_nhl x : parse_winner ("nhl_" +:+ x) = Some ("nhl_" +:+ x).
Proof.
  unfold parse_winner. change (String.eqb ("nhl_" +:+ x) "") with false. cbv iota.
  destruct (String.eqb_spec (strip ("nhl_" +:+ x)) "") as [H|_]; [|reflexivity].
  now apply strip_nhl in H.
Qed.

(** The two ledger rows of the game row that the loader writes for [r]. *)
Lemma nhl_ledger_rows (int_float : string -> option Z) (weights : gmap string Z)
      (r : RawGame) :
  exists h a,
    game_rows weights (game_row int_float r) = [h; a]
    /\ team_id h = home_team_id_of r /\ team_id a = away_team_id_of r
    /\ match parse_goals int_float (AwayGoals r) (HomeGoals r) with
       | (Some ag, Some hg) =>
           if hg <? ag then
             index_score a = 1
             /\ index_score h
                = (if String.eqb (away_team_id_of r) (home_team_id_of r) then 1 else -1)
           else if ag <? hg then
             index_score h = 1
             /\ index_score a
                = (if String.eqb (home_team_id_of r) (away_team_id_of r) then 1 else -1)
           else index_score h = 0 /\ index_score a = 0
       | _ => index_score h = 0 /\ index_score a = 0
       end.
Proof.
  unfold game_row, game_rows.
  destruct (parse_goals int_float (AwayGoals r) (HomeGoals r)) as [[ag|] [hg|]];
    cbn [home_team_id away_team_id home_score away_score winning_team_id
         score_cell parse_scores parse_score];
    unfold home_team_id_of, away_team_id_of;
    rewrite !IngestProps.str_field_nhl.
  - destruct (hg <? ag) eqn:H1; [|destruct (ag <? hg) eqn:H2].
    + rewrite parse_winner_nhl. cbn [base_results]. unfold result_of.
      rewrite String.eqb_refl.
      destruct (String.eqb ("nhl_" +:+ slugify (away_full r))
                           ("nhl_" +:+ slugify (home_full r)));
        eexists _, _; (split; [reflexivity|]); cbn; auto.
    + rewrite parse_winner_nhl. cbn [base_results]. unfold result_of.
      rewrite String.eqb_refl.
      destruct (String.eqb ("nhl_" +:+ slugify (home_full r))
                           ("nhl_" +:+ slugify (away_full r)));
        eexists _, _; (split; [reflexivity|]); cbn; auto.
    + eexists _, _. split; [reflexivity|]. cbn. auto.
  - eexists _, _. split; [reflexivity|]. cbn. auto.
  - eexists _, _. split; [reflexivity|]. cbn. auto.
  - eexists _, _. split; [reflexivity|]. cbn. auto.
Qed.

(** X14. The game row that the NHL loader writes scores in the ledger as
    the goals say: the side with more goals has [index_score] 1 and, when
    the two team ids differ, the other side has -1; a tie, or a goal count
    that is missing or unreadable, gives 0 to both. *)
Theorem nhl_more_goals_wins_in_ledger
        (int_float : string -> option Z) (weights : gmap string Z) (r : RawGame) :
  exists h a,
    game_rows weights (game_row int_float r) = [h; a]
    /\ team_id h = home_team_id_of r /\ team_id a = away_team_id_of r
    /\ (forall ag hg,
          parse_goals int_float (AwayGoals r) (HomeGoals r) = (Some ag, Some hg) ->
          (hg < ag ->
           index_score a = 1
           /\ (home_team_id_of r <> away_team_id_of r -> index_score h = -1))
          /\ (ag < hg ->
              index_score h = 1
              /\ (home_team_id_of r <> away_team_id_of r -> index_score a = -1))
          /\ (ag = hg -> index_score h = 0 /\ index_score a = 0))
    /\ ((parse_goals int_float (AwayGoals r) (HomeGoals r)).1 = None
        \/ (parse_goals int_float (AwayGoals r) (HomeGoals r)).2 = None ->
        index_score h = 0 /\ index_score a = 0).
Proof.
  destruct (nhl_ledger_rows int_float weights r) as (h & a & Hrows & Hh & Ha & Hidx).
  exists h, a. split; [exact Hrows|]. split; [exact Hh|]. split; [exact Ha|].
  destruct (parse_goals int_float (AwayGoals r) (HomeGoals r)) as [[ag|] [hg|]];
    cbn [fst snd].
  - split; [|intros [H | H]; discriminate].
    intros ag' hg' [= <- <-].
    destruct (hg <? ag) eqn:H1; [|destruct (ag <? hg) eqn:H2].
    + apply Z.ltb_lt in H1. destruct Hidx as [Hwin Hlose].
      split; [|split]; [|intros; lia|intros; lia].
      intros _. split; [exact Hwin|]. intros Hne. rewrite Hlose.
      destruct (String.eqb_spec (away_team_id_of r) (home_team_id_of r));
        [congruence | reflexivity].
    + apply Z.ltb_lt in H2. apply Z.ltb_ge in H1. destruct Hidx as [Hwin Hlose].
      split; [intros; lia|]. split; [|intros; lia].
      intros _. split; [exact Hwin|]. intros Hne. rewrite Hlose.
      destruct (String.eqb_spec (home_team_id_of r) (away_team_id_of r));
        [congruence | reflexivity].
    + apply Z.ltb_ge in H1, H2. split; [intros; lia|]. split; [intros; lia|].
      intros _. exact Hidx.
  - split; [intros ? ? [=]|]. intros _. exact Hidx.
  - split; [intros ? ? [=]|]. intros _. exact Hidx.
  - split; [intros ? ? [=]|]. intros _. exact Hidx.
Qed.

End NhlLedgerProps.


(** ** The long files *)
Module LongFormProps.
Import PyStr Frame FrameProps Ledger TeamCity LongForm.

Lemma sumZ_perm (a b : list Z) : Permutation a b -> sumZ a = sumZ b.
Proof.
  unfold sumZ. induction 1 as [|x a b _ IH|x y a|a b c _ IH1 _ IH2]; cbn; lia.
Qed.

Lemma idx_pair_zero a b : (idx_pair a b).1 + (idx_pair a b).2 = 0.
Proof.
  unfold idx_pair. destruct a as [x|], b as [y|]; try reflexivity.
  destruct (y <? x); [reflexivity|]. destruct (x <? y); reflexivity.
Qed.

Section TransformProps.
Variable int_float : string -> option Z.
Variable to_datetime_coerce : string -> option Dates.civil.
Variable to_datetime : string -> option (option Dates.civil).
Variable strftime : Dates.civil -> string.

Lemma format_entry_spec league e x :
  format_entry to_datetime strftime league e = Some x ->
  l_date x = date_text strftime (default None (to_datetime (e_date e)))
  /\ score x = e_index_score e /\ l_team x = e_team e /\ l_league x = league
  /\ l_index_score x = Some (e_index_score e).
Proof.
  unfold format_entry. destruct (to_datetime (e_date e)) as [d|]; [|discriminate].
  destruct (to_datetime (date_text strftime d)) as [m|]; [|discriminate].
  intros [= <-]. cbn. auto 6.
Qed.

Lemma format_out_rows league rows out :
  format_out to_datetime strftime league rows = Some out ->
  List.length out = List.length rows
  /\ forall x, In x out ->
       exists e, In e rows /\ l_league x = league /\ l_team x = e_team e
                 /\ l_index_score x = Some (e_index_score e).
Proof.
  unfold format_out.
  destruct (mapM _ rows) as [l|] eqn:Hl; [|discriminate]. intros [= <-].
  pose proof (sort_by_perm long_leb l) as Hperm. apply mapM_Some in Hl. split.
  - rewrite (Permutation_length Hperm). symmetry. exact (Forall2_length _ _ _ Hl).
  - intros x Hx. apply (Permutation_in _ Hperm), list_elem_of_In in Hx.
    apply list_elem_of_lookup in Hx. destruct Hx as [n Hn].
    destruct (Forall2_lookup_r _ _ _ n x Hl Hn) as (e & He & Hf).
    exists e. split.
    + apply list_elem_of_In, list_elem_of_lookup. now exists n.
    + destruct (format_entry_spec _ _ _ Hf) as (_ & _ & Ht & Hlg & Hi). auto.
Qed.

Lemma format_blocks league (p : string -> bool) blocks l :
  Forall balanced blocks ->
  mapM (format_entry to_datetime strftime league) (List.concat blocks) = Some l ->
  sumZ (List.map (fun r => if p (l_date r) then score r else 0) l) = 0.
Proof.
  intros Hb. revert l. induction Hb as [|b bs Hbal _ IH]; intros l Hl.
  - cbn in Hl. injection Hl as <-. reflexivity.
  - destruct Hbal as [-> | (e1 & e2 & -> & Hd & Hs)]; [now apply IH|].
    cbn [List.concat app] in Hl. apply mapM_Some in Hl.
    inversion Hl as [|? x1 ? l1 H1 Hl1]; subst.
    inversion Hl1 as [|? x2 ? l2 H2 Hl2]; subst.
    apply mapM_Some in Hl2. cbn [List.map]. unfold sumZ. cbn [fold_right].
    fold (sumZ (List.map (fun r => if p (l_date r) then score r else 0) l2)).
    rewrite (IH _ Hl2).
    destruct (format_entry_spec _ _ _ H1) as (D1 & S1 & _).
    destruct (format_entry_spec _ _ _ H2) as (D2 & S2 & _).
    rewrite D1, D2, S1, S2, Hd. destruct (p _); lia.
Qed.

Lemma format_out_zero league (p : string -> bool) blocks out :
  Forall balanced blocks ->
  format_out to_datetime strftime league (List.concat blocks) = Some out ->
  sumZ (List.map (fun r => if p (l_date r) then score r else 0) out) = 0.
Proof.
  intros Hb. unfold format_out.
  destruct (mapM _ (List.concat blocks)) as [l|] eqn:Hl; [|discriminate].
  intros [= <-].
  rewrite (sumZ_perm _ _ (Permutation_map _ (sort_by_perm long_leb l))).
  now apply (format_blocks league p blocks).
Qed.

Lemma nhl_entries_balanced r : balanced (nhl_entries int_float r).
Proof.
  unfold nhl_entries, balanced.
  destruct (_ || _); [now left|].
  pose proof (idx_pair_zero (goal int_float (Nhl.AwayGoals r))
                            (goal int_float (Nhl.HomeGoals r))) as Hz.
  destruct (idx_pair _ _) as [x y]. right. eexists _, _. split; [reflexivity|].
  cbn in *. auto.
Qed.

Lemma mlb_entries_balanced r : balanced (mlb_entries r).
Proof.
  unfold mlb_entries, balanced.
  destruct (_ || _); [now left|]. right.
  destruct (int_cell (Game_Winner r)) as [w|].
  - destruct (w =? 1); [|destruct (w =? 0)];
      eexists _, _; (split; [reflexivity|]); cbn; auto.
  - eexists _, _. split; [reflexivity|]. cbn. auto.
Qed.

Lemma nfl_entries_balanced r b :
  nfl_entries to_datetime_coerce strftime r = Some b -> balanced b.
Proof.
  unfold nfl_entries, balanced.
  destruct (if String.eqb _ "" then _ else _) as [date|]; [|discriminate].
  destruct (_ || _); [intros [= <-]; now left|].
  pose proof (idx_pair_zero (int_cell (score_home r)) (int_cell (score_away r))) as Hz.
  destruct (idx_pair _ _) as [x y]. intros [= <-]. right.
  eexists _, _. split; [reflexivity|]. cbn in *. auto.
Qed.

End TransformProps.

Lemma idx_pair_range a b :
  (-1 <= (idx_pair a b).1 <= 1) /\ (-1 <= (idx_pair a b).2 <= 1).
Proof.
  unfold idx_pair. destruct a as [x|], b as [y|]; cbn; try lia.
  destruct (y <? x); [cbn; lia|]. destruct (x <? y); cbn; lia.
Qed.

Lemma concat_pairs_length {A : Type} (f : A -> list Entry) (named : A -> bool) df :
  (forall r, if named r then exists e1 e2, f r = [e1; e2] else f r = []) ->
  List.length (List.concat (List.map f df))
  = (2 * List.length (List.filter named df))%nat.
Proof.
  intros Hf. induction df as [|r df IH]; [reflexivity|].
  cbn [List.map List.concat List.filter]. rewrite length_app, IH.
  specialize (Hf r). destruct (named r).
  - destruct Hf as (e1 & e2 & ->). cbn. lia.
  - rewrite Hf. reflexivity.
Qed.

Lemma in_concat_map {A B : Type} (f : A -> list B) l x :
  In x (List.concat (List.map f l)) -> exists r, In r l /\ In x (f r).
Proof.
  intros Hx. apply in_concat in Hx. destruct Hx as (b & Hb & Hx).
  apply in_map_iff in Hb. destruct Hb as (r & <- & Hr). eauto.
Qed.

(** X20. The rows of a long file: the NHL and MLB transformers write two
    rows for every input row that names both teams and none for the others,
    the NBA transformer one row per input row; every row carries its league
    and an index score among -1, 0 and 1. *)
Theorem long_rows_shape
        (int_float : string -> option Z)
        (to_datetime : string -> option (option Dates.civil))
        (strftime : Dates.civil -> string) :
  (forall df out,
      transform_nhl_long int_float to_datetime strftime df = Some out ->
      List.length out
      = (2 * List.length
               (List.filter
                  (fun r => negb (String.eqb (strip (str_field (Nhl.Away r))) ""
                                  || String.eqb (strip (str_field (Nhl.Home r))) ""))
                  df))%nat
      /\ forall x, In x out ->
           l_league x = "nhl"
           /\ exists z, l_index_score x = Some z /\ -1 <= z <= 1)
  /\ (forall df out,
        transform_mlb_long to_datetime strftime df = Some out ->
        List.length out
        = (2 * List.length
                 (List.filter
                    (fun r => negb (String.eqb (strip (str_field (VT r))) ""
                                    || String.eqb (strip (str_field (HT r))) ""))
                    df))%nat
        /\ forall x, In x out ->
             l_league x = "mlb"
             /\ exists z, l_index_score x = Some z /\ -1 <= z <= 1)
  /\ (forall df out,
        transform_nba_long to_datetime strftime df = Some out ->
        List.length out = List.length df
        /\ forall x, In x out ->
             l_league x = "nba"
             /\ exists z, l_index_score x = Some z /\ -1 <= z <= 1).
Proof.
  split; [|split]; intros df out Hout.
  - destruct (format_out_rows _ _ _ _ _ Hout) as [Hlen Hrows]. split.
    + rewrite Hlen. apply concat_pairs_length. intros r. unfold nhl_entries.
      destruct (_ || _); cbn [negb]; [reflexivity|].
      destruct (idx_pair _ _). eauto.
    + intros x Hx. destruct (Hrows x Hx) as (e & He & Hlg & _ & Hi).
      split; [exact Hlg|]. exists (e_index_score e). split; [exact Hi|].
      apply in_concat_map in He. destruct He as (r & _ & He).
      unfold nhl_entries in He. destruct (_ || _); [destruct He|].
      pose proof (idx_pair_range (goal int_float (Nhl.AwayGoals r))
                                 (goal int_float (Nhl.HomeGoals r))) as Hr.
      destruct (idx_pair _ _) as [a b]. cbn in Hr.
      destruct He as [<- | [<- | []]]; cbn; tauto.
  - destruct (format_out_rows _ _ _ _ _ Hout) as [Hlen Hrows]. split.
    + rewrite Hlen. apply concat_pairs_length. intros r. unfold mlb_entries.
      destruct (_ || _); cbn [negb]; [reflexivity|].
      destruct (match int_cell (Game_Winner r) with Some _ => _ | None => _ end).
      eauto.
    + intros x Hx. destruct (Hrows x Hx) as (e & He & Hlg & _ & Hi).
      split; [exact Hlg|]. exists (e_index_score e). split; [exact Hi|].
      apply in_concat_map in He. destruct He as (r & _ & He).
      unfold mlb_entries in He. destruct (_ || _); [destruct He|].
      destruct (int_cell (Game_Winner r)) as [w|];
        [destruct (w =? 1); [|destruct (w =? 0)]|];
        destruct He as [<- | [<- | []]]; cbn; lia.
  - unfold transform_nba_long in Hout.
    destruct (mapM _ df) as [rows|] eqn:Hrows'; [|discriminate].
    destruct (format_out_rows _ _ _ _ _ Hout) as [Hlen Hrows].
    apply mapM_Some in Hrows'. split.
    + rewrite Hlen. symmetry. exact (Forall2_length _ _ _ Hrows').
    + intros x Hx. destruct (Hrows x Hx) as (e & He & Hlg & _ & Hi).
      split; [exact Hlg|]. exists (e_index_score e). split; [exact Hi|].
      apply list_elem_of_In, list_elem_of_lookup in He. destruct He as [n Hn].
      destruct (Forall2_lookup_r _ _ _ n e Hrows' Hn) as (r & _ & Hr).
      unfold nba_entry in Hr. destruct (to_datetime (GAME_DATE r)); [|discriminate].
      injection Hr as <-. cbn.
      destruct (String.eqb (WL r) "W"); [lia|]. destruct (String.eqb (WL r) "L"); lia.
Qed.

(** X15. The long files of the NHL, MLB and NFL are zero-sum: whenever the
    transformer returns, the index scores of its rows add up to zero, over
    the whole file and on every single date. *)
Theorem long_files_are_zero_sum
        (int_float : string -> option Z)
        (to_datetime_coerce : string -> option Dates.civil)
        (to_datetime : string -> option (option Dates.civil))
        (strftime : Dates.civil -> string) :
  (forall df out,
      transform_nhl_long int_float to_datetime strftime df = Some out ->
      sumZ (List.map score out) = 0 /\ forall d, day_total d out = 0)
  /\ (forall df out,
        transform_mlb_long to_datetime strftime df = Some out ->
        sumZ (List.map score out) = 0 /\ forall d, day_total d out = 0)
  /\ (forall df out,
        transform_nfl_long to_datetime_coerce to_datetime strftime df = Some out ->
        sumZ (List.map score out) = 0 /\ forall d, day_total d out = 0).
Proof.
  split; [|split]; intros df out Hout.
  - assert (Hb : Forall balanced (List.map (nhl_entries int_float) df)).
    { apply List.Forall_forall. intros b Hin. apply in_map_iff in Hin.
      destruct Hin as (r & <- & _). apply nhl_entries_balanced. }
    split; [|intros d].
    + exact (format_out_zero to_datetime strftime "nhl" (fun _ => true) _ out Hb Hout).
    + exact (format_out_zero to_datetime strftime "nhl" (fun s => String.eqb s d)
                             _ out Hb Hout).
  - assert (Hb : Forall balanced (List.map mlb_entries df)).
    { apply List.Forall_forall. intros b Hin. apply in_map_iff in Hin.
      destruct Hin as (r & <- & _). apply mlb_entries_balanced. }
    split; [|intros d].
    + exact (format_out_zero to_datetime strftime "mlb" (fun _ => true) _ out Hb Hout).
    + exact (format_out_zero to_datetime strftime "mlb" (fun s => String.eqb s d)
                             _ out Hb Hout).
  - unfold transform_nfl_long in Hout.
    destruct (mapM _ df) as [rows|] eqn:Hrows; [|discriminate].
    assert (Hb : Forall balanced rows).
    { apply mapM_Some in Hrows. apply List.Forall_forall. intros b Hin.
      apply list_elem_of_In, list_elem_of_lookup in Hin. destruct Hin as [n Hn].
      destruct (Forall2_lookup_r _ _ _ n b Hrows Hn) as (r & _ & Hr).
      exact (nfl_entries_balanced _ _ _ _ Hr). }
    split; [|intros d].
    + exact (format_out_zero to_datetime strftime "nfl" (fun _ => true) _ out Hb Hout).
    + exact (format_out_zero to_datetime strftime "nfl" (fun s => String.eqb s d)
                             _ out Hb Hout).
Qed.

Lemma long_files_are_zero_sum_witness :
  (exists out,
      transform_nhl_long (fun _ => None) iso_column iso_format sample_nhl = Some out
      /\ List.length out = 6%nat /\ day_total "2023-03-01" out = 0)
  /\ (exists out,
        transform_mlb_long iso_column iso_format sample_mlb = Some out
        /\ List.length out = 4%nat /\ sumZ (List.map score out) = 0)
  /\ (exists out,
        transform_nfl_long Dates.iso_date iso_column iso_format sample_nfl = Some out
        /\ List.length out = 2%nat /\ sumZ (List.map score out) = 0).
Proof.
  destruct (long_files_are_zero_sum (fun _ => None) Dates.iso_date iso_column iso_format)
    as (Hnhl & Hmlb & Hnfl).
  split; [|split].
  - destruct (transform_nhl_long (fun _ => None) iso_column iso_format sample_nhl)
      as [out|] eqn:Hout; [|vm_compute in Hout; discriminate].
    exists out. split; [reflexivity|]. split.
    + vm_compute in Hout. injection Hout as <-. reflexivity.
    + exact (proj2 (Hnhl sample_nhl out Hout) "2023-03-01").
  - destruct (transform_mlb_long iso_column iso_format sample_mlb)
      as [out|] eqn:Hout; [|vm_compute in Hout; discriminate].
    exists out. split; [reflexivity|]. split.
    + vm_compute in Hout. injection Hout as <-. reflexivity.
    + exact (proj1 (Hmlb sample_mlb out Hout)).
  - destruct (transform_nfl_long Dates.iso_date iso_column iso_format sample_nfl)
      as [out|] eqn:Hout; [|vm_compute in Hout; discriminate].
    exists out. split; [reflexivity|]. split.
    + vm_compute in Hout. injection Hout as <-. reflexivity.
    + exact (proj1 (Hnfl sample_nfl out Hout)).
Defined.

End LongFormProps.


(** ** The NHL long file against the ledger *)
Module NhlAgreement.
Import PyStr Ledger Nhl LongForm.

(** X16. The two pipelines score an NHL game alike: for a raw row with two
    non-blank team names whose ids differ, the index scores of its two rows
    in the long file are the index scores of the ledger rows of the game
    row that the loader writes for it, team by team. *)
Theorem nhl_long_agrees_with_ledger
        (int_float : string -> option Z) (weights : gmap string Z) (r : RawGame) :
  home_team_id_of r <> away_team_id_of r ->
  away_full r <> "" -> home_full r <> "" ->
  exists h a ea eh,
    game_rows weights (game_row int_float r) = [h; a]
    /\ nhl_entries int_float r = [ea; eh]
    /\ team_id a = "nhl_" +:+ slugify (e_team ea)
    /\ index_score a = e_index_score ea
    /\ team_id h = "nhl_" +:+ slugify (e_team eh)
    /\ index_score h = e_index_score eh.
Proof.
  intros Hne Haway Hhome.
  destruct (NhlLedgerProps.nhl_ledger_rows int_float weights r)
    as (h & a & Hrows & Hh & Ha & Hidx).
  unfold nhl_entries. fold (away_full r) (home_full r).
  destruct (String.eqb_spec (away_full r) "") as [|_]; [contradiction|].
  destruct (String.eqb_spec (home_full r) "") as [|_]; [contradiction|].
  cbn [orb].
  assert (Hpair : idx_pair (goal int_float (AwayGoals r)) (goal int_float (HomeGoals r))
                  = (index_score a, index_score h)).
  { unfold parse_goals in Hidx. unfold goal, idx_pair.
    destruct (parse_goal int_float (AwayGoals r)) as [[ag|]|];
      destruct (parse_goal int_float (HomeGoals r)) as [[hg|]|];
      cbn [default]; cbv [id];
      try (destruct Hidx as [-> ->]; reflexivity).
    destruct (hg <? ag); [|destruct (ag <? hg)].
    - destruct Hidx as [-> ->].
      destruct (String.eqb_spec (away_team_id_of r) (home_team_id_of r));
        [congruence | reflexivity].
    - destruct Hidx as [-> ->].
      destruct (String.eqb_spec (home_team_id_of r) (away_team_id_of r));
        [congruence | reflexivity].
    - destruct Hidx as [-> ->]. reflexivity. }
  rewrite Hpair. eexists h, a, _, _. split; [exact Hrows|]. split; [reflexivity|].
  cbn [e_team e_index_score]. auto.
Qed.

Lemma nhl_long_agrees_with_ledger_witness :
  exists h a ea eh,
    game_rows default_weights (game_row (fun _ => None) vegas_toronto_raw) = [h; a]
    /\ nhl_entries (fun _ => None) vegas_toronto_raw = [ea; eh]
    /\ team_id a = "nhl_" +:+ slugify (e_team ea)
    /\ index_score a = e_index_score ea
    /\ team_id h = "nhl_" +:+ slugify (e_team eh)
    /\ index_score h = e_index_score eh.
Proof.
  apply (nhl_long_agrees_with_ledger (fun _ => None) default_weights vegas_toronto_raw);
    vm_compute; discriminate.
Defined.

End NhlAgreement.


(** ** The daily city file: keys and totals *)
Module CityDailyMore.
Import PyStr Frame FrameProps CityDaily CityDailyProps.

(** The key of an output row. *)
Local Abbreviation okey := (fun o : Out => (o_city o, o_day o)).

Lemma date_range_NoDup lo hi : NoDup (date_range lo hi).
Proof.
  unfold date_range.
  assert (Hinj : Inj eq eq (fun i : nat => lo + Z.of_nat i)) by (intros i j Hij; lia).
  exact (NoDup_fmap_2 (fun i : nat => lo + Z.of_nat i) _ (NoDup_seq _ _)).
Qed.

Lemma out_frame_keys df c lo hi :
  List.map okey (List.map (expected_row df c lo) (date_range lo hi))
  = List.map (fun n => (c, n)) (date_range lo hi).
Proof. rewrite List.map_map. reflexivity. Qed.

(** The frames of a duplicate-free list of cities that all have kept rows. *)
Lemma frames_shape df cs :
  NoDup cs ->
  (forall c, In c cs -> exists r, In r df /\ p_city r = c) ->
  let outs := List.concat (List.map (fun c => city_frame c (daily_agg df)) cs) in
  NoDup (List.map okey outs)
  /\ (forall o, In o outs ->
        In (o_city o) cs
        /\ o_index_sum o = day_sum df (o_city o) (o_day o)
        /\ o_games o = day_games df (o_city o) (o_day o))
  /\ (forall r, In r df -> In (p_city r) cs -> In (p_city r, p_day r) (List.map okey outs)).
Proof.
  induction cs as [|c cs IH]; intros Hnd Hcs.
  - cbn. split; [constructor|]. split; [intros o []|intros r _ []].
  - apply NoDup_cons in Hnd. destruct Hnd as [Hc Hnd].
    destruct IH as (IHnd & IHo & IHr); [exact Hnd | intros x Hx; apply Hcs; now right |].
    destruct (city_frame_spec df c (Hcs c (or_introl eq_refl)))
      as (lo & hi & Hspan & Hframe).
    cbn [List.map List.concat]. cbv zeta. rewrite Hframe.
    set (rest := List.concat (List.map (fun c => city_frame c (daily_agg df)) cs)) in *.
    assert (Hhere : forall o, In o (List.map (expected_row df c lo) (date_range lo hi)) ->
                    o_city o = c /\ lo <= o_day o <= hi
                    /\ o_index_sum o = day_sum df c (o_day o)
                    /\ o_games o = day_games df c (o_day o)).
    { intros o Ho. apply in_map_iff in Ho. destruct Ho as (n & <- & Hn).
      apply in_date_range in Hn. cbn. auto. }
    split; [|split].
    + rewrite List.map_app. apply NoDup_app. split; [|split; [|exact IHnd]].
      * rewrite out_frame_keys.
        assert (Hinj : Inj eq eq (fun n : Z => (c, n)))
          by (intros i j Hij; now inversion Hij).
        exact (NoDup_fmap_2 (fun n : Z => (c, n)) _ (date_range_NoDup lo hi)).
      * intros k Hk Hk'. apply list_elem_of_In in Hk, Hk'.
        apply in_map_iff in Hk. destruct Hk as (o & <- & Ho).
        apply in_map_iff in Hk'. destruct Hk' as (o' & Heq & Ho').
        destruct (Hhere o Ho) as (Hoc & _). destruct (IHo o' Ho') as (Hin & _).
        apply Hc. apply list_elem_of_In. cbn in Heq.
        injection Heq as Hcity _. now rewrite <- Hoc, <- Hcity.
    + intros o Ho. apply in_app_iff in Ho. destruct Ho as [Ho | Ho].
      * destruct (Hhere o Ho) as (Hoc & _ & Hs & Hg). rewrite Hoc.
        split; [now left | auto].
      * destruct (IHo o Ho) as (Hin & Hs & Hg). split; [now right | auto].
    + intros r Hr [Hrc | Hrc]; rewrite List.map_app; apply in_app_iff.
      * left. rewrite out_frame_keys. apply in_map_iff. exists (p_day r).
        split; [now rewrite Hrc|]. apply in_date_range.
        destruct Hspan as (_ & _ & Hall). apply Hall; [exact Hr | now symmetry].
      * right. now apply IHr.
Qed.

Lemma cities_of_daily df c :
  In c (sort_by city_leb (remove_dups (List.map d_city (daily_agg df))))
  <-> exists r, In r df /\ p_city r = c.
Proof.
  rewrite sort_by_In, <- list_elem_of_In, elem_of_remove_dups, list_elem_of_In,
    in_map_iff.
  split.
  - intros (d & <- & Hd). apply daily_agg_In in Hd.
    destruct Hd as ((r & Hr & Hrc & _) & _). eauto.
  - intros (r & Hr & Hc).
    exists (mkDaily c (p_day r) (day_sum df c (p_day r)) (day_games df c (p_day r))).
    split; [reflexivity|]. apply daily_agg_In. cbn.
    split; [eauto | split; reflexivity].
Qed.

Lemma out_shape to_datetime rows :
  let df := kept to_datetime rows in
  let out := city_daily_7d to_datetime rows in
  NoDup (List.map okey out)
  /\ (forall o, In o out ->
        o_index_sum o = day_sum df (o_city o) (o_day o)
        /\ o_games o = day_games df (o_city o) (o_day o))
  /\ (forall r, In r df -> In (p_city r, p_day r) (List.map okey out)).
Proof.
  intros df out. unfold out, city_daily_7d. fold df.
  set (cities := sort_by city_leb (remove_dups (List.map d_city (daily_agg df)))).
  destruct (frames_shape df cities) as (Hnd & Ho & Hr).
  - unfold cities. rewrite (sort_by_perm city_leb). apply NoDup_remove_dups.
  - intros c Hc. now apply cities_of_daily.
  - set (outs := List.concat (List.map (fun c => city_frame c (daily_agg df)) cities))
      in *.
    pose proof (sort_by_perm out_leb outs) as Hperm.
    split; [|split].
    + now rewrite (Permutation_map okey Hperm).
    + intros o Hin. apply (Permutation_in _ Hperm) in Hin.
      destruct (Ho o Hin) as (_ & Hs & Hg). auto.
    + intros r Hin.
      apply (Permutation_in _ (Permutation_sym (Permutation_map okey Hperm))).
      apply Hr; [exact Hin|]. apply cities_of_daily. eauto.
Qed.

(** X17. [city_daily_7d.csv] has at most one row for a city and a calendar
    day. *)
Theorem city_daily_keys_are_unique
        (to_datetime : string -> option Dates.civil) (rows : list LongRow) :
  NoDup (List.map (fun o => (o_city o, o_day o)) (city_daily_7d to_datetime rows)).
Proof. exact (proj1 (out_shape to_datetime rows)). Qed.

Lemma in_group_decide k r :
  in_group k r = bool_decide ((p_city r, p_day r) = k).
Proof.
  destruct k as [c n]. destruct (in_group (c, n) r) eqn:Hg.
  - apply in_group_iff in Hg. destruct Hg as [<- <-].
    now rewrite bool_decide_eq_true_2.
  - symmetry. apply bool_decide_eq_false. intros [= <- <-].
    assert (in_group (p_city r, p_day r) r = true) by now apply in_group_iff.
    congruence.
Qed.

(** Summing group by group over a duplicate-free list of keys that covers
    the rows counts every row once. *)
Lemma sum_by_keys (f : Parsed -> Z) (keys : list (string * Z)) (df : list Parsed) :
  NoDup keys ->
  (forall r, In r df -> In (p_city r, p_day r) keys) ->
  sumZ (List.map (fun k => sumZ (List.map f (List.filter (in_group k) df))) keys)
  = sumZ (List.map f df).
Proof.
  intros Hnd. induction df as [|r df IH]; intros Hcov.
  - clear Hnd Hcov. induction keys as [|k keys IHk]; [reflexivity|].
    unfold sumZ in *. cbn in *. now rewrite IHk.
  - rewrite (sumZ_ext _ (fun k => (if bool_decide ((p_city r, p_day r) = k)
                                   then f r else 0)
                                  + sumZ (List.map f (List.filter (in_group k) df)))).
    + rewrite sumZ_add, IH by (intros x Hx; apply Hcov; now right).
      rewrite FrameProps.sumZ_indicator; [| exact Hnd | apply Hcov; now left].
      unfold sumZ. cbn. lia.
    + intros k _. cbn [List.filter]. rewrite in_group_decide.
      destruct (bool_decide _); unfold sumZ; cbn; lia.
Qed.

(** X18. Filling the calendar with zero rows loses and invents nothing: the
    daily [index_sum] column of [city_daily_7d.csv] adds up to the total
    index score of the kept rows of [all_long.csv], and the [games] column
    to the number of kept rows that have a score. *)
Theorem city_daily_totals_are_kept
        (to_datetime : string -> option Dates.civil) (rows : list LongRow) :
  let df := kept to_datetime rows in
  let out := city_daily_7d to_datetime rows in
  sumZ (List.map o_index_sum out) = sumZ (List.map (fun r => score0 (p_score r)) df)
  /\ sumZ (List.map o_games out) = sumZ (List.map (fun r => counted (p_score r)) df).
Proof.
  intros df out. destruct (out_shape to_datetime rows) as (Hnd & Ho & Hcov).
  fold df in Ho, Hcov. fold out in Hnd, Ho, Hcov.
  split.
  - rewrite <- (sum_by_keys (fun r => score0 (p_score r)) (List.map okey out) df Hnd Hcov).
    rewrite List.map_map. apply sumZ_ext. intros o Hin.
    now destruct (Ho o Hin) as [-> _].
  - rewrite <- (sum_by_keys (fun r => counted (p_score r)) (List.map okey out) df Hnd Hcov).
    rewrite List.map_map. apply sumZ_ext. intros o Hin.
    now destruct (Ho o Hin) as [_ ->].
Qed.

End CityDailyMore.


(** ** An NFL name through [split_city_team] *)
Module NflSplit.
Import PyStr Nhl SplitProps.

Lemma split_city_team_nfl_cases_witness :
  exists prefix,
    strip "San Francisco 49ers" = prefix +:+ "49ers"
    /\ split_city_team_with MULTIWORD_NICKNAMES_NFL "San Francisco 49ers"
       = (strip prefix, "49ers").
Proof.
  destruct (split_city_team_nfl_cases "San Francisco 49ers") as [Hnick _];
    [vm_compute; discriminate|].
  apply Hnick; [right; right; left; reflexivity | vm_compute; reflexivity].
Defined.

End NflSplit.
